(** * Calendar view for the Tasks plugin: task aggregation, month grid,
      completion toggle and task creation (src/main.ts), embedded in Rocq.

    Conventions of the embedding.
    - A JavaScript string is the list of its UTF-16 code units ([jsstring]);
      [.length], regular-expression classes and [includes] then behave as in
      the host.  The calendar emoji U+1F4C5 is the surrogate pair D83D DCC5;
      the two check marks U+2713 and U+2705 are single code units.
    - A [Date] holds a time value in milliseconds, or is the Invalid Date.
      Time values are read in local time, and the local zone is taken to have
      a constant offset (no daylight-saving shifts): every local day has
      86,400,000 ms and local time values order like [getTime()].  The
      +-8.64e15 ms clip of the host is not modelled.
    - A host call that may throw returns an [option], [None] standing for
      the exception; [await] is sequencing; mutable state (the notes, the
      task object, the checkbox) is passed in and returned.
*)

From Stdlib Require Import ZArith NArith Lia List Bool Ascii String Decimal DecimalNat.
From stdpp Require Import base option list gmap.

Set Default Proof Using "Type".

(* ================================================================== *)
(** ** JavaScript strings as UTF-16 code units *)
(* ================================================================== *)

Definition jschar := N.
Definition jsstring := list N.

(** An ASCII literal as code units. *)
Definition u16 (s : string) : jsstring :=
  List.map N_of_ascii (list_ascii_of_string s).

Definition calendarEmoji : jsstring := [0xD83D; 0xDCC5]%N.   (* U+1F4C5 *)
Definition checkMark : jschar := 0x2713%N.                   (* U+2713 *)
Definition whiteHeavyCheckMark : jschar := 0x2705%N.         (* U+2705 *)
Definition chSpace : jschar := 32%N.
Definition chNewline : jschar := 10%N.
Definition chLBracket : jschar := 91%N.
Definition chRBracket : jschar := 93%N.
Definition chSlash : jschar := 47%N.
Definition chDot : jschar := 46%N.
Definition chDash : jschar := 45%N.
Definition chStar : jschar := 42%N.
Definition chColon : jschar := 58%N.
Definition chX : jschar := 120%N.                            (* x *)

Definition inRange (lo hi c : N) : bool := ((lo <=? c) && (c <=? hi))%N.

(** The class [\s]: WhiteSpace and LineTerminator code points. *)
Definition isWhiteSpace (c : jschar) : bool :=
  inRange 9 13 c || (c =? 32)%N || (c =? 0xA0)%N || (c =? 0x1680)%N
  || inRange 0x2000 0x200A c || (c =? 0x2028)%N || (c =? 0x2029)%N
  || (c =? 0x202F)%N || (c =? 0x205F)%N || (c =? 0x3000)%N || (c =? 0xFEFF)%N.

(** What [.] refuses (no [s] flag): the four line terminators. *)
Definition isLineTerminator (c : jschar) : bool :=
  (c =? 10)%N || (c =? 13)%N || (c =? 0x2028)%N || (c =? 0x2029)%N.

(** The class [\d]. *)
Definition isDigit (c : jschar) : bool := inRange 48 57 c.

(** The class [[-*]]. *)
Definition isBullet (c : jschar) : bool := (c =? chDash)%N || (c =? chStar)%N.

(** The class [[ xX✓✅]]. *)
Definition isMarker (c : jschar) : bool :=
  (c =? 32)%N || (c =? 120)%N || (c =? 88)%N
  || (c =? checkMark)%N || (c =? whiteHeavyCheckMark)%N.

(** Case folding of the [i] flag (no [u] flag).  Only ASCII letters fold
    onto ASCII letters, and every pattern that carries the flag in main.ts
    is made of ASCII characters and of the two surrogates of the emoji,
    which fold onto themselves. *)
Definition canonicalize (c : jschar) : jschar :=
  if inRange 97 122 c then (c - 32)%N else c.

Definition eqChar (ci : bool) (a b : jschar) : bool :=
  if ci then (canonicalize a =? canonicalize b)%N else (a =? b)%N.

Definition jsstring_eqb (a b : jsstring) : bool :=
  if decide (a = b) then true else false.

(** [s.startsWith(p)], with optional case folding for literal patterns. *)
Fixpoint startsWithBy (ci : bool) (p s : jsstring) : bool :=
  match p, s with
  | [], _ => true
  | _ :: _, [] => false
  | a :: p', b :: s' => eqChar ci a b && startsWithBy ci p' s'
  end.

Definition startsWith (s p : jsstring) : bool := startsWithBy false p s.

(** Does the literal [p] occur somewhere in [s]? *)
Fixpoint occursBy (ci : bool) (p s : jsstring) : bool :=
  startsWithBy ci p s ||
  match s with
  | [] => false
  | _ :: s' => occursBy ci p s'
  end.

(** [s.includes(p)]. *)
Definition includes (s p : jsstring) : bool := occursBy false p s.

(** The longest prefix whose code units satisfy [f], and the rest: a greedy
    [c*] for a class [c]. *)
Fixpoint span (f : jschar -> bool) (s : jsstring) : jsstring * jsstring :=
  match s with
  | c :: s' =>
      if f c then let '(a, b) := span f s' in (c :: a, b) else ([], s)
  | [] => ([], [])
  end.

(** [s.trim()], [s.trimEnd()]. *)
Definition trimStart (s : jsstring) : jsstring := snd (span isWhiteSpace s).
Definition trimEnd (s : jsstring) : jsstring := rev (trimStart (rev s)).
Definition trim (s : jsstring) : jsstring := trimEnd (trimStart s).

(** [s.replace(/^\/+|\/+$/g, '')]: leading and trailing slashes removed. *)
Definition isSlash (c : jschar) : bool := (c =? chSlash)%N.
Definition stripSlashes (s : jsstring) : jsstring :=
  rev (snd (span isSlash (rev (snd (span isSlash s))))).

(** [s.split('\n')]: never empty, no piece holds a newline. *)
Fixpoint splitLines (s : jsstring) : list jsstring :=
  match s with
  | [] => [[]]
  | c :: s' =>
      if (c =? chNewline)%N then [] :: splitLines s'
      else match splitLines s' with
           | l :: ls => (c :: l) :: ls
           | [] => [[c]]
           end
  end.

(** [lines.join('\n')]. *)
Fixpoint joinLines (ls : list jsstring) : jsstring :=
  match ls with
  | [] => []
  | [l] => l
  | l :: ls' => l ++ chNewline :: joinLines ls'
  end.

(** Decimal digits of a natural number, as [String(n)] prints an integer. *)
Fixpoint uintUnits (d : Decimal.uint) : jsstring :=
  match d with
  | Nil => []
  | D0 d => 48%N :: uintUnits d
  | D1 d => 49%N :: uintUnits d
  | D2 d => 50%N :: uintUnits d
  | D3 d => 51%N :: uintUnits d
  | D4 d => 52%N :: uintUnits d
  | D5 d => 53%N :: uintUnits d
  | D6 d => 54%N :: uintUnits d
  | D7 d => 55%N :: uintUnits d
  | D8 d => 56%N :: uintUnits d
  | D9 d => 57%N :: uintUnits d
  end.

Definition natToString (n : nat) : jsstring := uintUnits (Nat.to_uint n).

Definition intToString (z : Z) : jsstring :=
  if (z <? 0)%Z then chDash :: natToString (Z.to_nat (- z))
  else natToString (Z.to_nat z).

(** [s.padStart(2, '0')]. *)
Definition padStart2 (s : jsstring) : jsstring :=
  match s with
  | [] => [48; 48]%N
  | [c] => [48%N; c]
  | _ => s
  end.

(** The value of a run of decimal digits ([Number] on a digit string). *)
Definition digitsValue (s : jsstring) : Z :=
  fold_left (fun acc c => (10 * acc + (Z.of_N c - 48))%Z) s 0%Z.

(* ================================================================== *)
(** ** The host's Date (ECMAScript time values and their calendar) *)
(* ================================================================== *)

Module JsDate.
Local Open Scope Z_scope.

Definition msPerDay : Z := 86400000.
Definition msPerHour : Z := 3600000.
Definition msPerMinute : Z := 60000.
Definition msPerSecond : Z := 1000.

Definition Day (t : Z) : Z := t / msPerDay.
Definition TimeWithinDay (t : Z) : Z := t mod msPerDay.

Definition isLeapYear (y : Z) : bool :=
  (y mod 4 =? 0) && (negb (y mod 100 =? 0) || (y mod 400 =? 0)).

Definition DaysInYear (y : Z) : Z := if isLeapYear y then 366 else 365.

(** Day number of the first of January of year [y] (day 0 is 1970-01-01). *)
Definition DayFromYear (y : Z) : Z :=
  365 * (y - 1970) + (y - 1969) / 4 - (y - 1901) / 100 + (y - 1601) / 400.

(** The year a day falls in: the largest [y] with [DayFromYear y <= d],
    found from the mean year length and one correction step. *)
Definition YearFromDay (d : Z) : Z :=
  let y := 1970 + (400 * d) / 146097 in
  if d <? DayFromYear y then y - 1
  else if DayFromYear (y + 1) <=? d then y + 1
  else y.

Definition YearFromTime (t : Z) : Z := YearFromDay (Day t).
Definition InLeapYear (t : Z) : Z := if isLeapYear (YearFromTime t) then 1 else 0.
Definition DayWithinYear (t : Z) : Z := Day t - DayFromYear (YearFromTime t).

(** Day within the year on which month [m] (0..11) starts. *)
Definition monthStart (m leap : Z) : Z :=
  match m with
  | 0 => 0
  | 1 => 31
  | 2 => 59 + leap
  | 3 => 90 + leap
  | 4 => 120 + leap
  | 5 => 151 + leap
  | 6 => 181 + leap
  | 7 => 212 + leap
  | 8 => 243 + leap
  | 9 => 273 + leap
  | 10 => 304 + leap
  | _ => 334 + leap
  end.

Definition monthOfDayWithinYear (d leap : Z) : Z :=
  if d <? 31 then 0
  else if d <? 59 + leap then 1
  else if d <? 90 + leap then 2
  else if d <? 120 + leap then 3
  else if d <? 151 + leap then 4
  else if d <? 181 + leap then 5
  else if d <? 212 + leap then 6
  else if d <? 243 + leap then 7
  else if d <? 273 + leap then 8
  else if d <? 304 + leap then 9
  else if d <? 334 + leap then 10
  else 11.

Definition MonthFromTime (t : Z) : Z :=
  monthOfDayWithinYear (DayWithinYear t) (InLeapYear t).

Definition DateFromTime (t : Z) : Z :=
  DayWithinYear t - monthStart (MonthFromTime t) (InLeapYear t) + 1.

(** 0 is Sunday; day 0 was a Thursday. *)
Definition WeekDay (t : Z) : Z := (Day t + 4) mod 7.

Definition HourFromTime (t : Z) : Z := (t / msPerHour) mod 24.
Definition MinFromTime (t : Z) : Z := (t / msPerMinute) mod 60.
Definition SecFromTime (t : Z) : Z := (t / msPerSecond) mod 60.
Definition msFromTime (t : Z) : Z := t mod msPerSecond.

(** [MakeDay(year, month, date)]: months outside 0..11 carry into the year,
    dates outside the month carry into the neighbouring months. *)
Definition MakeDay (year month date : Z) : Z :=
  let ym := year + month / 12 in
  let mn := month mod 12 in
  DayFromYear ym + monthStart mn (if isLeapYear ym then 1 else 0) + date - 1.

(** A Date object: a time value, or the Invalid Date (time value NaN). *)
Inductive JSDate : Type :=
  | DateValue (t : Z)
  | InvalidDate.

#[global] Instance JSDate_eq_dec : EqDecision JSDate.
Proof. solve_decision. Defined.

(** [isNaN(d.getTime())]. *)
Definition isInvalid (d : JSDate) : bool :=
  match d with DateValue _ => false | InvalidDate => true end.

(** [new Date(year, month, date)] in local time, and its time value.  A
    year from 0 to 99 stands for 1900 + year, as the constructor has it. *)
Definition ymdTime (year month date : Z) : Z :=
  let yr := if (0 <=? year) && (year <=? 99) then 1900 + year else year in
  MakeDay yr month date * msPerDay.

Definition Date_ymd (year month date : Z) : JSDate := DateValue (ymdTime year month date).

(** [d.setHours(0, 0, 0, 0)]. *)
Definition setHours0 (d : JSDate) : JSDate :=
  match d with
  | DateValue t => DateValue (Day t * msPerDay)
  | InvalidDate => InvalidDate
  end.

Definition getFullYear (t : Z) : Z := YearFromTime t.
Definition getMonth (t : Z) : Z := MonthFromTime t.
Definition getDate (t : Z) : Z := DateFromTime t.
Definition getDay (t : Z) : Z := WeekDay t.

(** [d.setDate(n)] on a valid date: day [n] of the month [d] is in, the time
    of day kept. *)
Definition setDate (t n : Z) : Z :=
  MakeDay (YearFromTime t) (MonthFromTime t) n * msPerDay + TimeWithinDay t.

(** Comparisons of time values; any comparison with NaN is false. *)
Definition timeLt (a b : JSDate) : bool :=
  match a, b with
  | DateValue x, DateValue y => x <? y
  | _, _ => false
  end.

Definition timeGe (a b : JSDate) : bool :=
  match a, b with
  | DateValue x, DateValue y => y <=? x
  | _, _ => false
  end.

Definition timeEq (a b : JSDate) : bool :=
  match a, b with
  | DateValue x, DateValue y => x =? y
  | _, _ => false
  end.

(** [d.toDateString()]: the text prints the week day, the month, the day of
    the month and the year, or reads "Invalid Date".  Two such texts are
    equal exactly when these fields are, so the fields stand for the text. *)
Inductive DateString : Type :=
  | DayString (weekday month date year : Z)
  | InvalidDateString.

#[global] Instance DateString_eq_dec : EqDecision DateString.
Proof. solve_decision. Defined.

Definition toDateString (d : JSDate) : DateString :=
  match d with
  | DateValue t => DayString (WeekDay t) (MonthFromTime t) (DateFromTime t) (YearFromTime t)
  | InvalidDate => InvalidDateString
  end.

End JsDate.
Export JsDate.

(** What the embedding takes from the host and from moment.js as given. *)
Class HostEnv : Type := {
  (** [new Date(text)]: the host's parser of date texts. *)
  Date_parse : jsstring -> JSDate;
  (** [moment(name, format, true)]: the Date of a strict parse, the Invalid
      Date when [isValid()] is false. *)
  moment_strict : jsstring -> jsstring -> JSDate
}.

(* ================================================================== *)
(** ** Data model (src/types.ts) and the note store *)
(* ================================================================== *)

(** A [TFile] handle: what the core reads of it. *)
Record TFile : Type := mkTFile {
  path : jsstring;
  basename : jsstring
}.

#[global] Instance TFile_eq_dec : EqDecision TFile.
Proof. solve_decision. Defined.

Record Task : Type := mkTask {
  text : jsstring;
  date : option JSDate;          (* Date | null *)
  file : TFile;
  line : nat;
  isCompleted : bool
}.

#[global] Instance Task_eq_dec : EqDecision Task.
Proof. solve_decision. Defined.

(** The settings the modelled code reads. *)
Record CreateTaskButtonSettings : Type := mkSettings {
  tasksFolderPath : jsstring;
  createTaskFolderPath : jsstring;
  calendarFolderPath : jsstring;
  filenameFormat : jsstring;
  showCompletedTasks : bool
}.

(** The vault: the notes it lists, their text by path, and the paths whose
    write the host refuses (a failing [modify] throws and writes nothing).
    A host call that throws is [None]. *)
Record Vault : Type := mkVault {
  vaultFiles : list TFile;
  vaultText : gmap jsstring jsstring;
  vaultRefused : gset jsstring
}.

Definition vault_read (v : Vault) (f : TFile) : option jsstring :=
  vaultText v !! path f.

Definition vault_modify (v : Vault) (f : TFile) (data : jsstring) : option Vault :=
  match vaultText v !! path f with
  | Some _ =>
      if decide (path f ∈ vaultRefused v) then None
      else Some (mkVault (vaultFiles v) (<[path f := data]> (vaultText v)) (vaultRefused v))
  | None => None
  end.

(** [vault.getAbstractFileByPath(p)] followed by [instanceof TFile]. *)
Definition getAbstractFileByPath (v : Vault) (p : jsstring) : option TFile :=
  List.find (fun f => jsstring_eqb (path f) p) (vaultFiles v).

(** JavaScript [||] on strings: the left one unless it is empty. *)
Definition orElse (a b : jsstring) : jsstring :=
  match a with [] => b | _ => a end.

(* ================================================================== *)
(** ** The checklist line patterns *)
(* ================================================================== *)

(** Patterns are quoted with their capture groups written [<...>].
    [^<[\s\t]*>[-*]\s+\[<[ xX✓✅]>\]], anchored at the start of the line:
    the indent, the bullet, the marker and what follows the bracket.  No
    bullet is white space and no white space is a bracket, so each greedy
    run has one way to match. *)
Definition matchTaskHead (ln : jsstring) : option (jsstring * jschar * jschar * jsstring) :=
  let '(indent, r1) := span isWhiteSpace ln in
  match r1 with
  | b :: r2 =>
      if isBullet b then
        let '(sp, r3) := span isWhiteSpace r2 in
        match sp, r3 with
        | _ :: _, lb :: m :: rb :: r4 =>
            if (lb =? chLBracket)%N && isMarker m && (rb =? chRBracket)%N
            then Some (indent, b, m, r4) else None
        | _, _ => None
        end
      else None
  | [] => None
  end.

Definition notLineTerminator (c : jschar) : bool := negb (isLineTerminator c).

(** [\s+<.+>$] on the rest of a line: the white-space run takes [k] code
    units, then fewer, until what is left is a non-empty run without line
    terminator that reaches the end of the text. *)
Fixpoint matchTailFrom (k : nat) (s : jsstring) : option jsstring :=
  match k with
  | O => None
  | S k' =>
      let rest := drop k s in
      if negb (bool_decide (rest = [])) && forallb notLineTerminator rest
      then Some rest
      else matchTailFrom k' s
  end.

Definition matchTail (s : jsstring) : option jsstring :=
  matchTailFrom (length (fst (span isWhiteSpace s))) s.

(** [/^<[\s\t]*>[-*]\s+\[<[ xX✓✅]>\]\s+<.+>$/] (raw-text scan): indent,
    marker, text. *)
Definition matchTaskLine (ln : jsstring) : option (jsstring * jschar * jsstring) :=
  match matchTaskHead ln with
  | Some (indent, _, m, r) =>
      match matchTail r with
      | Some txt => Some (indent, m, txt)
      | None => None
      end
  | None => None
  end.

(** [/^<[\s\t]*[-*]>\s+\[<[ xX✓✅]>\]\s+<.+>$/] (direct toggle): the first
    group takes the bullet too. *)
Definition matchToggleLine (ln : jsstring) : option (jsstring * jschar * jsstring) :=
  match matchTaskHead ln with
  | Some (indent, b, m, r) =>
      match matchTail r with
      | Some txt => Some (indent ++ [b], m, txt)
      | None => None
      end
  | None => None
  end.

(** [status !== ' ' && status !== ''] on a captured marker (one code unit,
    never the empty string). *)
Definition markerCompleted (m : jschar) : bool := negb (m =? chSpace)%N.

(* ================================================================== *)
(** ** Completion toggle: direct text substitution *)
(* ================================================================== *)

Definition setCompleted (t : Task) (b : bool) : Task :=
  mkTask (text t) (date t) (file t) (line t) b.

(** [(currentStatus !== ' ' && currentStatus !== '') ? ' ' : 'x']. *)
Definition newStatusOf (currentStatus : jschar) : jschar :=
  if markerCompleted currentStatus then chSpace else chX.

(** The template [`${indent} [${newStatus}] ${taskText}`]. *)
Definition checklistLine (indent : jsstring) (status : jschar) (taskText : jsstring) : jsstring :=
  indent ++ u16 " [" ++ [status] ++ u16 "] " ++ taskText.

(** The store and the task object after a call, and the boolean returned. *)
Record ToggleResult : Type := mkToggleResult {
  trVault : Vault;
  trTask : Task;
  trSuccess : bool
}.

(** [TaskCalendarView.toggleTaskCompletionDirect].  Every [None] of a host
    call is the [catch] branch. *)
Definition toggleTaskCompletionDirect (v : Vault) (task : Task) : ToggleResult :=
  match vault_read v (file task) with
  | None => mkToggleResult v task false
  | Some content =>
      let lines := splitLines content in
      if bool_decide (length lines <= line task) then mkToggleResult v task false
      else
        match lines !! line task with
        | None => mkToggleResult v task false
        | Some ln =>
            match matchToggleLine ln with
            | None => mkToggleResult v task false
            | Some (indent, currentStatus, taskText) =>
                let newStatus := newStatusOf currentStatus in
                let lines' := <[line task := checklistLine indent newStatus taskText]> lines in
                match vault_modify v (file task) (joinLines lines') with
                | None => mkToggleResult v task false
                | Some v' =>
                    mkToggleResult v' (setCompleted task (negb (newStatus =? chSpace)%N)) true
                end
            end
        end
  end.

(** The checkbox of the day popup and its [change] handler
    ([TasksForDateModal.attachCheckboxHandlers]).  The browser flips the box
    before the handler runs. *)
Record CheckboxOutcome : Type := mkCheckboxOutcome {
  coVault : Vault;
  coTask : Task;
  coChecked : bool;
  coReloaded : bool
}.

Definition browserClick (checked : bool) : bool := negb checked.

Definition onCheckboxChange (toggle : Vault -> Task -> ToggleResult)
    (v : Vault) (task : Task) (checkedAtEvent : bool) : CheckboxOutcome :=
  let wasChecked := checkedAtEvent in
  let heldAt := isCompleted task in        (* checked = task.isCompleted, while awaiting *)
  let r := toggle v task in
  let checked := if trSuccess r then isCompleted (trTask r) else negb wasChecked in
  mkCheckboxOutcome (trVault r) (trTask r) checked (trSuccess r).

(* ================================================================== *)
(** ** Derived queries of the calendar view *)
(* ================================================================== *)

(** [const today = new Date(); today.setHours(0, 0, 0, 0)], with [now] the
    time value of [new Date()]. *)
Definition todayOf (now : Z) : JSDate := setHours0 (DateValue now).

(** [TaskCalendarView.getTasksForDate]. *)
Definition getTasksForDate (tasks : list Task) (now : Z) (d : JSDate) : list Task :=
  let dateStr := toDateString d in
  let today := todayOf now in
  let checkDate := setHours0 d in
  let isPastDate := timeLt checkDate today in
  List.filter (fun task =>
    match date task with
    | None => false
    | Some td =>
        if negb (bool_decide (toDateString td = dateStr)) then false
        else if isPastDate && negb (isCompleted task) then false
        else true
    end) tasks.

(** [TaskCalendarView.getOverdueTasks]. *)
Definition getOverdueTasks (tasks : list Task) (now : Z) : list Task :=
  let today := todayOf now in
  List.filter (fun task =>
    match date task with
    | None => false
    | Some td => if timeGe td today then false else negb (isCompleted task)
    end) tasks.

(** The comparator of the cell sort: incomplete first. *)
Definition compareCompletion (a b : Task) : Z :=
  if Bool.eqb (isCompleted a) (isCompleted b) then 0%Z
  else if isCompleted a then 1%Z else (-1)%Z.

(** [Array.prototype.sort] with a comparator: a stable sort. *)
Fixpoint insertSorted {A} (cmp : A -> A -> Z) (x : A) (l : list A) : list A :=
  match l with
  | [] => [x]
  | y :: l' => if (cmp x y <=? 0)%Z then x :: l else y :: insertSorted cmp x l'
  end.

Fixpoint stableSort {A} (cmp : A -> A -> Z) (l : list A) : list A :=
  match l with
  | [] => []
  | x :: l' => insertSorted cmp x (stableSort cmp l')
  end.

(* ================================================================== *)
(** ** The month grid ([TaskCalendarView.renderCalendar]) *)
(* ================================================================== *)

Definition firstDayOfMonth (year month : Z) : Z := ymdTime year month 1.

Definition daysToSubtract (firstDay : Z) : Z :=
  let firstDayOfWeek := getDay firstDay in
  if (firstDayOfWeek =? 0)%Z then 6%Z else (firstDayOfWeek - 1)%Z.

(** [startDate], after [startDate.setDate(startDate.getDate() - daysToSubtract)]. *)
Definition gridStartDate (year month : Z) : Z :=
  let firstDay := firstDayOfMonth year month in
  let startDate := firstDay in
  setDate startDate (getDate startDate - daysToSubtract firstDay).

(** [cellDate] of the [i]-th turn of the loop. *)
Definition cellDateAt (startDate : Z) (i : nat) : Z :=
  let cellDate := startDate in
  setDate cellDate (getDate startDate + Z.of_nat i).

Definition maxTasks : nat := 4.

(** What one turn of the loop puts in a day cell. *)
Record DayCell : Type := mkDayCell {
  cellDate : Z;
  cellOtherMonth : bool;         (* class task-calendar-cell-other-month *)
  cellToday : bool;              (* class task-calendar-cell-today *)
  cellDayTasks : list Task;      (* dayTasks after lines 1527-1533 *)
  cellSortedTasks : list Task;   (* sortedDayTasks, handed to the popup *)
  cellCountBadge : option nat;   (* the span task-calendar-day-task-count *)
  cellShown : list Task;         (* the task-calendar-task elements *)
  cellClickable : bool
}.

(** [dayTasks] as lines 1527-1533 leave it. *)
Definition cellTasks (tasks : list Task) (now : Z) (cd : Z) : list Task :=
  let dayTasks := getTasksForDate tasks now (DateValue cd) in
  if timeEq (DateValue cd) (todayOf now)
  then getOverdueTasks tasks now ++ dayTasks
  else dayTasks.

Definition renderCell (tasks : list Task) (showCompleted : bool) (now : Z)
    (month : Z) (cd : Z) : DayCell :=
  let dayTasks := cellTasks tasks now cd in
  let visible :=
    if negb showCompleted then List.filter (fun task => negb (isCompleted task)) dayTasks
    else dayTasks in
  let sortedDayTasks := stableSort compareCompletion visible in
  mkDayCell cd
    (negb (getMonth cd =? month)%Z)
    (timeEq (DateValue cd) (todayOf now))
    dayTasks
    sortedDayTasks
    (if bool_decide (0 < length sortedDayTasks) then Some (length sortedDayTasks) else None)
    (take maxTasks sortedDayTasks)
    (bool_decide (0 < length sortedDayTasks)).

(** The grid of the loop [for (let i = 0; i < 42; i++)]. *)
Definition renderGrid (tasks : list Task) (showCompleted : bool) (now : Z)
    (currentDate : Z) : list DayCell :=
  let year := getFullYear currentDate in
  let month := getMonth currentDate in
  let startDate := gridStartDate year month in
  List.map (fun i => renderCell tasks showCompleted now month (cellDateAt startDate i))
           (seq 0 42).

(** The calendar area: the "no tasks" message, or the grid. *)
Inductive CalendarArea : Type :=
  | EmptyMessage
  | Grid (cells : list DayCell).

Definition renderCalendar (tasks : list Task) (showCompleted : bool) (now : Z)
    (currentDate : Z) : CalendarArea :=
  if bool_decide (length tasks = 0) then EmptyMessage
  else Grid (renderGrid tasks showCompleted now currentDate).

(* ================================================================== *)
(** ** Task aggregator (the tail of [TaskCalendarView.loadTasks]) *)
(* ================================================================== *)

Definition hasCalendarMarker (task : Task) : bool := includes (text task) calendarEmoji.

(** The key [`${task.file.path}:${task.line}`]. *)
Definition taskKey (task : Task) : jsstring :=
  path (file task) ++ chColon :: natToString (line task).

(** A [Map<string, Task>] keeps its entries in insertion order. *)
Definition TaskMap := list (jsstring * Task).

Definition mapHas (m : TaskMap) (k : jsstring) : bool :=
  existsb (fun e => jsstring_eqb (fst e) k) m.

Fixpoint mapSet (m : TaskMap) (k : jsstring) (t : Task) : TaskMap :=
  match m with
  | [] => [(k, t)]
  | e :: m' => if jsstring_eqb (fst e) k then (k, t) :: m' else e :: mapSet m' k t
  end.

Definition mapValues (m : TaskMap) : list Task := List.map snd m.

Definition dedupeStep (taskMap : TaskMap) (task : Task) : TaskMap :=
  let key := taskKey task in
  if negb (mapHas taskMap key) then mapSet taskMap key task else taskMap.

(** The filter on the calendar emoji, then the deduplication. *)
Definition aggregate (rawTasks : list Task) : list Task :=
  let tasks := List.filter hasCalendarMarker rawTasks in
  mapValues (fold_left dedupeStep tasks []).

(** For the statements: the entries of [l] under key [k], and the first of
    them as a list. *)
Definition withKey (k : jsstring) (l : list Task) : list Task :=
  List.filter (fun t => jsstring_eqb (taskKey t) k) l.

Definition firstWithKey (k : jsstring) (l : list Task) : list Task :=
  match List.find (fun t => jsstring_eqb (taskKey t) k) l with
  | Some t => [t]
  | None => []
  end.

(* ================================================================== *)
(** ** Date tokens in task text ([extractDateFromText]) *)
(* ================================================================== *)

(** The leftmost position of [s] at which the anchored matcher [f] succeeds:
    how [text.match(pattern)] scans for an unanchored pattern. *)
Fixpoint searchFirst {A} (f : jsstring -> option A) (s : jsstring) : option A :=
  match f s with
  | Some a => Some a
  | None =>
      match s with
      | [] => None
      | _ :: s' => searchFirst f s'
      end
  end.

(** [\d{n}] at the head of [s]: the digits and the rest. *)
Definition takeDigits (n : nat) (s : jsstring) : option (jsstring * jsstring) :=
  let d := take n s in
  if bool_decide (length d = n) && forallb isDigit d then Some (d, drop n s) else None.

(** One literal code unit at the head of [s]. *)
Definition takeChar (c : jschar) (s : jsstring) : option jsstring :=
  match s with
  | x :: s' => if (x =? c)%N then Some s' else None
  | [] => None
  end.

(** [\d{4}-\d{2}-\d{2}] at the head of [s]: the ten code units matched. *)
Definition matchIsoDateAt (s : jsstring) : option jsstring :=
  match takeDigits 4 s with
  | Some (_, r1) =>
      match takeChar chDash r1 with
      | Some r2 =>
          match takeDigits 2 r2 with
          | Some (_, r3) =>
              match takeChar chDash r3 with
              | Some r4 =>
                  match takeDigits 2 r4 with
                  | Some _ => Some (take 10 s)
                  | None => None
                  end
              | None => None
              end
          | None => None
          end
      | None => None
      end
  | None => None
  end.

(** The alternatives of the keyword group, in the order of the pattern. *)
Definition dateKeywords : list jsstring :=
  [ calendarEmoji; u16 "due::"; u16 "due:"; u16 "start::"; u16 "start:";
    u16 "scheduled::"; u16 "scheduled:" ].

(** The first element of [l] on which [f] succeeds: alternatives and
    shrinking quantifiers are tried in order. *)
Fixpoint firstSome {A B} (f : A -> option B) (l : list A) : option B :=
  match l with
  | [] => None
  | a :: l' => match f a with Some b => Some b | None => firstSome f l' end
  end.

(** [(?:📅|due::|due:|start::|start:|scheduled::|scheduled:)\s*<\d{4}-\d{2}-\d{2}>]
    with flag [i], at the head of [s]: group 1. *)
Definition matchKeywordDateAt (s : jsstring) : option jsstring :=
  firstSome (fun kw =>
    if startsWithBy true kw s
    then matchIsoDateAt (snd (span isWhiteSpace (drop (length kw) s)))
    else None) dateKeywords.

(** [<\d{1,2}SEP\d{1,2}SEP\d{4}>] at the head of [s], for a separator [/] or
    [.]: each [\d{1,2}] tries two digits, then one. *)
Definition matchDayMonthYearAt (sep : jschar) (s : jsstring) : option jsstring :=
  firstSome (fun n1 =>
    match takeDigits n1 s with
    | Some (_, r1) =>
        match takeChar sep r1 with
        | Some r2 =>
            firstSome (fun n2 =>
              match takeDigits n2 r2 with
              | Some (_, r3) =>
                  match takeChar sep r3 with
                  | Some r4 =>
                      match takeDigits 4 r4 with
                      | Some _ => Some (take (n1 + 1 + n2 + 1 + 4) s)
                      | None => None
                      end
                  | None => None
                  end
              | None => None
              end) [2; 1]
        | None => None
        end
    | None => None
    end) [2; 1].

(** The four patterns of [extractDateFromText], each as the anchored matcher
    of its group 1. *)
Definition datePatterns : list (jsstring -> option jsstring) :=
  [ matchKeywordDateAt; matchIsoDateAt;
    matchDayMonthYearAt chSlash; matchDayMonthYearAt chDot ].

Section WithHost.
Context `{HostEnv}.

(** [extractDateFromText] (the plugin and the view carry the same copy):
    for each pattern its leftmost match is parsed, and the first pattern
    whose match parses to a valid Date decides. *)
Definition extractDateFromText (txt : jsstring) : option JSDate :=
  firstSome (fun pattern =>
    match searchFirst pattern txt with
    | Some dateStr =>
        let d := Date_parse dateStr in
        if negb (isInvalid d) then Some (setHours0 d) else None
    | None => None
    end) datePatterns.

(* ================================================================== *)
(** ** Task creation: the date of the new line ([insertTask]) *)
(* ================================================================== *)

(** [`${year}-${month}-${day}`] of a valid date. *)
Definition formatDateStr (t : Z) : jsstring :=
  intToString (getFullYear t) ++ chDash ::
  padStart2 (intToString (getMonth t + 1)%Z) ++ chDash ::
  padStart2 (intToString (getDate t)).

(** The alternatives of [/due::|due:|start::|start:|scheduled::|scheduled:|📅/i]. *)
Definition hasDateMarkers : list jsstring :=
  [ u16 "due::"; u16 "due:"; u16 "start::"; u16 "start:";
    u16 "scheduled::"; u16 "scheduled:"; calendarEmoji ].

(** [hasDate]: does the pattern of line 160 match somewhere? *)
Definition hasDate (taskLine : jsstring) : bool :=
  existsb (fun kw => occursBy true kw taskLine) hasDateMarkers.

(** [finalTaskLine] (lines 151-164); [dt] is the time value of the optional
    [date] argument, a valid Date. *)
Definition finalTaskLineOf (dt : option Z) (taskLine : jsstring) : jsstring :=
  match dt with
  | Some t =>
      if negb (hasDate taskLine)
      then trim taskLine ++ u16 " due::" ++ formatDateStr t
      else taskLine
  | None => taskLine
  end.

(** [targetDate] (lines 166-175). *)
Definition targetDateOf (dt : option Z) (now : Z) (finalTaskLine : jsstring) : JSDate :=
  let targetDate : option JSDate := DateValue <$> dt in
  let targetDate :=
    match extractDateFromText finalTaskLine with
    | Some extractedDate => Some extractedDate
    | None => targetDate
    end in
  match targetDate with
  | Some d => d
  | None => DateValue now
  end.

End WithHost.

(* ================================================================== *)
(** ** The optional task-index service, as the core reads it *)
(* ================================================================== *)

(** An operation of the service or of the host that acts on the notes out of
    the core's sight: it returns, or throws, and leaves a store behind. *)
Inductive ExtResult : Type :=
  | ExtDone (v : Vault)
  | ExtThrew (v : Vault).

Definition ExtEffect : Type := Vault -> ExtResult.

(** One entry of the service's listing, each field being the first truthy
    one of the property names the core tries. *)
Record ApiTask : Type := mkApiTask {
  apiPath : jsstring;              (* path || file?.path || filePath || '' *)
  apiDue : option JSDate;          (* new Date(dueDate || due || dueDateString) *)
  apiStart : option JSDate;        (* new Date(startDate || start || startDateString) *)
  apiScheduled : option JSDate;    (* new Date(scheduledDate || scheduled || ...) *)
  apiText : jsstring;              (* description || originalMarkdown || text || content || '' *)
  apiLine : nat;                   (* lineNumber || line || 0 *)
  apiStatus : jsstring;            (* status || completion || '' *)
  apiToggle : option ExtEffect;    (* toggle(), when it is a function *)
  apiToggleDone : option ExtEffect;
  apiSetCompletionStatus : option (bool -> ExtEffect)
}.

Record TasksApi : Type := mkTasksApi {
  (** [getTasks()], else [getAllTasks()], else the array [cache]; [None]
      when none of them is there. *)
  apiListing : option (list ApiTask);
  (** [executeToggleTaskDoneCommand(line, path)]; the call gives [None]
      when it throws. *)
  apiExecuteToggleTaskDoneCommand : option (jsstring -> jsstring -> option jsstring);
  apiToggleTask : option (ApiTask -> ExtEffect)
}.

(** The workspace calls of [toggleTaskViaCommand]. *)
Record Workspace : Type := mkWorkspace {
  wsOpenFile : TFile -> bool;                 (* false: openFile throws *)
  wsIsMarkdownView : bool;                    (* view instanceof MarkdownView *)
  wsExecuteCommandById : jsstring -> ExtEffect
}.

(* ================================================================== *)
(** ** Task source adapter: raw-text scan and index-backed lookup *)
(* ================================================================== *)

(** The nested lines that follow a task line: blank lines are kept, a line
    indented deeper than the task is kept, the first other line stops the
    scan. *)
Fixpoint collectNested (taskIndentLength : nat) (following : list jsstring) : list jsstring :=
  match following with
  | [] => []
  | nextLine :: rest =>
      if bool_decide (trim nextLine = []) then nextLine :: collectNested taskIndentLength rest
      else if bool_decide (taskIndentLength < length (fst (span isWhiteSpace nextLine)))
      then nextLine :: collectNested taskIndentLength rest
      else []
  end.

(** [/^\d{4}-\d{2}$/] on a file name, then [split('-').map(Number)]. *)
Definition legacyMonthName (fileName : jsstring) : option (Z * Z) :=
  match takeDigits 4 fileName with
  | Some (y, r1) =>
      match takeChar chDash r1 with
      | Some r2 =>
          match takeDigits 2 r2 with
          | Some (m, []) => Some (digitsValue y, digitsValue m)
          | _ => None
          end
      | None => None
      end
  | None => None
  end.

(** The scan scope: [(calendarFolderPath || tasksFolderPath || '').trim()]
    without its leading and trailing slashes. *)
Definition normalizedFolderPathOf (s : CreateTaskButtonSettings) : jsstring :=
  let folderPath := trim (orElse (calendarFolderPath s) (orElse (tasksFolderPath s) [])) in
  match folderPath with
  | [] => []
  | _ => stripSlashes folderPath
  end.

Definition inScanScope (normalizedFolderPath : jsstring) (f : TFile) : bool :=
  match normalizedFolderPath with
  | [] => true
  | _ => startsWith (stripSlashes (path f)) normalizedFolderPath
  end.

Section Adapter.
Context `{HostEnv}.

(** The date a file name stands for: the configured format, else the legacy
    YYYY-MM shape, else today. *)
Definition fileNameDate (s : CreateTaskButtonSettings) (now : Z) (f : TFile) : JSDate :=
  let fileName := basename f in
  let format := orElse (filenameFormat s) (u16 "YYYY-MM") in
  let parsedDate := moment_strict fileName format in
  if negb (isInvalid parsedDate) then parsedDate
  else
    match legacyMonthName fileName with
    | Some (year, month) => Date_ymd year (month - 1) 1
    | None => todayOf now
    end.

(** [!taskDate || isNaN(taskDate.getTime())]. *)
Definition missingOrInvalid (d : option JSDate) : bool :=
  match d with
  | Some x => isInvalid x
  | None => true
  end.

(** "Ensure date is valid", then "Normalize date to start of day". *)
Definition ensureValidStartOfDay (now : Z) (d : option JSDate) : JSDate :=
  let taskDate :=
    match d with
    | Some x => if isInvalid x then todayOf now else x
    | None => todayOf now
    end in
  setHours0 taskDate.

(** The body of the loop over the lines of one note ([loadTasksManually]). *)
Definition scanLine (s : CreateTaskButtonSettings) (now : Z) (f : TFile)
    (i : nat) (ln : jsstring) (following : list jsstring) : option Task :=
  match matchTaskLine ln with
  | Some (taskIndent, marker, taskText) =>
      let completed := markerCompleted marker in
      if negb (includes taskText calendarEmoji) then None
      else
        let nestedLines := collectNested (length taskIndent) following in
        let fullTaskText :=
          taskText ++ match nestedLines with
                      | [] => []
                      | _ => chNewline :: joinLines nestedLines
                      end in
        let taskDate := extractDateFromText fullTaskText in
        let taskDate :=
          match taskDate with
          | Some d => Some d
          | None => Some (fileNameDate s now f)
          end in
        Some (mkTask fullTaskText (Some (ensureValidStartOfDay now taskDate)) f i completed)
  | None => None
  end.

Fixpoint scanLines (s : CreateTaskButtonSettings) (now : Z) (f : TFile)
    (i : nat) (lines : list jsstring) : list Task :=
  match lines with
  | [] => []
  | ln :: rest =>
      match scanLine s now f i ln rest with
      | Some t => t :: scanLines s now f (S i) rest
      | None => scanLines s now f (S i) rest
      end
  end.

(** [loadTasksManually]: the tasks it pushes, in order.  A note whose read
    throws is skipped. *)
Definition loadTasksManually (v : Vault) (s : CreateTaskButtonSettings) (now : Z) : list Task :=
  let normalizedFolderPath := normalizedFolderPathOf s in
  flat_map (fun f =>
    if inScanScope normalizedFolderPath f then
      match vault_read v f with
      | Some content => scanLines s now f 0 (splitLines content)
      | None => []
      end
    else []) (vaultFiles v).

(** The text of an index entry with the nested lines of its note. *)
Definition apiTaskText (v : Vault) (f : TFile) (task : ApiTask) : jsstring :=
  let taskText := apiText task in
  let taskLineNumber := apiLine task in
  match vault_read v f with
  | Some fileContent =>
      let lines := splitLines fileContent in
      if bool_decide (taskLineNumber < length lines) then
        match lines !! taskLineNumber with
        | Some taskLine =>
            match matchTaskHead taskLine with
            | Some (taskIndent, _, _, _) =>
                match collectNested (length taskIndent) (drop (S taskLineNumber) lines) with
                | [] => taskText
                | nestedLines =>
                    match matchTaskLine taskLine with
                    | Some (_, _, txt) => txt ++ chNewline :: joinLines nestedLines
                    | None => taskText
                    end
                end
            | None => taskText
            end
        | None => taskText
        end
      else taskText
  | None => taskText
  end.

(** The body of the loop over the listing ([loadTasksFromAPI]); [None] is a
    [continue]. *)
Definition apiTaskToTask (v : Vault) (s : CreateTaskButtonSettings) (now : Z)
    (task : ApiTask) : option Task :=
  let taskPath := apiPath task in
  match taskPath with
  | [] => None
  | _ =>
      match getAbstractFileByPath v taskPath with
      | None => None
      | Some f =>
          if negb (inScanScope (normalizedFolderPathOf s) f) then None
          else
            let taskDate : option JSDate :=
              match apiDue task, apiStart task, apiScheduled task with
              | Some d, _, _ => Some d
              | None, Some d, _ => Some d
              | None, None, Some d => Some d
              | None, None, None => None
              end in
            let taskDate :=
              if missingOrInvalid taskDate then extractDateFromText (apiText task)
              else taskDate in
            let taskDate :=
              if missingOrInvalid taskDate then Some (fileNameDate s now f)
              else taskDate in
            let taskDate := ensureValidStartOfDay now taskDate in
            let taskText := apiTaskText v f task in
            if negb (includes taskText calendarEmoji) then None
            else
              let taskStatus := apiStatus task in
              let completed :=
                negb (jsstring_eqb taskStatus (u16 " "))
                && negb (jsstring_eqb taskStatus [])
                && negb (jsstring_eqb taskStatus (u16 "todo")) in
              Some (mkTask taskText (Some taskDate) f (apiLine task) completed)
      end
  end.

(** [loadTasksFromAPI]: an unrecognized service falls back to the scan. *)
Definition loadTasksFromAPI (tasksApi : TasksApi) (v : Vault)
    (s : CreateTaskButtonSettings) (now : Z) : list Task :=
  match apiListing tasksApi with
  | Some allTasks => omap (apiTaskToTask v s now) allTasks
  | None => loadTasksManually v s now
  end.

(** The strategy [loadTasks] picks by the presence of the service, and what
    it leaves in [this.tasks]. *)
Definition rawTasksOf (service : option TasksApi) (v : Vault)
    (s : CreateTaskButtonSettings) (now : Z) : list Task :=
  match service with
  | Some tasksApi => loadTasksFromAPI tasksApi v s now
  | None => loadTasksManually v s now
  end.

(** [loadTasks]: one strategy, then the aggregator. *)
Definition loadTasks (service : option TasksApi) (v : Vault)
    (s : CreateTaskButtonSettings) (now : Z) : list Task :=
  aggregate (rawTasksOf service v s now).

(** For the statements: a stored date is a valid Date at a midnight. *)
Definition storedDate (t : Task) : Prop :=
  exists d, date t = Some (DateValue (d * msPerDay)%Z).

End Adapter.

(* ================================================================== *)
(** ** Completion toggle protocol: the fallback chain *)
(* ================================================================== *)

(** A strategy either ends the call, or is left (nothing applicable, or an
    exception caught) for the next one. *)
Inductive StepResult : Type :=
  | Finished (r : ToggleResult)
  | FellThrough (v : Vault).

Definition flipCompleted (task : Task) : Task :=
  setCompleted task (negb (isCompleted task)).

(** An external operation followed by the settle delay, the flip of the
    in-memory flag and [return true]. *)
Definition tryEffect (e : ExtEffect) (v : Vault) (task : Task) : StepResult :=
  match e v with
  | ExtDone v' => Finished (mkToggleResult v' (flipCompleted task) true)
  | ExtThrew v' => FellThrough v'
  end.

Definition tryOptionalEffect (e : option ExtEffect) (v : Vault) (task : Task) : StepResult :=
  match e with
  | Some eff => tryEffect eff v task
  | None => FellThrough v
  end.

Definition commandIds : list jsstring :=
  [ u16 "tasks:toggle-task"; u16 "tasks:toggle-done";
    u16 "tasks:mark-task-complete"; u16 "tasks:mark-task-incomplete";
    u16 "tasks-plugin:toggle-task"; u16 "tasks-plugin:toggle-done";
    u16 "tasks-plugin:mark-task-complete"; u16 "tasks-plugin:mark-task-incomplete" ].

Definition targetCommandsOf (task : Task) : list jsstring :=
  if isCompleted task
  then List.filter (fun cmd => includes cmd (u16 "incomplete") || includes cmd (u16 "toggle")) commandIds
  else List.filter (fun cmd => includes cmd (u16 "complete") || includes cmd (u16 "toggle")) commandIds.

Fixpoint runCommands (ws : Workspace) (cmds : list jsstring) (v : Vault) (task : Task) : StepResult :=
  match cmds with
  | [] => FellThrough v
  | commandId :: rest =>
      match tryEffect (wsExecuteCommandById ws commandId) v task with
      | Finished r => Finished r
      | FellThrough v' => runCommands ws rest v' task
      end
  end.

(** [TaskCalendarView.toggleTaskViaCommand]. *)
Definition toggleTaskViaCommand (ws : Workspace) (v : Vault) (task : Task) : ToggleResult :=
  let step :=
    if wsOpenFile ws (file task) then
      if wsIsMarkdownView ws then runCommands ws (targetCommandsOf task) v task
      else FellThrough v
    else FellThrough v in
  match step with
  | Finished r => r
  | FellThrough v' => toggleTaskCompletionDirect v' task
  end.

(** [allTasks.find(...)]: the entry of the listing with the task's path and
    line. *)
Definition findApiTask (allTasks : list ApiTask) (task : Task) : option ApiTask :=
  List.find (fun t => jsstring_eqb (apiPath t) (path (file task)) && (apiLine t =? line task)%nat)
            allTasks.

(** Method 1: [executeToggleTaskDoneCommand]. *)
Definition toggleViaExecuteCommand (tasksApi : TasksApi) (v : Vault) (task : Task) : StepResult :=
  match apiExecuteToggleTaskDoneCommand tasksApi with
  | None => FellThrough v
  | Some executeToggleTaskDoneCommand =>
      match vault_read v (file task) with
      | None => FellThrough v
      | Some content =>
          let lines := splitLines content in
          if bool_decide (length lines <= line task)
          then Finished (toggleTaskCompletionDirect v task)
          else
            match lines !! line task with
            | None => FellThrough v
            | Some taskLine =>
                match executeToggleTaskDoneCommand taskLine (path (file task)) with
                | None => FellThrough v
                | Some newTaskLine =>
                    match vault_modify v (file task) (joinLines (<[line task := newTaskLine]> lines)) with
                    | None => FellThrough v
                    | Some v' =>
                        let completed :=
                          match matchTaskHead newTaskLine with
                          | Some (_, _, status, _) => markerCompleted status
                          | None => negb (isCompleted task)
                          end in
                        Finished (mkToggleResult v' (setCompleted task completed) true)
                    end
                end
            end
      end
  end.

(** Method 2: [tasksApi.toggleTask] on the entry found in the listing. *)
Definition toggleViaToggleTask (tasksApi : TasksApi) (v : Vault) (task : Task) : StepResult :=
  match apiToggleTask tasksApi with
  | None => FellThrough v
  | Some toggleTask =>
      let allTasks := default [] (apiListing tasksApi) in
      match findApiTask allTasks task with
      | Some apiTask => tryEffect (toggleTask apiTask) v task
      | None => FellThrough v
      end
  end.

(** What follows when one strategy is left. *)
Definition orNext (step : StepResult) (next : Vault -> ToggleResult) : ToggleResult :=
  match step with
  | Finished r => r
  | FellThrough v' => next v'
  end.

(** [TaskCalendarView.toggleTaskCompletion]. *)
Definition toggleTaskCompletion (service : option TasksApi) (ws : Workspace)
    (v : Vault) (task : Task) : ToggleResult :=
  match service with
  | None => toggleTaskCompletionDirect v task
  | Some tasksApi =>
      orNext (toggleViaExecuteCommand tasksApi v task) (fun v1 =>
      orNext (toggleViaToggleTask tasksApi v1 task) (fun v2 =>
        match apiListing tasksApi with
        | None => toggleTaskViaCommand ws v2 task
        | Some allTasks =>
            match findApiTask allTasks task with
            | None => toggleTaskViaCommand ws v2 task
            | Some apiTask =>
                orNext (tryOptionalEffect (apiToggle apiTask) v2 task) (fun v4 =>
                orNext (tryOptionalEffect (apiToggleDone apiTask) v4 task) (fun v5 =>
                orNext (tryOptionalEffect
                          ((fun set => set (negb (isCompleted task))) <$> apiSetCompletionStatus apiTask)
                          v5 task) (fun v6 =>
                toggleTaskViaCommand ws v6 task)))
            end
        end))
  end.

(** An external operation that leaves the notes as they were when it throws. *)
Definition effectAtomic (e : ExtEffect) : Prop :=
  forall v v', e v = ExtThrew v' -> v' = v.

(** The service and the host commands fail without a trace. *)
Definition serviceAtomic (service : option TasksApi) (ws : Workspace) : Prop :=
  (forall c, effectAtomic (wsExecuteCommandById ws c)) /\
  match service with
  | None => True
  | Some tasksApi =>
      forall t, In t (default [] (apiListing tasksApi)) ->
        (forall toggleTask, apiToggleTask tasksApi = Some toggleTask ->
                            effectAtomic (toggleTask t)) /\
        (forall e, apiToggle t = Some e -> effectAtomic e) /\
        (forall e, apiToggleDone t = Some e -> effectAtomic e) /\
        (forall set b, apiSetCompletionStatus t = Some set -> effectAtomic (set b))
  end.

(* ================================================================== *)
(** ** Notions used in the statements *)
(* ================================================================== *)

Definition noNewline (l : jsstring) : Prop := ~ In chNewline l.

(** The shape of a captured text: it starts with a character that is not
    white space, or it is one white-space character. *)
Definition tailShape (txt : jsstring) : Prop :=
  txt <> [] /\ forallb notLineTerminator txt = true /\
  (match txt with c :: _ => isWhiteSpace c = false | [] => False end \/
   exists c, txt = [c] /\ isWhiteSpace c = true).

(** A strategy is harmless at [(v, task)] when leaving it leaves the notes
    as they were, and when a failure it ends with is the untouched state. *)
Definition stepHarmless (v : Vault) (task : Task) (step : StepResult) : Prop :=
  match step with
  | Finished r => trSuccess r = false -> r = mkToggleResult v task false
  | FellThrough v' => v' = v
  end.

(** The checklist marker on the line of a task, as the toggle pattern reads
    it from the note. *)
Definition markerOnLine (v : Vault) (task : Task) : option jschar :=
  match vault_read v (file task) with
  | Some content =>
      match splitLines content !! line task with
      | Some ln =>
          match matchToggleLine ln with
          | Some (_, m, _) => Some m
          | None => None
          end
      | None => None
      end
  | None => None
  end.

(** Does some pattern of [extractDateFromText] match in the line? *)
Definition hasRecognizableDateToken (ln : jsstring) : bool :=
  existsb (fun pattern => bool_decide (is_Some (searchFirst pattern ln))) datePatterns.

(* ================================================================== *)
(** ** A reference host and sample notes *)
(* ================================================================== *)

Module Sample.
Local Open Scope Z_scope.

(** A host in the UTC zone whose Date parser reads ISO dates (YYYY-MM-DD
    with a month from 01 to 12 and a day of that month) and nothing else. *)
Definition parseIsoDate (s : jsstring) : JSDate :=
  if bool_decide (matchIsoDateAt s = Some s) then
    let y := digitsValue (take 4 s) in
    let m := digitsValue (take 2 (drop 5 s)) in
    let d := digitsValue (take 2 (drop 8 s)) in
    if (1 <=? m) && (m <=? 12) && (1 <=? d) && (d <=? MakeDay y m 1 - MakeDay y (m - 1) 1)
    then DateValue (MakeDay y (m - 1) d * msPerDay)
    else InvalidDate
  else InvalidDate.

(** moment.js, for the formats YYYY-MM and YYYY-MM-DD. *)
Definition momentStrict (name format : jsstring) : JSDate :=
  if bool_decide (format = u16 "YYYY-MM") then
    match legacyMonthName name with
    | Some (y, m) =>
        if (1 <=? m) && (m <=? 12) then DateValue (MakeDay y (m - 1) 1 * msPerDay)
        else InvalidDate
    | None => InvalidDate
    end
  else if bool_decide (format = u16 "YYYY-MM-DD") then parseIsoDate name
  else InvalidDate.

#[export] Instance host : HostEnv := {|
  Date_parse := parseIsoDate;
  moment_strict := momentStrict
|}.

Definition settings : CreateTaskButtonSettings :=
  mkSettings [] [] [] (u16 "YYYY-MM") true.

Definition note : TFile := mkTFile (u16 "2025-03.md") (u16 "2025-03").

Definition milkLine : jsstring := u16 "- [ ] Buy milk " ++ calendarEmoji ++ u16 " 2025-03-14".
Definition plantsLine : jsstring := u16 "- [X] Water plants " ++ calendarEmoji ++ u16 " 2025-03-10".
Definition choreLine : jsstring := u16 "- [ ] Old chore " ++ calendarEmoji ++ u16 " 2025-03-10".
Definition plainLine : jsstring := u16 "- [ ] no marker here".

Definition noteText : jsstring := joinLines [milkLine; plantsLine; choreLine; plainLine].

Definition vault : Vault := mkVault [note] {[ path note := noteText ]} ∅.

(** The same note, its write refused by the host. *)
Definition lockedVault : Vault := mkVault [note] {[ path note := noteText ]} {[ path note ]}.

Definition march (d : Z) : Z := ymdTime 2025 2 d.

(** Ten in the morning of 2025-03-20. *)
Definition now : Z := march 20 + 10 * msPerHour.

Definition milk : Task :=
  mkTask (u16 "Buy milk " ++ calendarEmoji ++ u16 " 2025-03-14")
         (Some (DateValue (march 14))) note 0 false.
Definition plants : Task :=
  mkTask (u16 "Water plants " ++ calendarEmoji ++ u16 " 2025-03-10")
         (Some (DateValue (march 10))) note 1 true.
Definition chore : Task :=
  mkTask (u16 "Old chore " ++ calendarEmoji ++ u16 " 2025-03-10")
         (Some (DateValue (march 10))) note 2 false.

Definition tasks : list Task := [milk; plants; chore].

(** A second raw entry for the line of [milk], and one without the emoji. *)
Definition milkAgain : Task :=
  mkTask (u16 "Buy milk, once more " ++ calendarEmoji) (Some (DateValue (march 14))) note 0 true.
Definition unmarked : Task :=
  mkTask (u16 "no marker here") (Some (DateValue (march 20))) note 3 false.

(** A service that offers nothing, and a workspace whose commands throw. *)
Definition bareService : TasksApi := mkTasksApi None None None.
Definition workspace : Workspace := mkWorkspace (fun _ => true) true (fun _ v => ExtThrew v).

(** A note with a task that carries the emoji but no date. *)
Definition datelessNote : TFile := mkTFile (u16 "2025-04.md") (u16 "2025-04").
Definition datelessVault : Vault :=
  mkVault [datelessNote] {[ path datelessNote := u16 "- [x] Someday " ++ calendarEmoji ]} ∅.

(** An index service that lists the line of [milk] twice, with a due date
    at five in the morning. *)
Definition apiMilk : ApiTask :=
  mkApiTask (path note) (Some (DateValue (march 14 + 5 * msPerHour))) None None
            (u16 "Buy milk " ++ calendarEmoji) 0 (u16 " ") None None None.
Definition indexService : TasksApi := mkTasksApi (Some [apiMilk; apiMilk]) None None.

(** Lines met in the task-creation prompt. *)
Definition bareDateLine : jsstring := u16 "- [ ] pay rent 2025-01-01".
Definition vagueDueLine : jsstring := u16 "- [ ] call back due: soon".
Definition plainTaskLine : jsstring := u16 "- [ ] call back".

End Sample.

(* ================================================================== *)
(** ** Navigation and the day popup ([TasksForDateModal]) *)
(* ================================================================== *)

(* ================================================================== *)
(** ** Month navigation *)
(* ================================================================== *)

(** [d.setMonth(m)] on a valid date: month [m] of the year [d] is in, the
    day of the month and the time of day kept. *)
Definition setMonth (t month : Z) : Z :=
  (MakeDay (YearFromTime t) month (DateFromTime t) * msPerDay + TimeWithinDay t)%Z.

(** [this.currentDate.setMonth(this.currentDate.getMonth() + direction)]:
    the previous and next buttons, the wheel and the swipe, with [direction]
    1 or -1. *)
Definition changeMonth (currentDate direction : Z) : Z :=
  setMonth currentDate (getMonth currentDate + direction)%Z.

(* ================================================================== *)
(** ** The day popup ([TasksForDateModal]) *)
(* ================================================================== *)

(** [tDate < targetDateStart && !t.isCompleted], with [tDate] the task's
    date at midnight; a task without date is not overdue. *)
Definition isOverdueAt (targetDateStart : JSDate) (t : Task) : bool :=
  match date t with
  | Some d => timeLt (setHours0 d) targetDateStart && negb (isCompleted t)
  | None => false
  end.



(** The three sections of [onOpen], in the order they are rendered.  The
    test [overdueTasks.includes(t)] compares task objects; two tasks with
    the same fields are overdue together, so comparing fields decides it
    the same way. *)
Record PopupSections : Type := mkPopupSections {
  secOverdue : list Task;
  secCurrent : list Task;
  secCompleted : list Task
}.

Definition popupSections (d : JSDate) (tasks : list Task) : PopupSections :=
  let targetDateStart := setHours0 d in
  let overdueTasks := List.filter (isOverdueAt targetDateStart) tasks in
  let currentDayTasks :=
    List.filter (fun t => negb (bool_decide (t ∈ overdueTasks))) tasks in
  mkPopupSections overdueTasks
    (List.filter (fun t => negb (isCompleted t)) currentDayTasks)
    (List.filter (fun t => isCompleted t) currentDayTasks).

(** The date of the popup after a swipe: [newDate.setDate(newDate.getDate()
    + direction)]. *)
Definition popupSwipeDate (d direction : Z) : Z := setDate d (getDate d + direction)%Z.

(** [this.tasks] after a swipe, and after a successful toggle: the tasks of
    the date, incomplete first. *)
Definition popupReloadedTasks (tasks : list Task) (now d : Z) : list Task :=
  stableSort compareCompletion (getTasksForDate tasks now (DateValue d)).

(** The place of a task in the two orders of the view: incomplete before
    completed, and in the popup the overdue tasks before both. *)
Definition completionRank (t : Task) : nat := if isCompleted t then 1 else 0.


(** Two task objects that stand for the same line: all fields but the
    completion flag agree. *)
Definition sameTask (a b : Task) : Prop :=
  text a = text b /\ date a = date b /\ file a = file b /\ line a = line b.

(* ================================================================== *)
(** ** Task creation: the note written ([insertTask], [getOrCreateMonthlyNote]) *)
(* ================================================================== *)

(** [s.endsWith(p)]. *)
Definition endsWith (s p : jsstring) : bool := startsWith (rev s) (rev p).

(** [newContent] of [insertTask]: the note without its trailing white
    space, a newline if anything is left of it, the task line and a
    newline. *)
Definition appendTaskLine (content finalTaskLine : jsstring) : jsstring :=
  let trimmedContent := trimEnd content in
  let taskText :=
    if endsWith finalTaskLine [chNewline] then trimEnd finalTaskLine else finalTaskLine in
  let separator := if bool_decide (0 < length trimmedContent) then [chNewline] else [] in
  trimmedContent ++ separator ++ taskText ++ [chNewline].

(** The read and the write that end [insertTask], on the note found; a host
    call that throws is [None]. *)
Definition insertIntoNote (v : Vault) (targetFile : TFile) (finalTaskLine : jsstring)
    : option Vault :=
  match vault_read v targetFile with
  | Some content => vault_modify v targetFile (appendTaskLine content finalTaskLine)
  | None => None
  end.

(** [filePath] of [getOrCreateMonthlyNote], for the [dateHeader] that
    moment.js prints of the target date. *)
Definition monthlyNotePath (s : CreateTaskButtonSettings) (dateHeader : jsstring) : jsstring :=
  let fileName := dateHeader ++ u16 ".md" in
  let folderPathSetting := orElse (createTaskFolderPath s) (orElse (tasksFolderPath s) []) in
  match trim folderPathSetting with
  | [] => fileName
  | _ =>
      match stripSlashes (trim folderPathSetting) with
      | [] => fileName
      | folderPath => folderPath ++ chSlash :: fileName
      end
  end.

(** The migration of [loadSettings]: a legacy [tasksFolderPath] fills the
    two newer folder settings when both are empty. *)
Definition truthy (s : jsstring) : bool :=
  match s with [] => false | _ => true end.

Definition migrateSettings (s : CreateTaskButtonSettings) : CreateTaskButtonSettings :=
  if truthy (tasksFolderPath s) && negb (truthy (createTaskFolderPath s))
     && negb (truthy (calendarFolderPath s))
  then mkSettings (tasksFolderPath s) (tasksFolderPath s) (tasksFolderPath s)
                  (filenameFormat s) (showCompletedTasks s)
  else s.

(* ================================================================== *)
(** ** The look of a task in a day cell *)
(* ================================================================== *)

(** Is the task element given the class [task-calendar-task-overdue]
    (incomplete, dated, and its day before today)? *)
Definition taskOverdueClass (now : Z) (task : Task) : bool :=
  negb (isCompleted task) &&
  match date task with
  | Some d => timeLt (setHours0 d) (todayOf now)
  | None => false
  end.

(** The class [[0-9a-fA-F]] and the value of such a digit. *)
Definition isHexDigit (c : jschar) : bool :=
  inRange 48 57 c || inRange 97 102 c || inRange 65 70 c.

Definition hexDigitValue (c : jschar) : Z :=
  if inRange 48 57 c then (Z.of_N c - 48)%Z
  else if inRange 97 102 c then (Z.of_N c - 87)%Z
  else (Z.of_N c - 55)%Z.

(** [parseInt(s, 16)]: leading white space, a sign and a [0x] prefix are
    skipped, then the longest run of hexadecimal digits is read; [None] is
    NaN (no digit). *)
Definition parseInt16 (s : jsstring) : option Z :=
  let s1 := trimStart s in
  let '(sign, s2) :=
    match s1 with
    | c :: r => if (c =? 45)%N then ((-1)%Z, r) else if (c =? 43)%N then (1%Z, r) else (1%Z, s1)
    | [] => (1%Z, s1)
    end in
  let s3 :=
    match s2 with
    | z :: x :: r => if (z =? 48)%N && ((x =? 120)%N || (x =? 88)%N) then r else s2
    | _ => s2
    end in
  let digits := fst (span isHexDigit s3) in
  match digits with
  | [] => None
  | _ => Some (sign * fold_left (fun acc c => 16 * acc + hexDigitValue c) digits 0)%Z
  end.

(** [getContrastYIQ]: the text colour for a background colour.  The sum is
    an integer below 2^53 and 128 is a binary fraction, so the comparison
    [yiq >= 128] of the quotient by 1000 is the comparison of the sum with
    128000; with a NaN channel the comparison is false. *)
Definition getContrastYIQ (hexcolor : jsstring) : jsstring :=
  match hexcolor with
  | c :: rest =>
      if negb (c =? 35)%N then u16 "var(--text-on-accent)"
      else
        let hexcolor := rest in
        let r := parseInt16 (take 2 hexcolor) in
        let g := parseInt16 (take 2 (drop 2 hexcolor)) in
        let b := parseInt16 (take 2 (drop 4 hexcolor)) in
        match r, g, b with
        | Some r, Some g, Some b =>
            if (128000 <=? r * 299 + g * 587 + b * 114)%Z
            then u16 "#000000" else u16 "#ffffff"
        | _, _, _ => u16 "#ffffff"
        end
  | [] => u16 "var(--text-on-accent)"
  end.

(** For the statements: a channel value as two hexadecimal digits, in
    lower or upper case. *)
Definition hexDigitOf (upper : bool) (d : Z) : jschar :=
  if (d <? 10)%Z then Z.to_N (48 + d)
  else if upper then Z.to_N (55 + d) else Z.to_N (87 + d).

Definition hexByte (upper : bool) (n : Z) : jsstring :=
  [hexDigitOf upper (n / 16); hexDigitOf upper (n mod 16)].

(* ================================================================== *)
(** ** More sample data: a stale task, a toggling service, a task folder *)
(* ================================================================== *)

Module Scenario.
Import Sample.
Local Open Scope Z_scope.

(** A task object whose line lies beyond the end of its note. *)
Definition staleTask : Task :=
  mkTask (u16 "Buy milk " ++ calendarEmoji ++ u16 " 2025-03-14")
         (Some (DateValue (march 14))) note 99 false.

(** A service that offers [executeToggleTaskDoneCommand] only. *)
Definition toggleService : TasksApi :=
  mkTasksApi None (Some (fun taskLine _ => Some taskLine)) None.

(** Settings with the legacy folder only, and with both newer folders. *)
Definition legacySettings : CreateTaskButtonSettings :=
  mkSettings (u16 "/Tasks/") [] [] (u16 "YYYY-MM") true.

Definition monthlyNote : TFile :=
  mkTFile (monthlyNotePath legacySettings (u16 "2025-03")) (u16 "2025-03").

(** A line as the task prompt hands it over, with the calendar emoji. *)
Definition annLine : jsstring :=
  u16 "- [ ] Call Ann " ++ calendarEmoji ++ u16 " 2025-03-21".

End Scenario.

(* ================================================================== *)
(** * Properties *)
(* ================================================================== *)

(** ** Calendar arithmetic *)

Section DateFacts.
Local Open Scope Z_scope.

Lemma DayFromYear_bounds (y : Z) :
  146097 * (y - 1970) - 607 <= 400 * DayFromYear y <= 146097 * (y - 1970) + 593.
Proof. unfold DayFromYear. Z.div_mod_to_equations. lia. Qed.

Lemma DayFromYear_succ (y : Z) : DayFromYear (y + 1) = DayFromYear y + DaysInYear y.
Proof.
  unfold DayFromYear, DaysInYear, isLeapYear.
  repeat match goal with
         | |- context [ (?a =? ?b) ] => destruct (Z.eqb_spec a b)
         end; simpl; Z.div_mod_to_equations; lia.
Qed.

Lemma DaysInYear_range (y : Z) : 365 <= DaysInYear y <= 366.
Proof. unfold DaysInYear. destruct (isLeapYear y); lia. Qed.

Lemma DayFromYear_lt (y y' : Z) : y < y' -> DayFromYear y < DayFromYear y'.
Proof.
  intros Hlt.
  pose proof (DayFromYear_bounds y). pose proof (DayFromYear_bounds y'). lia.
Qed.

(** The year found is the one whose days enclose [d]. *)
Lemma YearFromDay_spec (d : Z) :
  DayFromYear (YearFromDay d) <= d < DayFromYear (YearFromDay d + 1).
Proof.
  unfold YearFromDay.
  set (y := 1970 + 400 * d / 146097).
  assert (Hy : 146097 * (y - 1970) <= 400 * d < 146097 * (y - 1970) + 146097).
  { subst y. Z.div_mod_to_equations. lia. }
  pose proof (DayFromYear_bounds y). pose proof (DayFromYear_bounds (y + 1)).
  pose proof (DayFromYear_bounds (y - 1)). pose proof (DayFromYear_bounds (y + 2)).
  clearbody y.
  destruct (Z.ltb_spec d (DayFromYear y)).
  - replace (y - 1 + 1) with y by lia. lia.
  - destruct (Z.leb_spec (DayFromYear (y + 1)) d).
    + replace (y + 1 + 1) with (y + 2) by lia. lia.
    + lia.
Qed.

Lemma YearFromDay_unique (d y : Z) :
  DayFromYear y <= d < DayFromYear (y + 1) -> YearFromDay d = y.
Proof.
  intros Hy. pose proof (YearFromDay_spec d) as Hs.
  destruct (Z.lt_trichotomy (YearFromDay d) y) as [Hlt | [Heq | Hgt]]; [| exact Heq |].
  - assert (DayFromYear (YearFromDay d + 1) <= DayFromYear y).
    { destruct (Z.eq_dec (YearFromDay d + 1) y) as [-> | Hne]; [lia |].
      apply Z.lt_le_incl, DayFromYear_lt. lia. }
    lia.
  - assert (DayFromYear (y + 1) <= DayFromYear (YearFromDay d)).
    { destruct (Z.eq_dec (y + 1) (YearFromDay d)) as [-> | Hne]; [lia |].
      apply Z.lt_le_incl, DayFromYear_lt. lia. }
    lia.
Qed.

Lemma monthOfDayWithinYear_range (d leap : Z) : 0 <= monthOfDayWithinYear d leap <= 11.
Proof.
  unfold monthOfDayWithinYear.
  repeat match goal with
         | |- context [ ?a <? ?b ] => destruct (Z.ltb_spec a b)
         end; lia.
Qed.

Lemma getMonth_range (t : Z) : 0 <= getMonth t <= 11.
Proof. apply monthOfDayWithinYear_range. Qed.

Lemma monthStart_of_month (m leap : Z) :
  0 <= m <= 11 -> 0 <= leap <= 1 ->
  monthOfDayWithinYear (monthStart m leap) leap = m.
Proof.
  intros Hm Hl.
  assert (Hcases : m = 0 \/ m = 1 \/ m = 2 \/ m = 3 \/ m = 4 \/ m = 5 \/ m = 6
                   \/ m = 7 \/ m = 8 \/ m = 9 \/ m = 10 \/ m = 11) by lia.
  assert (Hleap : leap = 0 \/ leap = 1) by lia.
  destruct Hleap as [-> | ->];
    repeat (destruct Hcases as [-> | Hcases]; [reflexivity |]); subst; reflexivity.
Qed.

Lemma monthStart_range (m leap : Z) :
  0 <= m <= 11 -> 0 <= leap <= 1 -> 0 <= monthStart m leap <= 334 + leap.
Proof.
  intros Hm Hl.
  assert (Hcases : m = 0 \/ m = 1 \/ m = 2 \/ m = 3 \/ m = 4 \/ m = 5 \/ m = 6
                   \/ m = 7 \/ m = 8 \/ m = 9 \/ m = 10 \/ m = 11) by lia.
  repeat (destruct Hcases as [-> | Hcases]; [simpl; lia |]); subst; simpl; lia.
Qed.

Lemma Day_of_midnight (d : Z) : Day (d * msPerDay) = d.
Proof. unfold Day, msPerDay. apply Z.div_mul. lia. Qed.

Lemma TimeWithinDay_of_midnight (d : Z) : TimeWithinDay (d * msPerDay) = 0.
Proof. unfold TimeWithinDay, msPerDay. apply Z.mod_mul. lia. Qed.

Lemma Day_shift (t k : Z) : Day (t + k * msPerDay) = Day t + k.
Proof. unfold Day, msPerDay. apply Z.div_add. lia. Qed.

(** The calendar fields of a date rebuild its day number. *)
Lemma MakeDay_of_fields (t n : Z) :
  MakeDay (YearFromTime t) (MonthFromTime t) n = Day t + (n - DateFromTime t).
Proof.
  pose proof (getMonth_range t) as Hm. unfold getMonth in Hm.
  unfold MakeDay.
  rewrite (Z.div_small (MonthFromTime t) 12) by lia.
  rewrite (Z.mod_small (MonthFromTime t) 12) by lia.
  rewrite Z.add_0_r.
  unfold DateFromTime, DayWithinYear, InLeapYear. lia.
Qed.

(** [d.setDate(d.getDate() + k)] moves a date by [k] days. *)
Lemma setDate_getDate (t k : Z) : setDate t (getDate t + k) = t + k * msPerDay.
Proof.
  unfold setDate, getDate. rewrite MakeDay_of_fields.
  unfold Day, TimeWithinDay, msPerDay.
  pose proof (Z.div_mod t 86400000). lia.
Qed.

(** The fields of the first day of month [m] of year [y]. *)
Lemma fields_of_first_day (y m : Z) :
  0 <= m <= 11 ->
  let t := MakeDay y m 1 * msPerDay in
  YearFromTime t = y /\ MonthFromTime t = m /\ DateFromTime t = 1.
Proof.
  intros Hm t.
  assert (Hday : Day t = DayFromYear y + monthStart m (if isLeapYear y then 1 else 0)).
  { subst t. rewrite Day_of_midnight. unfold MakeDay.
    rewrite (Z.div_small m 12), (Z.mod_small m 12) by lia.
    rewrite Z.add_0_r. lia. }
  assert (Hleap : 0 <= (if isLeapYear y then 1 else 0) <= 1) by (destruct (isLeapYear y); lia).
  pose proof (monthStart_range m _ Hm Hleap) as Hms.
  assert (Hyear : YearFromTime t = y).
  { unfold YearFromTime. apply YearFromDay_unique.
    rewrite Hday, DayFromYear_succ. unfold DaysInYear.
    destruct (isLeapYear y); lia. }
  assert (Hdwy : DayWithinYear t = monthStart m (if isLeapYear y then 1 else 0)).
  { unfold DayWithinYear. rewrite Hyear, Hday. lia. }
  assert (Hmonth : MonthFromTime t = m).
  { unfold MonthFromTime, InLeapYear. rewrite Hdwy, Hyear.
    apply monthStart_of_month; assumption. }
  repeat split; [exact Hyear | exact Hmonth |].
  unfold DateFromTime, InLeapYear. rewrite Hmonth, Hdwy, Hyear. lia.
Qed.

Lemma WeekDay_shift (t k : Z) : WeekDay (t + k * msPerDay) = (WeekDay t + k) mod 7.
Proof.
  unfold WeekDay. rewrite Day_shift.
  rewrite Zplus_mod_idemp_l. f_equal. lia.
Qed.

Lemma WeekDay_range (t : Z) : 0 <= WeekDay t < 7.
Proof. unfold WeekDay. apply Z.mod_pos_bound. lia. Qed.

(** Midnight has no hours, minutes, seconds or milliseconds. *)
Lemma midnight_fields (d : Z) :
  let t := d * msPerDay in
  HourFromTime t = 0 /\ MinFromTime t = 0 /\ SecFromTime t = 0 /\ msFromTime t = 0.
Proof.
  unfold HourFromTime, MinFromTime, SecFromTime, msFromTime,
    msPerDay, msPerHour, msPerMinute, msPerSecond.
  cbv zeta. Z.div_mod_to_equations. lia.
Qed.

(** The text of [toDateString] depends on the calendar day only. *)
Lemma toDateString_same_day (a b : Z) :
  Day a = Day b -> toDateString (DateValue a) = toDateString (DateValue b).
Proof.
  intros Hd. unfold toDateString, WeekDay, DateFromTime, MonthFromTime,
    DayWithinYear, InLeapYear, YearFromTime.
  rewrite Hd. reflexivity.
Qed.

(** And it tells calendar days apart. *)
Lemma toDateString_inj_day (a b : Z) :
  toDateString (DateValue a) = toDateString (DateValue b) -> Day a = Day b.
Proof.
  unfold toDateString. intros Heq. injection Heq as Hw Hm Hd Hy.
  pose proof (MakeDay_of_fields a (DateFromTime a)) as Ha.
  pose proof (MakeDay_of_fields b (DateFromTime b)) as Hb.
  rewrite Hy, Hm, Hd in Ha. lia.
Qed.

End DateFacts.

(** ** The month grid *)

Section GridFacts.
Local Open Scope Z_scope.

Lemma cellDateAt_shift (startDate : Z) (i : nat) :
  cellDateAt startDate i = startDate + Z.of_nat i * msPerDay.
Proof. apply setDate_getDate. Qed.

Lemma gridStartDate_shift (year month : Z) :
  gridStartDate year month =
  firstDayOfMonth year month - daysToSubtract (firstDayOfMonth year month) * msPerDay.
Proof.
  unfold gridStartDate. cbv zeta.
  set (f := firstDayOfMonth year month).
  replace (getDate f - daysToSubtract f) with (getDate f + - daysToSubtract f) by lia.
  rewrite setDate_getDate. lia.
Qed.

Lemma daysToSubtract_range (firstDay : Z) : 0 <= daysToSubtract firstDay <= 6.
Proof.
  unfold daysToSubtract, getDay. pose proof (WeekDay_range firstDay).
  destruct (Z.eqb_spec (WeekDay firstDay) 0); lia.
Qed.

Lemma gridStartDate_monday (year month : Z) : getDay (gridStartDate year month) = 1.
Proof.
  rewrite gridStartDate_shift. set (f := firstDayOfMonth year month).
  replace (f - daysToSubtract f * msPerDay) with (f + - daysToSubtract f * msPerDay) by lia.
  unfold getDay. rewrite WeekDay_shift.
  unfold daysToSubtract, getDay. pose proof (WeekDay_range f).
  destruct (Z.eqb_spec (WeekDay f) 0) as [-> | Hne].
  - reflexivity.
  - replace (WeekDay f + - (WeekDay f - 1)) with 1 by lia. reflexivity.
Qed.

Lemma renderGrid_length tasks showCompleted now currentDate :
  length (renderGrid tasks showCompleted now currentDate) = 42%nat.
Proof. unfold renderGrid. rewrite length_map, length_seq. reflexivity. Qed.

Lemma renderGrid_lookup tasks showCompleted now currentDate (i : nat) :
  (i < 42)%nat ->
  renderGrid tasks showCompleted now currentDate !! i =
  Some (renderCell tasks showCompleted now (getMonth currentDate)
          (cellDateAt (gridStartDate (getFullYear currentDate) (getMonth currentDate)) i)).
Proof.
  intros Hi. unfold renderGrid. rewrite list_lookup_fmap.
  rewrite lookup_seq_lt by exact Hi. reflexivity.
Qed.

Lemma firstDayOfMonth_fields (year month : Z) :
  ~ (0 <= year <= 99) -> 0 <= month <= 11 ->
  let first := firstDayOfMonth year month in
  getFullYear first = year /\ getMonth first = month /\ getDate first = 1.
Proof.
  intros Hy Hm. unfold firstDayOfMonth, ymdTime.
  assert (Hq : (0 <=? year) && (year <=? 99) = false).
  { destruct (Z.leb_spec 0 year), (Z.leb_spec year 99); simpl; try reflexivity. lia. }
  rewrite Hq. apply fields_of_first_day. exact Hm.
Qed.

End GridFacts.

(** C3. For the month of any [currentDate] the grid has exactly 42 cells;
    its first cell is a Monday on or before the first day of the month, the
    date [new Date(year, month, 1)]; that first day sits at a cell index
    from 0 to 6; and the cells are consecutive days.  The first day has the
    fields (year, month, 1) for every year that the Date constructor reads
    as it stands (outside 0..99).  The calendar area is this grid whenever
    there is a task to show. *)
Theorem grid_completeness (tasks : list Task) (showCompleted : bool)
    (now currentDate : Z) :
  let year := getFullYear currentDate in
  let month := getMonth currentDate in
  let first := firstDayOfMonth year month in
  let cells := renderGrid tasks showCompleted now currentDate in
  length cells = 42 /\
  (exists c0, cells !! 0 = Some c0 /\
     getDay (cellDate c0) = 1%Z /\ (cellDate c0 <= first)%Z /\
     forall i c, cells !! i = Some c ->
       cellDate c = (cellDate c0 + Z.of_nat i * msPerDay)%Z) /\
  (exists i c, i < 7 /\ cells !! i = Some c /\ cellDate c = first) /\
  (~ (0 <= year <= 99)%Z ->
     getFullYear first = year /\ getMonth first = month /\ getDate first = 1%Z) /\
  (tasks <> [] -> renderCalendar tasks showCompleted now currentDate = Grid cells).
Proof.
  intros year month first cells.
  pose proof (getMonth_range currentDate) as Hm.
  pose proof (daysToSubtract_range first) as Hd.
  split; [apply renderGrid_length |].
  split; [| split; [| split]].
  - eexists. split; [apply renderGrid_lookup; lia |]. simpl.
    rewrite cellDateAt_shift. fold year month.
    replace (gridStartDate year month + Z.of_nat 0 * msPerDay)%Z
      with (gridStartDate year month) by lia.
    split; [apply gridStartDate_monday |].
    split.
    + rewrite gridStartDate_shift. fold first. unfold msPerDay. lia.
    + intros i c Hc.
      assert (Hi : i < 42).
      { apply lookup_lt_Some in Hc. subst cells.
        rewrite renderGrid_length in Hc. exact Hc. }
      subst cells. rewrite renderGrid_lookup in Hc by exact Hi.
      injection Hc as <-. simpl. apply cellDateAt_shift.
  - exists (Z.to_nat (daysToSubtract first)). eexists.
    split; [lia |].
    split; [apply renderGrid_lookup; lia |]. simpl.
    rewrite cellDateAt_shift, gridStartDate_shift. fold year month first.
    rewrite Z2Nat.id by lia. lia.
  - intros Hyear. apply firstDayOfMonth_fields; assumption.
  - intros Hne. unfold renderCalendar.
    rewrite bool_decide_eq_false_2; [reflexivity |].
    destruct tasks; [contradiction | discriminate].
Qed.

(** ** Day cells: overdue migration, truncation, count badge *)

Section CellFacts.

Lemma insertSorted_In {A} (cmp : A -> A -> Z) (x y : A) (l : list A) :
  In y (insertSorted cmp x l) <-> y = x \/ In y l.
Proof.
  induction l as [| z l IH]; simpl.
  - intuition.
  - destruct (cmp x z <=? 0)%Z; simpl; [intuition |].
    rewrite IH. intuition.
Qed.

Lemma stableSort_In {A} (cmp : A -> A -> Z) (y : A) (l : list A) :
  In y (stableSort cmp l) <-> In y l.
Proof.
  induction l as [| x l IH]; simpl; [reflexivity |].
  rewrite insertSorted_In, IH. intuition.
Qed.

Lemma insertSorted_length {A} (cmp : A -> A -> Z) (x : A) (l : list A) :
  length (insertSorted cmp x l) = S (length l).
Proof.
  induction l as [| z l IH]; simpl; [reflexivity |].
  destruct (cmp x z <=? 0)%Z; simpl; [reflexivity | now rewrite IH].
Qed.

Lemma stableSort_length {A} (cmp : A -> A -> Z) (l : list A) :
  length (stableSort cmp l) = length l.
Proof.
  induction l as [| x l IH]; simpl; [reflexivity |].
  now rewrite insertSorted_length, IH.
Qed.

Lemma todayOf_eq (now : Z) : todayOf now = DateValue (Day now * msPerDay).
Proof. reflexivity. Qed.

Lemma day_before_today (d now : Z) :
  (d < Day now * msPerDay)%Z -> (Day d < Day now)%Z.
Proof.
  intros Hlt. unfold Day in *. unfold msPerDay in *.
  Z.div_mod_to_equations. lia.
Qed.

(** A cell of a day before today is not today's cell. *)
Lemma past_cell_not_today (cd now : Z) :
  (Day cd < Day now)%Z -> timeEq (DateValue cd) (todayOf now) = false.
Proof.
  intros Hlt. rewrite todayOf_eq. simpl. apply Z.eqb_neq. intros ->.
  rewrite Day_of_midnight in Hlt. lia.
Qed.

Lemma past_cell_isPast (cd now : Z) :
  (Day cd < Day now)%Z -> timeLt (setHours0 (DateValue cd)) (todayOf now) = true.
Proof.
  intros Hlt. rewrite todayOf_eq. simpl. apply Z.ltb_lt.
  unfold msPerDay. lia.
Qed.

(** An incomplete task dated before today is in the overdue bucket. *)
Lemma overdue_bucket (tasks : list Task) (now : Z) (task : Task) (d : Z) :
  In task tasks -> date task = Some (DateValue d) ->
  (d < Day now * msPerDay)%Z -> isCompleted task = false ->
  In task (getOverdueTasks tasks now).
Proof.
  intros Hin Hd Hlt Hc. unfold getOverdueTasks. apply filter_In.
  split; [exact Hin |]. rewrite Hd, Hc, todayOf_eq. simpl.
  destruct (Z.leb_spec (Day now * msPerDay) d); [lia | reflexivity].
Qed.

End CellFacts.

(** C1. An incomplete task dated strictly before today is left out of the
    cell of its own date and sits in today's cell, which is the overdue
    bucket followed by today's own tasks; it stays in today's cell through
    the completed-filter and the sort.  A completed task dated before today
    stays in the cell of its own date, and in its sorted list when completed
    tasks are shown. *)
Theorem overdue_migration (tasks : list Task) (now : Z) (task : Task) (d : Z)
    (Hin : In task tasks)
    (Hdate : date task = Some (DateValue d))
    (Hpast : (d < Day now * msPerDay)%Z) :
  (isCompleted task = false ->
     (forall cd, Day cd = Day d -> ~ In task (cellTasks tasks now cd)) /\
     In task (getOverdueTasks tasks now) /\
     cellTasks tasks now (Day now * msPerDay) =
       getOverdueTasks tasks now ++ getTasksForDate tasks now (todayOf now) /\
     (forall showCompleted month,
        In task (cellSortedTasks
                   (renderCell tasks showCompleted now month (Day now * msPerDay))))) /\
  (isCompleted task = true ->
     forall cd, Day cd = Day d ->
       In task (cellTasks tasks now cd) /\
       forall month, In task (cellSortedTasks (renderCell tasks true now month cd))).
Proof.
  pose proof (day_before_today d now Hpast) as Hday.
  assert (Htoday : cellTasks tasks now (Day now * msPerDay) =
            getOverdueTasks tasks now ++ getTasksForDate tasks now (todayOf now)).
  { unfold cellTasks. rewrite todayOf_eq. simpl. rewrite Z.eqb_refl. reflexivity. }
  split.
  - intros Hc. split; [| split; [| split]].
    + intros cd Hcd Hcell. unfold cellTasks in Hcell.
      rewrite past_cell_not_today in Hcell by lia.
      unfold getTasksForDate in Hcell. apply filter_In in Hcell as [_ Hf].
      rewrite Hdate, Hc, past_cell_isPast in Hf by lia.
      rewrite (toDateString_same_day d cd) in Hf by (symmetry; exact Hcd).
      rewrite bool_decide_eq_true_2 in Hf by reflexivity. discriminate.
    + eapply overdue_bucket; eassumption.
    + exact Htoday.
    + intros showCompleted month. simpl. apply stableSort_In.
      assert (Hcell : In task (cellTasks tasks now (Day now * msPerDay))).
      { rewrite Htoday. apply in_or_app. left. eapply overdue_bucket; eassumption. }
      destruct showCompleted; simpl; [exact Hcell |].
      apply filter_In. split; [exact Hcell | now rewrite Hc].
  - intros Hc cd Hcd.
    assert (Hcell : In task (cellTasks tasks now cd)).
    { unfold cellTasks. rewrite past_cell_not_today by lia.
      unfold getTasksForDate. apply filter_In. split; [exact Hin |].
      rewrite Hdate, Hc. rewrite (toDateString_same_day d cd) by (symmetry; exact Hcd).
      rewrite bool_decide_eq_true_2 by reflexivity. simpl.
      rewrite andb_false_r. reflexivity. }
    split; [exact Hcell |].
    intros month. simpl. apply stableSort_In. exact Hcell.
Qed.

(** The cell shows the first four of its sorted tasks, and the count badge
    is there exactly when the cell has a task; it carries their number. *)
Lemma renderCell_shown tasks showCompleted now month cd :
  let cell := renderCell tasks showCompleted now month cd in
  cellShown cell = take 4 (cellSortedTasks cell) /\
  length (cellShown cell) = Nat.min 4 (length (cellSortedTasks cell)) /\
  cellCountBadge cell =
    (if bool_decide (0 < length (cellSortedTasks cell))
     then Some (length (cellSortedTasks cell)) else None).
Proof.
  simpl. split; [reflexivity |]. split; [| reflexivity].
  unfold maxTasks. rewrite length_take. reflexivity.
Qed.

(** C8, as amended. A day cell shows at most 4 tasks, the first of its
    sorted list, and the count badge is shown if and only if the cell has at
    least one task; the badge carries the number of all the cell's tasks. *)
Theorem cell_truncation_and_badge (tasks : list Task) (showCompleted : bool)
    (now month cd : Z) :
  let cell := renderCell tasks showCompleted now month cd in
  length (cellShown cell) <= 4 /\
  cellShown cell = take 4 (cellSortedTasks cell) /\
  (is_Some (cellCountBadge cell) <-> 0 < length (cellSortedTasks cell)) /\
  (forall n, cellCountBadge cell = Some n -> n = length (cellSortedTasks cell)).
Proof.
  intros cell.
  destruct (renderCell_shown tasks showCompleted now month cd) as (Hs & Hl & Hb).
  fold cell in Hs, Hl, Hb.
  split; [rewrite Hl; lia |]. split; [exact Hs |].
  rewrite Hb. case_bool_decide as Hpos.
  - split; [split; [intros _; exact Hpos | intros _; eexists; reflexivity] |].
    intros n Hn. now injection Hn as <-.
  - split; [split; [intros [x Hx]; discriminate | intros Hp; contradiction] |].
    intros n Hn. discriminate.
Qed.

(** ** The aggregator: marker filter and deduplication *)

Section AggregateFacts.

Lemma jsstring_eqb_true (a b : jsstring) : jsstring_eqb a b = true <-> a = b.
Proof. unfold jsstring_eqb. destruct (decide (a = b)); intuition congruence. Qed.

Lemma jsstring_eqb_false (a b : jsstring) : jsstring_eqb a b = false <-> a <> b.
Proof. unfold jsstring_eqb. destruct (decide (a = b)); intuition congruence. Qed.

(** Decimal digits: all in 0..9, and the numeral tells the number. *)
Lemma uintUnits_digits (d : Decimal.uint) : Forall (fun c => isDigit c = true) (uintUnits d).
Proof. induction d; simpl; constructor; try assumption; reflexivity. Qed.

Lemma uintUnits_inj (d d' : Decimal.uint) : uintUnits d = uintUnits d' -> d = d'.
Proof.
  revert d'. induction d; intros d'; destruct d'; simpl; intros Heq;
    try discriminate; try reflexivity;
    injection Heq as Heq; f_equal; apply IHd; exact Heq.
Qed.

Lemma natToString_inj (n m : nat) : natToString n = natToString m -> n = m.
Proof.
  unfold natToString. intros Heq. apply uintUnits_inj in Heq.
  rewrite <- (DecimalNat.Unsigned.of_to n), <- (DecimalNat.Unsigned.of_to m).
  now rewrite Heq.
Qed.

Lemma natToString_no_colon (n : nat) : ~ In chColon (natToString n).
Proof.
  unfold natToString. intros Hin.
  pose proof (uintUnits_digits (Nat.to_uint n)) as Hd.
  rewrite List.Forall_forall in Hd. specialize (Hd _ Hin). discriminate.
Qed.

(** A text is cut in one way at its last colon. *)
Lemma split_at_last (c : jschar) (a b x y : jsstring) :
  ~ In c x -> ~ In c y -> a ++ c :: x = b ++ c :: y -> a = b /\ x = y.
Proof.
  intros Hx Hy. revert b. induction a as [| a0 a IH]; intros b Heq.
  - destruct b as [| b0 b]; simpl in Heq.
    + injection Heq as Heq. now split.
    + injection Heq as <- Heq. exfalso. apply Hx. rewrite Heq.
      apply in_or_app. right. now left.
  - destruct b as [| b0 b]; simpl in Heq.
    + injection Heq as -> Heq. exfalso. apply Hy. rewrite <- Heq.
      apply in_or_app. right. now left.
    + injection Heq as -> Heq. destruct (IH b Heq) as [-> ->]. now split.
Qed.

(** The key of the map stands for the pair (path, line). *)
Lemma taskKey_inj (a b : Task) :
  taskKey a = taskKey b <-> path (file a) = path (file b) /\ line a = line b.
Proof.
  unfold taskKey. split.
  - intros Heq. apply split_at_last in Heq as [Hp Hl]; try apply natToString_no_colon.
    split; [exact Hp | now apply natToString_inj].
  - intros [-> ->]. reflexivity.
Qed.

Lemma mapHas_spec (m : TaskMap) (k : jsstring) :
  mapHas m k = true <-> In k (List.map fst m).
Proof.
  unfold mapHas. rewrite existsb_exists, in_map_iff. split.
  - intros [e [He Hk]]. apply jsstring_eqb_true in Hk. now exists e.
  - intros [e [Hk He]]. exists e. split; [exact He | now apply jsstring_eqb_true].
Qed.

(** Setting a key that the map does not hold appends the entry. *)
Lemma mapSet_fresh (m : TaskMap) (k : jsstring) (t : Task) :
  mapHas m k = false -> mapSet m k t = m ++ [(k, t)].
Proof.
  induction m as [| e m IH]; simpl; [reflexivity |].
  unfold mapHas in *. simpl. intros Hh. apply orb_false_iff in Hh as [He Hm].
  rewrite He, IH by exact Hm. reflexivity.
Qed.

Lemma dedupe_fold_withKey (k : jsstring) (l : list Task) (m : TaskMap) :
  withKey k (mapValues (fold_left dedupeStep l m)) =
  withKey k (mapValues m) ++ (if mapHas m k then [] else firstWithKey k l).
Proof.
  revert m. induction l as [| t l IH]; intros m; simpl.
  - unfold firstWithKey. simpl. destruct (mapHas m k); now rewrite app_nil_r.
  - rewrite IH. unfold dedupeStep.
    destruct (mapHas m (taskKey t)) eqn:Hh; simpl.
    + destruct (mapHas m k) eqn:Hk; [reflexivity |].
      unfold firstWithKey. simpl.
      destruct (jsstring_eqb (taskKey t) k) eqn:He; [| reflexivity].
      apply jsstring_eqb_true in He. congruence.
    + rewrite mapSet_fresh by exact Hh.
      unfold mapValues, withKey. rewrite List.map_app, List.filter_app. simpl.
      unfold mapHas. rewrite existsb_app. simpl. fold (mapHas m k).
      unfold firstWithKey. simpl.
      destruct (jsstring_eqb (taskKey t) k) eqn:He; simpl.
      * apply jsstring_eqb_true in He. subst k. rewrite Hh.
        rewrite orb_true_r. now rewrite <- app_assoc.
      * rewrite orb_false_r. now rewrite app_nil_r.
Qed.

Lemma dedupe_fold_subset (l : list Task) (m : TaskMap) (t : Task) :
  In t (mapValues (fold_left dedupeStep l m)) -> In t (mapValues m) \/ In t l.
Proof.
  revert m. induction l as [| x l IH]; intros m; simpl; [now left |].
  intros Hin. apply IH in Hin as [Hin | Hin]; [| now right; right].
  unfold dedupeStep in Hin. destruct (mapHas m (taskKey x)) eqn:Hh; simpl in Hin.
  - now left.
  - rewrite mapSet_fresh in Hin by exact Hh. unfold mapValues in Hin.
    rewrite List.map_app in Hin. apply in_app_or in Hin as [Hin | [<- | []]].
    + now left.
    + right. now left.
Qed.

(** What the aggregator keeps comes from the raw list and carries the
    marker. *)
Lemma aggregate_subset (raw : list Task) (t : Task) :
  In t (aggregate raw) -> In t raw /\ hasCalendarMarker t = true.
Proof.
  unfold aggregate. intros Hin.
  apply dedupe_fold_subset in Hin as [[] | Hin]. now apply filter_In in Hin.
Qed.

Lemma aggregate_withKey (raw : list Task) (k : jsstring) :
  withKey k (aggregate raw) = firstWithKey k (List.filter hasCalendarMarker raw).
Proof. unfold aggregate. now rewrite dedupe_fold_withKey. Qed.

Lemma find_filter {A} (f g : A -> bool) (l : list A) :
  List.find f (List.filter g l) = List.find (fun x => g x && f x) l.
Proof.
  induction l as [| y l IH]; simpl; [reflexivity |].
  destruct (g y); simpl; [| exact IH]. now destruct (f y).
Qed.

Lemma find_first_split {A} (f : A -> bool) (l : list A) (x : A) :
  List.find f l = Some x ->
  exists l1 l2, l = l1 ++ x :: l2 /\ f x = true /\ Forall (fun y => f y = false) l1.
Proof.
  induction l as [| y l IH]; simpl; [discriminate |].
  destruct (f y) eqn:Hy.
  - intros [= ->]. exists [], l. repeat split; [exact Hy | constructor].
  - intros Hf. destruct (IH Hf) as (l1 & l2 & -> & Hx & Hall).
    exists (y :: l1), l2. repeat split; [exact Hx | now constructor].
Qed.

End AggregateFacts.

(** ** The adapters: what every pushed task satisfies *)

Section AdapterFacts.
Context `{HostEnv}.

Lemma startsWithBy_app (ci : bool) (p s x : jsstring) :
  startsWithBy ci p s = true -> startsWithBy ci p (s ++ x) = true.
Proof.
  revert s. induction p as [| a p IH]; intros s; simpl; [reflexivity |].
  destruct s as [| b s]; simpl; [discriminate |].
  intros Hs. apply andb_true_iff in Hs as [Ha Hp].
  now rewrite Ha, IH.
Qed.

Lemma occursBy_app (ci : bool) (p s x : jsstring) :
  occursBy ci p s = true -> occursBy ci p (s ++ x) = true.
Proof.
  induction s as [| b s IH]; simpl.
  - rewrite orb_false_r. destruct p; [| discriminate]. intros _.
    destruct x; reflexivity.
  - intros Ho. apply orb_true_iff in Ho as [Hs | Ho].
    + apply (startsWithBy_app ci p (b :: s) x) in Hs. simpl in Hs.
      rewrite Hs. reflexivity.
    + rewrite IH by exact Ho. apply orb_true_r.
Qed.

Lemma ensureValidStartOfDay_midnight (now : Z) (d : option JSDate) :
  exists k, ensureValidStartOfDay now d = DateValue (k * msPerDay)%Z.
Proof.
  unfold ensureValidStartOfDay.
  destruct d as [[t |] |]; simpl; eexists; reflexivity.
Qed.

Lemma scanLine_facts s now f i ln following t :
  scanLine s now f i ln following = Some t ->
  hasCalendarMarker t = true /\ storedDate t /\ file t = f /\ line t = i.
Proof.
  unfold scanLine. destruct (matchTaskLine ln) as [[[indent m] txt] |]; [| discriminate].
  destruct (includes txt calendarEmoji) eqn:Hinc; simpl; [| discriminate].
  intros [= <-]. simpl. repeat split.
  - unfold hasCalendarMarker. simpl. now apply occursBy_app.
  - unfold storedDate. simpl.
    destruct (ensureValidStartOfDay_midnight now
      (match extractDateFromText
               (txt ++ match collectNested (length indent) following with
                       | [] => []
                       | _ :: _ => chNewline :: joinLines (collectNested (length indent) following)
                       end) with
       | Some d => Some d
       | None => Some (fileNameDate s now f)
       end)) as [k Hk].
    exists k. now rewrite Hk.
Qed.

Lemma scanLines_facts s now f (lines : list jsstring) i t :
  In t (scanLines s now f i lines) ->
  hasCalendarMarker t = true /\ storedDate t /\ file t = f /\ i <= line t.
Proof.
  revert i. induction lines as [| ln rest IH]; intros i; simpl; [intros [] |].
  destruct (scanLine s now f i ln rest) as [t' |] eqn:Hs.
  - intros [<- | Hin].
    + apply scanLine_facts in Hs as (Hm & Hd & Hf & Hl). repeat split; try assumption. lia.
    + apply IH in Hin as (Hm & Hd & Hf & Hl). repeat split; try assumption. lia.
  - intros Hin. apply IH in Hin as (Hm & Hd & Hf & Hl). repeat split; try assumption. lia.
Qed.

Lemma loadTasksManually_facts v s now t :
  In t (loadTasksManually v s now) -> hasCalendarMarker t = true /\ storedDate t.
Proof.
  unfold loadTasksManually. intros Hin. apply in_flat_map in Hin as (f & _ & Hin).
  destruct (inScanScope (normalizedFolderPathOf s) f); [| destruct Hin].
  destruct (vault_read v f); [| destruct Hin].
  apply scanLines_facts in Hin as (Hm & Hd & _). now split.
Qed.

Lemma apiTaskToTask_facts v s now a t :
  apiTaskToTask v s now a = Some t -> hasCalendarMarker t = true /\ storedDate t.
Proof.
  unfold apiTaskToTask. destruct (apiPath a); [discriminate |].
  destruct (getAbstractFileByPath v _) as [f |]; [| discriminate].
  destruct (inScanScope (normalizedFolderPathOf s) f); simpl; [| discriminate].
  destruct (includes (apiTaskText v f a) calendarEmoji) eqn:Hinc; simpl; [| discriminate].
  intros [= <-]. split; [exact Hinc |].
  unfold storedDate. simpl.
  match goal with
  | |- context [ensureValidStartOfDay now ?d] =>
      destruct (ensureValidStartOfDay_midnight now d) as [k Hk]
  end.
  exists k. now rewrite Hk.
Qed.

Lemma loadTasksFromAPI_facts tasksApi v s now t :
  In t (loadTasksFromAPI tasksApi v s now) -> hasCalendarMarker t = true /\ storedDate t.
Proof.
  unfold loadTasksFromAPI. destruct (apiListing tasksApi) as [allTasks |].
  - intros Hin. apply list_elem_of_In, list_elem_of_omap in Hin as (a & _ & Ha).
    eapply apiTaskToTask_facts; exact Ha.
  - apply loadTasksManually_facts.
Qed.

Lemma rawTasksOf_facts service v s now t :
  In t (rawTasksOf service v s now) -> hasCalendarMarker t = true /\ storedDate t.
Proof.
  destruct service; simpl; [apply loadTasksFromAPI_facts | apply loadTasksManually_facts].
Qed.

Lemma loadTasks_eq service v s now :
  loadTasks service v s now = aggregate (rawTasksOf service v s now).
Proof. reflexivity. Qed.

(** The strategies hand over marked tasks only: the second pass of the
    aggregator drops none of them. *)
Lemma rawTasksOf_marked service v s now :
  Forall (fun x => hasCalendarMarker x = true) (rawTasksOf service v s now).
Proof.
  apply List.Forall_forall. intros t Hin. now apply rawTasksOf_facts in Hin.
Qed.

End AdapterFacts.

(** C4. Every task of the aggregated list carries the calendar emoji in its
    text, whatever raw list the aggregator is given and under either
    discovery strategy of [loadTasks]; a raw task without the emoji is not
    in the aggregated list. *)
Theorem aggregated_tasks_carry_marker `{HostEnv} :
  (forall raw t, In t (aggregate raw) -> includes (text t) calendarEmoji = true) /\
  (forall raw t, In t raw -> includes (text t) calendarEmoji = false ->
                 ~ In t (aggregate raw)) /\
  (forall service v s now t, In t (loadTasks service v s now) ->
                 includes (text t) calendarEmoji = true).
Proof.
  assert (Hagg : forall raw t, In t (aggregate raw) -> includes (text t) calendarEmoji = true).
  { intros raw t Hin. now apply aggregate_subset in Hin as [_ Hm]. }
  split; [exact Hagg |]. split.
  - intros raw t _ Hno Hin. apply Hagg in Hin. congruence.
  - intros service v s now t Hin. eapply Hagg. exact Hin.
Qed.

(** C6. Under either discovery strategy every task of the aggregated list
    has a date that is not null, is a valid Date, and has its hours,
    minutes, seconds and milliseconds at zero. *)
Theorem stored_dates_are_midnights `{HostEnv} (service : option TasksApi)
    (v : Vault) (s : CreateTaskButtonSettings) (now : Z) (t : Task)
    (Hin : In t (loadTasks service v s now)) :
  exists tv, date t = Some (DateValue tv) /\
    HourFromTime tv = 0%Z /\ MinFromTime tv = 0%Z /\
    SecFromTime tv = 0%Z /\ msFromTime tv = 0%Z.
Proof.
  rewrite loadTasks_eq in Hin. apply aggregate_subset in Hin as [Hraw _].
  apply rawTasksOf_facts in Hraw as [_ [d Hd]].
  exists (d * msPerDay)%Z. split; [exact Hd |]. apply midnight_fields.
Qed.

(** C5. When a pair (file path, line) occurs in the raw list on an entry
    that carries the emoji (once, twice or more often), the aggregated list
    holds exactly one task for that pair: the first raw entry of the pair
    that carries the emoji.  The adapters push entries with the emoji only,
    and for such a raw list the task kept is the first occurrence of the
    pair in input order. *)
Theorem deduplication_keeps_first (raw : list Task) (t : Task)
    (Hin : In t raw)
    (Hmark : hasCalendarMarker t = true) :
  exists first before after,
    raw = before ++ first :: after /\
    path (file first) = path (file t) /\ line first = line t /\
    hasCalendarMarker first = true /\
    Forall (fun x => hasCalendarMarker x = true ->
                     ~ (path (file x) = path (file t) /\ line x = line t)) before /\
    (Forall (fun x => hasCalendarMarker x = true) raw ->
     Forall (fun x => ~ (path (file x) = path (file t) /\ line x = line t)) before) /\
    List.filter (fun x => bool_decide (path (file x) = path (file t) /\ line x = line t))
                (aggregate raw) = [first].
Proof.
  pose proof (aggregate_withKey raw (taskKey t)) as Hagg.
  unfold firstWithKey in Hagg. rewrite find_filter in Hagg.
  destruct (List.find (fun x => hasCalendarMarker x && jsstring_eqb (taskKey x) (taskKey t)) raw)
    as [x |] eqn:Hfind.
  - destruct (find_first_split _ _ _ Hfind) as (l1 & l2 & Hraw & Hx & Hall).
    apply andb_true_iff in Hx as [Hxm Hxk].
    apply jsstring_eqb_true, taskKey_inj in Hxk as [Hp Hl].
    assert (Hbefore : Forall (fun y => hasCalendarMarker y = true ->
              ~ (path (file y) = path (file t) /\ line y = line t)) l1).
    { eapply Forall_impl; [exact Hall |]. simpl. intros y Hy Hym Hpair.
      rewrite Hym in Hy. simpl in Hy.
      apply jsstring_eqb_false in Hy. apply Hy. now apply taskKey_inj. }
    exists x, l1, l2.
    repeat match goal with |- _ /\ _ => split end; try assumption.
    + intros Hmarked. rewrite Hraw in Hmarked. apply Forall_app in Hmarked as [Hm1 _].
      rewrite List.Forall_forall in *. intros y Hy. apply (Hbefore y Hy). now apply Hm1.
    + rewrite <- Hagg. unfold withKey. apply filter_ext. intros y.
      case_bool_decide as Hd.
      * symmetry. now apply jsstring_eqb_true, taskKey_inj.
      * symmetry. apply jsstring_eqb_false. intros Hk. apply Hd. now apply taskKey_inj.
  - exfalso. eapply find_none in Hfind; [| exact Hin].
    rewrite Hmark in Hfind. simpl in Hfind.
    apply jsstring_eqb_false in Hfind. now apply Hfind.
Qed.

(** ** Lines of a note, and the checklist patterns *)

Section LineFacts.

Lemma splitLines_nonempty (s : jsstring) : splitLines s <> [].
Proof.
  destruct s as [| c s]; simpl; [discriminate |].
  destruct (c =? chNewline)%N; [discriminate |].
  destruct (splitLines s); discriminate.
Qed.

Lemma splitLines_noNewline (s : jsstring) : Forall noNewline (splitLines s).
Proof.
  induction s as [| c s IH]; simpl.
  - constructor; [intros [] | constructor].
  - destruct (N.eqb_spec c chNewline) as [-> | Hne].
    + constructor; [intros [] | exact IH].
    + destruct (splitLines s) as [| l ls]; [constructor; [| constructor] |].
      * intros [-> | []]. now apply Hne.
      * inversion IH as [| ? ? Hl Hls]; subst. constructor; [| exact Hls].
        intros [-> | Hin]; [now apply Hne | now apply Hl].
Qed.

Lemma splitLines_line (l s : jsstring) :
  noNewline l -> splitLines (l ++ chNewline :: s) = l :: splitLines s.
Proof.
  induction l as [| c l IH]; intros Hl; simpl.
  - reflexivity.
  - destruct (N.eqb_spec c chNewline) as [-> | Hne].
    + exfalso. apply Hl. now left.
    + rewrite IH; [reflexivity |]. intros Hin. apply Hl. now right.
Qed.

Lemma splitLines_single (l : jsstring) : noNewline l -> splitLines l = [l].
Proof.
  induction l as [| c l IH]; intros Hl; simpl; [reflexivity |].
  destruct (N.eqb_spec c chNewline) as [-> | Hne].
  - exfalso. apply Hl. now left.
  - rewrite IH; [reflexivity |]. intros Hin. apply Hl. now right.
Qed.

(** Splitting what was joined gives the lines back. *)
Lemma splitLines_joinLines (ls : list jsstring) :
  ls <> [] -> Forall noNewline ls -> splitLines (joinLines ls) = ls.
Proof.
  induction ls as [| l ls IH]; intros Hne Hall; [contradiction |].
  inversion Hall as [| ? ? Hl Hls]; subst.
  destruct ls as [| l2 ls].
  - simpl. now apply splitLines_single.
  - change (joinLines (l :: l2 :: ls)) with (l ++ chNewline :: joinLines (l2 :: ls)).
    rewrite splitLines_line by exact Hl. f_equal. apply IH; [discriminate | exact Hls].
Qed.

Lemma span_spec (f : jschar -> bool) (s a b : jsstring) :
  span f s = (a, b) ->
  s = a ++ b /\ Forall (fun c => f c = true) a /\
  match b with [] => True | c :: _ => f c = false end.
Proof.
  revert a b. induction s as [| c s IH]; intros a b; simpl.
  - intros [= <- <-]. repeat split. constructor.
  - destruct (f c) eqn:Hc.
    + destruct (span f s) as [a' b'] eqn:Hs. intros [= <- <-].
      destruct (IH a' b' eq_refl) as (-> & Ha & Hb).
      repeat split; [now constructor | exact Hb].
    + intros [= <- <-]. repeat split; [constructor | exact Hc].
Qed.

Lemma span_app (f : jschar -> bool) (a b : jsstring) :
  Forall (fun c => f c = true) a ->
  match b with [] => True | c :: _ => f c = false end ->
  span f (a ++ b) = (a, b).
Proof.
  intros Ha Hb. induction Ha as [| c a Hc _ IH]; simpl.
  - destruct b as [| c b]; [reflexivity |]. simpl. now rewrite Hb.
  - now rewrite Hc, IH.
Qed.

Lemma isBullet_not_space (b : jschar) : isBullet b = true -> isWhiteSpace b = false.
Proof.
  unfold isBullet. intros Hb. apply orb_true_iff in Hb as [Hb | Hb];
    apply N.eqb_eq in Hb; subst; reflexivity.
Qed.

(** What a matched head looks like. *)
Lemma matchTaskHead_sound (ln indent r : jsstring) (b m : jschar) :
  matchTaskHead ln = Some (indent, b, m, r) ->
  exists sp,
    ln = indent ++ b :: sp ++ chLBracket :: m :: chRBracket :: r /\
    Forall (fun c => isWhiteSpace c = true) indent /\ isBullet b = true /\
    sp <> [] /\ Forall (fun c => isWhiteSpace c = true) sp /\ isMarker m = true.
Proof.
  unfold matchTaskHead.
  destruct (span isWhiteSpace ln) as [w r1] eqn:Hw.
  destruct r1 as [| b0 r2]; [discriminate |].
  destruct (isBullet b0) eqn:Hb; [| discriminate].
  destruct (span isWhiteSpace r2) as [sp r3] eqn:Hsp.
  destruct sp as [| s0 sp]; [discriminate |].
  destruct r3 as [| lb [| m0 [| rb r4]]]; try discriminate.
  destruct (N.eqb_spec lb chLBracket) as [-> | ]; simpl; [| discriminate].
  destruct (isMarker m0) eqn:Hm; simpl; [| discriminate].
  destruct (N.eqb_spec rb chRBracket) as [-> | ]; [| discriminate].
  intros [= <- <- <- <-].
  apply span_spec in Hw as (-> & Hw & _). apply span_spec in Hsp as (-> & Hsp & _).
  exists (s0 :: sp). repeat split; try assumption. discriminate.
Qed.

(** A head written with one space before the bracket is read back. *)
Lemma matchTaskHead_canonical (w r : jsstring) (b m : jschar) :
  Forall (fun c => isWhiteSpace c = true) w -> isBullet b = true -> isMarker m = true ->
  matchTaskHead (w ++ b :: chSpace :: chLBracket :: m :: chRBracket :: r) = Some (w, b, m, r).
Proof.
  intros Hw Hb Hm. unfold matchTaskHead.
  rewrite span_app; [| exact Hw | now apply isBullet_not_space].
  rewrite Hb.
  change (chSpace :: chLBracket :: m :: chRBracket :: r)
    with ([chSpace] ++ chLBracket :: m :: chRBracket :: r).
  rewrite span_app; [| repeat constructor | reflexivity].
  simpl. now rewrite Hm.
Qed.

(** The first split, counting down from [k], that leaves a text. *)
Lemma matchTailFrom_sound (k : nat) (s txt : jsstring) :
  matchTailFrom k s = Some txt ->
  exists j, 1 <= j <= k /\ txt = drop j s /\ txt <> [] /\
    forallb notLineTerminator txt = true /\
    forall j', j < j' <= k ->
      drop j' s = [] \/ forallb notLineTerminator (drop j' s) = false.
Proof.
  induction k as [| k IH]; simpl; [discriminate |].
  destruct (negb (bool_decide (drop (S k) s = [])) && forallb notLineTerminator (drop (S k) s))
    eqn:Hok.
  - intros [= <-]. apply andb_true_iff in Hok as [Hne Hall].
    apply negb_true_iff, bool_decide_eq_false in Hne.
    exists (S k). repeat split; try assumption; try lia.
  - intros Hm. destruct (IH Hm) as (j & Hj & -> & Hne & Hall & Hlater).
    exists j. repeat split; try assumption; try lia.
    intros j' Hj'. destruct (decide (j' = S k)) as [-> | Hn].
    + apply andb_false_iff in Hok as [Hok | Hok]; [left | now right].
      now apply negb_false_iff, bool_decide_eq_true in Hok.
    + apply Hlater. lia.
Qed.

Lemma forallb_drop_false (f : jschar -> bool) (s : jsstring) (j : nat) :
  forallb f (drop (S j) s) = false -> forallb f (drop j s) = false.
Proof.
  revert s. induction j as [| j IH]; intros s.
  - destruct s as [| c s]; simpl; [discriminate |]. rewrite drop_0.
    intros ->. apply andb_false_r.
  - destruct s as [| c s]; simpl; [discriminate |]. apply IH.
Qed.

Lemma matchTail_sound (r txt : jsstring) :
  matchTail r = Some txt ->
  tailShape txt /\
  exists sp, r = sp ++ txt /\ sp <> [] /\ Forall (fun c => isWhiteSpace c = true) sp.
Proof.
  unfold matchTail. destruct (span isWhiteSpace r) as [w rest] eqn:Hw. simpl.
  intros Hm. apply span_spec in Hw as (-> & Hw & Hrest).
  apply matchTailFrom_sound in Hm as (j & Hj & -> & Hne & Hall & Hlater).
  assert (Hsp : Forall (fun c => isWhiteSpace c = true) (take j (w ++ rest))).
  { rewrite take_app_le by lia. now apply Forall_take. }
  split.
  - split; [exact Hne |]. split; [exact Hall |].
    destruct (decide (j = length w)) as [-> | Hlt].
    + left. rewrite drop_app_length in Hne |- *.
      destruct rest; [contradiction | exact Hrest].
    + right. destruct (Hlater (S j) ltac:(lia)) as [Hnil | Hlt'].
      * assert (Hlen : length (w ++ rest) = S j).
        { apply (f_equal length) in Hnil. rewrite length_drop in Hnil. simpl in Hnil.
          assert (Hpos : length (drop j (w ++ rest)) <> 0).
          { destruct (drop j (w ++ rest)); simpl; [contradiction | lia]. }
          rewrite length_drop in Hpos. lia. }
        rewrite length_app in Hlen.
        assert (rest = []) by (destruct rest; [reflexivity | simpl in Hlen; lia]). subst rest.
        rewrite app_nil_r in *. simpl in Hlen. rewrite Nat.add_0_r in Hlen.
        destruct (drop j w) as [| c [| c' t]] eqn:Hd; [contradiction | | ].
        -- exists c. split; [reflexivity |].
           assert (Hin : In c w).
           { rewrite <- (take_drop j w), Hd. apply in_or_app. right. now left. }
           rewrite List.Forall_forall in Hw. now apply Hw.
        -- apply (f_equal length) in Hd. rewrite length_drop in Hd. simpl in Hd. lia.
      * apply forallb_drop_false in Hlt'. congruence.
  - exists (take j (w ++ rest)). split; [now rewrite take_drop |].
    split; [| exact Hsp].
    intros Hnil. apply (f_equal length) in Hnil. rewrite length_take in Hnil.
    rewrite length_app in Hnil. simpl in Hnil. lia.
Qed.

(** A captured text is captured again behind a single space. *)
Lemma matchTail_canonical (txt : jsstring) :
  tailShape txt -> matchTail (chSpace :: txt) = Some txt.
Proof.
  intros (Hne & Hall & [Hhead | (c & -> & Hc)]).
  - destruct txt as [| c t]; [contradiction |].
    unfold matchTail. change (chSpace :: c :: t) with ([chSpace] ++ c :: t).
    rewrite span_app; [| repeat constructor | exact Hhead].
    simpl. simpl in Hall. rewrite Hall. reflexivity.
  - unfold matchTail. simpl. rewrite Hc. simpl.
    simpl in Hall. rewrite Hall. reflexivity.
Qed.

Lemma isMarker_cases (m : jschar) :
  isMarker m = true <->
  m = chSpace \/ m = chX \/ m = 88%N \/ m = checkMark \/ m = whiteHeavyCheckMark.
Proof.
  unfold isMarker. rewrite !orb_true_iff, !N.eqb_eq.
  unfold chSpace, chX. intuition.
Qed.

(** What a line matched by the toggle pattern looks like. *)
Lemma matchToggleLine_sound (ln indent txt : jsstring) (m : jschar) :
  matchToggleLine ln = Some (indent, m, txt) ->
  exists w b sp1 sp2,
    indent = w ++ [b] /\
    ln = indent ++ sp1 ++ chLBracket :: m :: chRBracket :: sp2 ++ txt /\
    Forall (fun c => isWhiteSpace c = true) w /\ isBullet b = true /\
    sp1 <> [] /\ Forall (fun c => isWhiteSpace c = true) sp1 /\
    sp2 <> [] /\ Forall (fun c => isWhiteSpace c = true) sp2 /\
    isMarker m = true /\ tailShape txt.
Proof.
  unfold matchToggleLine.
  destruct (matchTaskHead ln) as [[[[w b] m0] r] |] eqn:Hh; [| discriminate].
  destruct (matchTail r) as [t |] eqn:Ht; [| discriminate].
  intros [= <- <- <-].
  apply matchTaskHead_sound in Hh as (sp1 & -> & Hw & Hb & Hsp1 & Hws1 & Hm).
  apply matchTail_sound in Ht as (Hshape & sp2 & -> & Hsp2 & Hws2).
  exists w, b, sp1, sp2.
  split; [reflexivity |]. split; [now rewrite <- app_assoc |].
  repeat match goal with |- _ /\ _ => split end; assumption.
Qed.

(** The line the toggle writes is matched again, with the same groups. *)
Lemma matchToggleLine_checklistLine (w txt : jsstring) (b status : jschar) :
  Forall (fun c => isWhiteSpace c = true) w -> isBullet b = true ->
  isMarker status = true -> tailShape txt ->
  matchToggleLine (checklistLine (w ++ [b]) status txt) = Some (w ++ [b], status, txt).
Proof.
  intros Hw Hb Hm Ht. unfold matchToggleLine, checklistLine.
  replace ((w ++ [b]) ++ u16 " [" ++ [status] ++ u16 "] " ++ txt)
    with (w ++ b :: chSpace :: chLBracket :: status :: chRBracket :: chSpace :: txt)
    by (rewrite <- app_assoc; reflexivity).
  rewrite matchTaskHead_canonical by assumption.
  now rewrite matchTail_canonical.
Qed.

End LineFacts.

(** ** The direct toggle *)

Section ToggleFacts.

Lemma vault_modify_spec (v v' : Vault) (f : TFile) (data : jsstring) :
  vault_modify v f data = Some v' ->
  vaultText v' = <[path f := data]> (vaultText v) /\
  vaultFiles v' = vaultFiles v /\ vaultRefused v' = vaultRefused v /\
  (path f ∉ vaultRefused v) /\ vault_read v' f = Some data.
Proof.
  unfold vault_modify, vault_read.
  destruct (vaultText v !! path f); [| discriminate].
  destruct (decide (path f ∈ vaultRefused v)); [discriminate |].
  intros [= <-]. simpl. repeat split; try assumption.
  apply lookup_insert_eq.
Qed.

Lemma vault_modify_accepts (v : Vault) (f : TFile) (old data : jsstring) :
  vault_read v f = Some old -> path f ∉ vaultRefused v ->
  exists v', vault_modify v f data = Some v'.
Proof.
  unfold vault_modify, vault_read. intros -> Hw.
  destruct (decide (path f ∈ vaultRefused v)); [contradiction |]. eexists. reflexivity.
Qed.

(** A failed direct toggle changes neither the notes nor the task. *)
Lemma direct_failure (v : Vault) (task : Task) :
  trSuccess (toggleTaskCompletionDirect v task) = false ->
  toggleTaskCompletionDirect v task = mkToggleResult v task false.
Proof.
  unfold toggleTaskCompletionDirect.
  destruct (vault_read v (file task)); [| reflexivity].
  case_bool_decide; [reflexivity |].
  destruct (splitLines _ !! line task); [| reflexivity].
  destruct (matchToggleLine _) as [[[indent m] txt] |]; [| reflexivity].
  destruct (vault_modify _ _ _); [discriminate | reflexivity].
Qed.

Lemma In_noNewline_app (a b : jsstring) : noNewline (a ++ b) <-> noNewline a /\ noNewline b.
Proof. unfold noNewline. rewrite in_app_iff. intuition. Qed.

(** One direct toggle on a matching line whose write is accepted. *)
Lemma direct_step (v v' : Vault) (task : Task) (content ln indent txt : jsstring) (m : jschar) :
  vault_read v (file task) = Some content ->
  splitLines content !! line task = Some ln ->
  matchToggleLine ln = Some (indent, m, txt) ->
  let newLine := checklistLine indent (newStatusOf m) txt in
  let lines' := <[line task := newLine]> (splitLines content) in
  vault_modify v (file task) (joinLines lines') = Some v' ->
  toggleTaskCompletionDirect v task =
    mkToggleResult v' (setCompleted task (markerCompleted (newStatusOf m))) true /\
  vault_read v' (file task) = Some (joinLines lines') /\
  splitLines (joinLines lines') = lines' /\
  lines' !! line task = Some newLine /\
  matchToggleLine newLine = Some (indent, newStatusOf m, txt).
Proof.
  intros Hread Hline Hmatch newLine lines' Hmod.
  pose proof (lookup_lt_Some _ _ _ Hline) as Hlt.
  destruct (matchToggleLine_sound _ _ _ _ Hmatch)
    as (w & b & sp1 & sp2 & Hindent & Hln & Hw & Hb & _ & _ & _ & _ & Hm & Hshape).
  assert (HnewMarker : isMarker (newStatusOf m) = true).
  { unfold newStatusOf. destruct (markerCompleted m); reflexivity. }
  assert (Hnl : noNewline ln).
  { pose proof (splitLines_noNewline content) as Hall.
    rewrite List.Forall_forall in Hall. apply Hall.
    apply list_elem_of_In. eapply list_elem_of_lookup_2. exact Hline. }
  assert (Hnew : noNewline newLine).
  { subst newLine. unfold checklistLine. rewrite Hln in Hnl.
    repeat (apply In_noNewline_app in Hnl as [? Hnl]).
    assert (noNewline txt).
    { intros Hin. apply Hnl. right. right. right. apply in_or_app. now right. }
    repeat (apply In_noNewline_app; split); try assumption.
    - intros [Hc | [Hc | []]]; discriminate.
    - unfold newStatusOf. destruct (markerCompleted m); intros [Hc | []]; discriminate.
    - intros [Hc | [Hc | []]]; discriminate. }
  split; [| split; [| split; [| split]]].
  - unfold toggleTaskCompletionDirect. rewrite Hread.
    rewrite bool_decide_eq_false_2 by lia.
    rewrite Hline, Hmatch. cbv zeta. fold newLine lines'. rewrite Hmod. reflexivity.
  - now apply vault_modify_spec in Hmod.
  - apply splitLines_joinLines.
    + subst lines'. intros Hnil. apply (f_equal length) in Hnil.
      rewrite length_insert in Hnil. simpl in Hnil. lia.
    + subst lines'. apply Forall_insert; [apply splitLines_noNewline | exact Hnew].
  - subst lines'. now apply list_lookup_insert_eq.
  - subst newLine. rewrite Hindent. now apply matchToggleLine_checklistLine.
Qed.

(** A successful direct toggle met a matching line and had its write
    accepted. *)
Lemma direct_success (v : Vault) (task : Task) :
  trSuccess (toggleTaskCompletionDirect v task) = true ->
  exists content ln indent m txt,
    vault_read v (file task) = Some content /\
    splitLines content !! line task = Some ln /\
    matchToggleLine ln = Some (indent, m, txt) /\
    vault_modify v (file task)
      (joinLines (<[line task := checklistLine indent (newStatusOf m) txt]> (splitLines content)))
    = Some (trVault (toggleTaskCompletionDirect v task)).
Proof.
  unfold toggleTaskCompletionDirect.
  destruct (vault_read v (file task)) as [content |] eqn:Hread; [| discriminate].
  case_bool_decide; [discriminate |].
  destruct (splitLines content !! line task) as [ln |] eqn:Hline; [| discriminate].
  destruct (matchToggleLine ln) as [[[indent m] txt] |] eqn:Hmatch; [| discriminate].
  destruct (vault_modify _ _ _) as [v' |] eqn:Hmod; [| discriminate].
  intros _. exists content, ln, indent, m, txt. simpl.
  split; [reflexivity |]. split; [exact Hline |]. split; [exact Hmatch | exact Hmod].
Qed.

(** Both at once: what a successful direct toggle did. *)
Lemma direct_success_step (v : Vault) (task : Task) :
  trSuccess (toggleTaskCompletionDirect v task) = true ->
  exists content ln indent m txt v',
    vault_read v (file task) = Some content /\
    splitLines content !! line task = Some ln /\
    matchToggleLine ln = Some (indent, m, txt) /\
    toggleTaskCompletionDirect v task =
      mkToggleResult v' (setCompleted task (markerCompleted (newStatusOf m))) true /\
    vault_read v' (file task) =
      Some (joinLines (<[line task := checklistLine indent (newStatusOf m) txt]> (splitLines content))) /\
    splitLines (joinLines (<[line task := checklistLine indent (newStatusOf m) txt]> (splitLines content)))
      = <[line task := checklistLine indent (newStatusOf m) txt]> (splitLines content) /\
    matchToggleLine (checklistLine indent (newStatusOf m) txt) = Some (indent, newStatusOf m, txt).
Proof.
  intros Hs.
  destruct (direct_success v task Hs)
    as (content & ln & indent & m & txt & Hread & Hline & Hmatch & Hmod).
  destruct (direct_step v _ task content ln indent txt m Hread Hline Hmatch Hmod)
    as (Hr & Hread' & Hsplit & _ & Hmatch').
  exists content, ln, indent, m, txt, (trVault (toggleTaskCompletionDirect v task)).
  repeat match goal with |- _ /\ _ => split end; assumption.
Qed.

(** After a successful direct toggle the next one succeeds too. *)
Lemma second_toggle_succeeds (v : Vault) (task : Task) :
  trSuccess (toggleTaskCompletionDirect v task) = true ->
  trSuccess (toggleTaskCompletionDirect
               (trVault (toggleTaskCompletionDirect v task))
               (trTask (toggleTaskCompletionDirect v task))) = true.
Proof.
  intros Hs.
  destruct (direct_success v task Hs)
    as (content & ln & indent & m & txt & Hread & Hline & Hmatch & Hmod).
  destruct (direct_step v _ task content ln indent txt m Hread Hline Hmatch Hmod)
    as (Hr & Hread' & Hsplit & Hline' & Hmatch').
  apply vault_modify_spec in Hmod as (_ & _ & Hrefused & Hnot & _).
  rewrite Hr in *. simpl trVault in *. simpl trTask in *.
  set (task1 := setCompleted task (markerCompleted (newStatusOf m))) in *.
  set (v1 := trVault (toggleTaskCompletionDirect v task)) in *.
  assert (Hread1 : vault_read v1 (file task1) =
            Some (joinLines (<[line task := checklistLine indent (newStatusOf m) txt]> (splitLines content))))
    by exact Hread'.
  assert (Hline1 : splitLines (joinLines (<[line task := checklistLine indent (newStatusOf m) txt]>
                                            (splitLines content))) !! line task1
                   = Some (checklistLine indent (newStatusOf m) txt)).
  { rewrite Hsplit. exact Hline'. }
  assert (Hnot1 : path (file task1) ∉ vaultRefused v1) by (rewrite Hrefused; exact Hnot).
  destruct (vault_modify_accepts v1 (file task1) _
              (joinLines (<[line task1 := checklistLine indent (newStatusOf (newStatusOf m)) txt]>
                 (splitLines (joinLines (<[line task := checklistLine indent (newStatusOf m) txt]>
                                           (splitLines content))))))
              Hread1 Hnot1) as [v2 Hmod2].
  destruct (direct_step v1 v2 task1 _ _ indent txt (newStatusOf m) Hread1 Hline1 Hmatch' Hmod2)
    as (Hr2 & _).
  rewrite Hr2. reflexivity.
Qed.

Lemma newStatusOf_twice (m : jschar) :
  newStatusOf (newStatusOf m) = if markerCompleted m then chX else chSpace.
Proof. unfold newStatusOf. destruct (markerCompleted m); reflexivity. Qed.

End ToggleFacts.

(** C10. On a line that matches the checklist pattern the direct toggle
    writes back the first group (indent and bullet), one space, the new
    marker in brackets, one space and the captured task text, the other
    lines of the note being kept; the new marker is a space when the current
    one is x, X or one of the two check marks, and x when it is a space; the
    captured text is the end of the original line. *)
Theorem direct_toggle_rewrites_line (v : Vault) (task : Task)
    (content ln indent txt : jsstring) (m : jschar)
    (Hread : vault_read v (file task) = Some content)
    (Hline : splitLines content !! line task = Some ln)
    (Hmatch : matchToggleLine ln = Some (indent, m, txt))
    (Hwrite : path (file task) ∉ vaultRefused v) :
  let newMarker := if bool_decide (m = chSpace) then chX else chSpace in
  let newLine := indent ++ u16 " [" ++ [newMarker] ++ u16 "] " ++ txt in
  let r := toggleTaskCompletionDirect v task in
  trSuccess r = true /\
  (exists content',
     vault_read (trVault r) (file task) = Some content' /\
     splitLines content' = <[line task := newLine]> (splitLines content)) /\
  (m = chSpace \/ m = chX \/ m = 88%N \/ m = checkMark \/ m = whiteHeavyCheckMark) /\
  (exists sp1 sp2,
     ln = indent ++ sp1 ++ chLBracket :: m :: chRBracket :: sp2 ++ txt) /\
  isCompleted (trTask r) = bool_decide (m = chSpace).
Proof.
  intros newMarker newLine r.
  assert (HnewMarker : newMarker = newStatusOf m).
  { subst newMarker. unfold newStatusOf, markerCompleted.
    case_bool_decide as Hm; [subst m; reflexivity |].
    apply N.eqb_neq in Hm. now rewrite Hm. }
  assert (HnewLine : newLine = checklistLine indent (newStatusOf m) txt).
  { subst newLine. now rewrite HnewMarker. }
  destruct (vault_modify_accepts v (file task) content
              (joinLines (<[line task := newLine]> (splitLines content))) Hread Hwrite)
    as [v' Hmod].
  rewrite HnewLine in Hmod.
  destruct (direct_step v v' task content ln indent txt m Hread Hline Hmatch Hmod)
    as (Hr & Hread' & Hsplit & _ & _).
  fold r in Hr. rewrite Hr. simpl.
  destruct (matchToggleLine_sound _ _ _ _ Hmatch)
    as (w & b & sp1 & sp2 & _ & Hln & _ & _ & _ & _ & _ & _ & Hm & _).
  split; [reflexivity |].
  split; [exists (joinLines (<[line task := newLine]> (splitLines content)));
          rewrite HnewLine; split; assumption |].
  split; [now apply isMarker_cases |].
  split; [exists sp1, sp2; exact Hln |].
  unfold newStatusOf, markerCompleted.
  case_bool_decide as Hsp.
  - subst m. reflexivity.
  - apply N.eqb_neq in Hsp. now rewrite Hsp.
Qed.

(** C2, as amended. After two direct toggles in a row that both succeed the
    flag [isCompleted] is the one the original marker stands for (so it is
    the original value whenever the flag agreed with the marker), and the
    line carries the original indent, bullet and text with the marker a
    space if it was a space and x otherwise: the marker is restored for the
    space and for x, and X and the two check marks come back as x. *)
Theorem double_toggle_normalizes (v : Vault) (task : Task)
    (Hfirst : trSuccess (toggleTaskCompletionDirect v task) = true)
    (Hsecond : trSuccess (toggleTaskCompletionDirect
                            (trVault (toggleTaskCompletionDirect v task))
                            (trTask (toggleTaskCompletionDirect v task))) = true) :
  let r1 := toggleTaskCompletionDirect v task in
  let r2 := toggleTaskCompletionDirect (trVault r1) (trTask r1) in
  exists content ln indent m txt,
    vault_read v (file task) = Some content /\
    splitLines content !! line task = Some ln /\
    matchToggleLine ln = Some (indent, m, txt) /\
    isCompleted (trTask r2) = markerCompleted m /\
    (isCompleted task = markerCompleted m -> isCompleted (trTask r2) = isCompleted task) /\
    let finalMarker := if markerCompleted m then chX else chSpace in
    (exists content2 ln2,
       vault_read (trVault r2) (file task) = Some content2 /\
       splitLines content2 =
         <[line task := indent ++ u16 " [" ++ [finalMarker] ++ u16 "] " ++ txt]> (splitLines content) /\
       splitLines content2 !! line task = Some ln2 /\
       matchToggleLine ln2 = Some (indent, finalMarker, txt)) /\
    (m = chSpace \/ m = chX -> finalMarker = m) /\
    (m = 88%N \/ m = checkMark \/ m = whiteHeavyCheckMark -> finalMarker = chX).
Proof.
  cbv zeta.
  destruct (direct_success_step v task Hfirst)
    as (content & ln & indent & m & txt & v1 & Hread & Hline & Hmatch & Hr1 & Hread1 & Hsplit1 & Hmatch1).
  pose proof (lookup_lt_Some _ _ _ Hline) as Hlt.
  rewrite Hr1 in Hsecond |- *. simpl trVault in *. simpl trTask in *.
  destruct (direct_success_step _ _ Hsecond)
    as (content1 & ln1 & indent1 & m1 & txt1 & v2 & Hread1' & Hline1' & Hmatch1' & Hr2 & Hread2 & Hsplit2 & Hmatch2).
  simpl in Hread1', Hline1', Hr2, Hread2, Hsplit2.
  rewrite Hread1 in Hread1'. injection Hread1' as <-.
  rewrite Hsplit1 in Hline1', Hread2, Hsplit2.
  rewrite list_lookup_insert_eq in Hline1' by exact Hlt. injection Hline1' as <-.
  rewrite Hmatch1 in Hmatch1'. injection Hmatch1' as <- <- <-.
  rewrite list_insert_insert_eq in Hread2, Hsplit2.
  rewrite newStatusOf_twice in Hr2, Hread2, Hsplit2, Hmatch2.
  rewrite Hr2. simpl trVault. simpl trTask.
  assert (Hflag : isCompleted (setCompleted (setCompleted task (markerCompleted (newStatusOf m)))
                                 (markerCompleted (if markerCompleted m then chX else chSpace)))
                  = markerCompleted m).
  { simpl. destruct (markerCompleted m); reflexivity. }
  exists content, ln, indent, m, txt.
  split; [exact Hread |]. split; [exact Hline |]. split; [exact Hmatch |].
  split; [exact Hflag |]. split; [intros Hagree; congruence |].
  split; [| split].
  - eexists. eexists. split; [exact Hread2 |]. split; [exact Hsplit2 |].
    split; [| exact Hmatch2].
    rewrite Hsplit2. apply list_lookup_insert_eq. exact Hlt.
  - intros [-> | ->]; reflexivity.
  - intros [-> | [-> | ->]]; reflexivity.
Qed.

(** ** The fallback chain *)

Section ChainFacts.

Lemma tryEffect_harmless (e : ExtEffect) (v : Vault) (task : Task) :
  effectAtomic e -> stepHarmless v task (tryEffect e v task).
Proof.
  intros He. unfold tryEffect. destruct (e v) as [v' | v'] eqn:Hev; simpl.
  - discriminate.
  - now apply He in Hev.
Qed.

Lemma tryOptionalEffect_harmless (e : option ExtEffect) (v : Vault) (task : Task) :
  (forall eff, e = Some eff -> effectAtomic eff) ->
  stepHarmless v task (tryOptionalEffect e v task).
Proof.
  intros He. destruct e as [eff |]; simpl; [| reflexivity].
  apply tryEffect_harmless. now apply He.
Qed.

Lemma runCommands_harmless (ws : Workspace) (cmds : list jsstring) (v : Vault) (task : Task) :
  (forall c, effectAtomic (wsExecuteCommandById ws c)) ->
  stepHarmless v task (runCommands ws cmds v task).
Proof.
  intros Hc. induction cmds as [| c cmds IH]; simpl; [reflexivity |].
  pose proof (tryEffect_harmless (wsExecuteCommandById ws c) v task (Hc c)) as Hstep.
  destruct (tryEffect (wsExecuteCommandById ws c) v task) as [r | v']; simpl in *.
  - exact Hstep.
  - subst v'. exact IH.
Qed.

Lemma orNext_harmless (v : Vault) (task : Task) (step : StepResult)
    (next : Vault -> ToggleResult) :
  stepHarmless v task step ->
  (trSuccess (next v) = false -> next v = mkToggleResult v task false) ->
  trSuccess (orNext step next) = false ->
  orNext step next = mkToggleResult v task false.
Proof.
  destruct step as [r | v']; simpl.
  - intros Hr _. exact Hr.
  - intros -> Hn. exact Hn.
Qed.

Lemma toggleTaskViaCommand_failure (ws : Workspace) (v : Vault) (task : Task) :
  (forall c, effectAtomic (wsExecuteCommandById ws c)) ->
  trSuccess (toggleTaskViaCommand ws v task) = false ->
  toggleTaskViaCommand ws v task = mkToggleResult v task false.
Proof.
  intros Hc. unfold toggleTaskViaCommand.
  change (match ?step with Finished r => r | FellThrough v' => toggleTaskCompletionDirect v' task end)
    with (orNext step (fun v' => toggleTaskCompletionDirect v' task)).
  apply orNext_harmless; [| apply direct_failure].
  destruct (wsOpenFile ws (file task)); [| reflexivity].
  destruct (wsIsMarkdownView ws); [| reflexivity].
  now apply runCommands_harmless.
Qed.

Lemma toggleViaExecuteCommand_harmless (tasksApi : TasksApi) (v : Vault) (task : Task) :
  stepHarmless v task (toggleViaExecuteCommand tasksApi v task).
Proof.
  unfold toggleViaExecuteCommand.
  destruct (apiExecuteToggleTaskDoneCommand tasksApi) as [exec |]; [| reflexivity].
  destruct (vault_read v (file task)) as [content |]; [| reflexivity].
  case_bool_decide; [simpl; apply direct_failure |].
  destruct (splitLines content !! line task) as [taskLine |]; [| reflexivity].
  destruct (exec taskLine (path (file task))) as [newTaskLine |]; [| reflexivity].
  destruct (vault_modify _ _ _); [| reflexivity].
  simpl. discriminate.
Qed.

Lemma findApiTask_In (allTasks : list ApiTask) (task : Task) (a : ApiTask) :
  findApiTask allTasks task = Some a -> In a allTasks.
Proof. unfold findApiTask. intros Hf. now apply find_some in Hf as [Hin _]. Qed.

Lemma toggleViaToggleTask_harmless (tasksApi : TasksApi) (ws : Workspace) (v : Vault) (task : Task) :
  serviceAtomic (Some tasksApi) ws ->
  stepHarmless v task (toggleViaToggleTask tasksApi v task).
Proof.
  intros [_ Hs]. unfold toggleViaToggleTask.
  destruct (apiToggleTask tasksApi) as [toggleTask |] eqn:Ht; [| reflexivity].
  destruct (findApiTask _ task) as [a |] eqn:Hf; [| reflexivity].
  apply tryEffect_harmless. apply findApiTask_In in Hf.
  destruct (Hs a Hf) as (Htt & _). now apply Htt.
Qed.

(** A failed call of the whole chain returns the state it was given. *)
Lemma toggleTaskCompletion_failure (service : option TasksApi) (ws : Workspace)
    (v : Vault) (task : Task) :
  serviceAtomic service ws ->
  trSuccess (toggleTaskCompletion service ws v task) = false ->
  toggleTaskCompletion service ws v task = mkToggleResult v task false.
Proof.
  intros Hatomic. destruct service as [tasksApi |]; simpl; [| apply direct_failure].
  pose proof Hatomic as [Hcmd Hs].
  apply orNext_harmless; [apply toggleViaExecuteCommand_harmless |].
  apply orNext_harmless; [now apply (toggleViaToggleTask_harmless tasksApi ws) |].
  destruct (apiListing tasksApi) as [allTasks |] eqn:Hl;
    [| now apply toggleTaskViaCommand_failure].
  destruct (findApiTask allTasks task) as [a |] eqn:Hf;
    [| now apply toggleTaskViaCommand_failure].
  apply findApiTask_In in Hf.
  destruct (Hs a Hf) as (_ & Htoggle & HtoggleDone & Hset).
  apply orNext_harmless; [now apply tryOptionalEffect_harmless |].
  apply orNext_harmless; [now apply tryOptionalEffect_harmless |].
  apply orNext_harmless; [| now apply toggleTaskViaCommand_failure].
  apply tryOptionalEffect_harmless. intros eff Heff.
  destruct (apiSetCompletionStatus a) as [set |] eqn:Hsa; [| discriminate].
  injection Heff as <-. now apply (Hset set).
Qed.

End ChainFacts.

(** C9. When the completion toggle returns failure, with or without the
    service and whatever strategies were tried before the direct one, the
    notes are as they were and the task keeps its [isCompleted] flag; the
    checkbox handler then puts the checkbox back to the value it showed
    before the click and triggers no reload.  Operations of the service and
    host commands are taken to leave the notes alone when they throw. *)
Theorem failed_toggle_changes_nothing (service : option TasksApi) (ws : Workspace)
    (v : Vault) (task : Task)
    (Hatomic : serviceAtomic service ws)
    (Hfail : trSuccess (toggleTaskCompletion service ws v task) = false) :
  let r := toggleTaskCompletion service ws v task in
  trVault r = v /\ trTask r = task /\
  isCompleted (trTask r) = isCompleted task /\
  forall shown : bool,
    let o := onCheckboxChange (toggleTaskCompletion service ws) v task (browserClick shown) in
    coChecked o = shown /\ coVault o = v /\ coTask o = task /\ coReloaded o = false.
Proof.
  intros r. subst r.
  pose proof (toggleTaskCompletion_failure service ws v task Hatomic Hfail) as Hr.
  rewrite Hr. simpl.
  split; [reflexivity |]. split; [reflexivity |]. split; [reflexivity |].
  intros shown. unfold onCheckboxChange. rewrite Hr. simpl.
  unfold browserClick. rewrite negb_involutive. repeat split.
Qed.

(** ** Task creation: the date token and the target date *)

Section CreationFacts.
Context `{HostEnv}.

Lemma startsWithBy_prefix (ci : bool) (p x s : jsstring) :
  startsWithBy ci (p ++ x) s = true -> startsWithBy ci p s = true.
Proof.
  revert s. induction p as [| a p IH]; intros s; simpl; [reflexivity |].
  destruct s as [| b s]; [discriminate |].
  intros Hs. apply andb_true_iff in Hs as [Ha Hp]. now rewrite Ha, IH.
Qed.

Lemma occursBy_prefix (ci : bool) (p x s : jsstring) :
  occursBy ci (p ++ x) s = true -> occursBy ci p s = true.
Proof.
  induction s as [| b s IH]; simpl.
  - rewrite !orb_false_r. apply startsWithBy_prefix.
  - intros Ho. apply orb_true_iff in Ho as [Hs | Ho].
    + apply (startsWithBy_prefix ci p x (b :: s)) in Hs. simpl in Hs.
      rewrite Hs. reflexivity.
    + rewrite IH by exact Ho. apply orb_true_r.
Qed.

Lemma eqChar_refl (ci : bool) (c : jschar) : eqChar ci c c = true.
Proof. unfold eqChar. destruct ci; apply N.eqb_refl. Qed.

Lemma startsWithBy_self (ci : bool) (p x : jsstring) : startsWithBy ci p (p ++ x) = true.
Proof. induction p as [| a p IH]; simpl; [reflexivity |]. now rewrite eqChar_refl, IH. Qed.

Lemma occursBy_inside (ci : bool) (p a b : jsstring) : occursBy ci p (a ++ p ++ b) = true.
Proof.
  induction a as [| c a IH]; simpl.
  - destruct (p ++ b) eqn:Hpb; simpl; rewrite <- Hpb, startsWithBy_self; reflexivity.
  - rewrite IH. apply orb_true_r.
Qed.

(** The pattern of [hasDate] looks for a keyword followed by a colon, or
    for the emoji: its double-colon alternatives add nothing. *)
Lemma hasDate_keywords (taskLine : jsstring) :
  hasDate taskLine =
  existsb (fun kw => occursBy true kw taskLine)
          [u16 "due:"; u16 "start:"; u16 "scheduled:"; calendarEmoji].
Proof.
  unfold hasDate, hasDateMarkers. simpl.
  pose proof (occursBy_prefix true (u16 "due:") (u16 ":") taskLine) as Hd.
  pose proof (occursBy_prefix true (u16 "start:") (u16 ":") taskLine) as Hs.
  pose proof (occursBy_prefix true (u16 "scheduled:") (u16 ":") taskLine) as Hc.
  change (u16 "due:" ++ u16 ":") with (u16 "due::") in Hd.
  change (u16 "start:" ++ u16 ":") with (u16 "start::") in Hs.
  change (u16 "scheduled:" ++ u16 ":") with (u16 "scheduled::") in Hc.
  destruct (occursBy true (u16 "due::") taskLine);
    destruct (occursBy true (u16 "due:") taskLine);
    destruct (occursBy true (u16 "start::") taskLine);
    destruct (occursBy true (u16 "start:") taskLine);
    destruct (occursBy true (u16 "scheduled::") taskLine);
    destruct (occursBy true (u16 "scheduled:") taskLine);
    destruct (occursBy true calendarEmoji taskLine);
    simpl; try reflexivity;
    first [ discriminate (Hd eq_refl) | discriminate (Hs eq_refl) | discriminate (Hc eq_refl) ].
Qed.

End CreationFacts.

(** C7, as amended. With an explicit date, the token [ due::YYYY-MM-DD] is
    appended to the trimmed task line if and only if the line holds none of
    [due:], [start:], [scheduled:] (in any letter case) and no calendar
    emoji; a bare date in the line does not prevent it.  The target date is
    then the date that the re-scan of the finalized line extracts, and
    without one the supplied date; today is the default only when no date
    was supplied. *)
Theorem creation_date_resolution `{HostEnv} (t now : Z) (taskLine : jsstring) :
  let finalTaskLine := finalTaskLineOf (Some t) taskLine in
  let marked :=
    existsb (fun kw => occursBy true kw taskLine)
            [u16 "due:"; u16 "start:"; u16 "scheduled:"; calendarEmoji] in
  finalTaskLine =
    (if marked then taskLine
     else trim taskLine ++ u16 " due::" ++ formatDateStr t) /\
  (finalTaskLine <> taskLine <-> marked = false) /\
  targetDateOf (Some t) now finalTaskLine =
    match extractDateFromText finalTaskLine with
    | Some extractedDate => extractedDate
    | None => DateValue t
    end /\
  (forall ln, targetDateOf None now ln =
    match extractDateFromText ln with
    | Some extractedDate => extractedDate
    | None => DateValue now
    end).
Proof.
  intros finalTaskLine marked.
  assert (Hfinal : finalTaskLine =
            if marked then taskLine else trim taskLine ++ u16 " due::" ++ formatDateStr t).
  { subst finalTaskLine marked. unfold finalTaskLineOf.
    rewrite hasDate_keywords. now destruct (existsb _ _). }
  split; [exact Hfinal |]. split; [| split].
  - rewrite Hfinal. destruct marked eqn:Hm.
    + split; [intros Hne; now contradiction Hne | discriminate].
    + split; [reflexivity |]. intros _ Heq.
      assert (Ho : occursBy true (u16 "due:") taskLine = true).
      { rewrite <- Heq.
        change (u16 " due::" ++ formatDateStr t)
          with (u16 " " ++ u16 "due:" ++ (u16 ":" ++ formatDateStr t)).
        rewrite app_assoc. apply occursBy_inside. }
      subst marked. simpl in Hm. rewrite Ho in Hm. discriminate.
  - unfold targetDateOf. simpl. now destruct (extractDateFromText finalTaskLine).
  - intros ln. unfold targetDateOf. simpl. now destruct (extractDateFromText ln).
Qed.

(** ** The statements on the sample notes *)

Section Samples.
Import Sample.

(** The scan of the sample note finds its three marked tasks. *)
Example sample_scan : loadTasks None vault settings now = tasks.
Proof. vm_compute. reflexivity. Qed.

(** A task without a date takes the first day of the month its note is
    named after. *)
Example sample_filename_fallback :
  loadTasks None datelessVault settings now =
  [mkTask (u16 "Someday " ++ calendarEmoji) (Some (DateValue (ymdTime 2025 3 1))) datelessNote 0 true].
Proof. vm_compute. reflexivity. Qed.

(** The index-backed strategy: the due date at midnight, the double entry
    kept once. *)
Example sample_index_backed :
  loadTasks (Some indexService) vault settings now =
  [mkTask (u16 "Buy milk " ++ calendarEmoji) (Some (DateValue (march 14))) note 0 false].
Proof. vm_compute. reflexivity. Qed.

(** The overdue bucket of the specification's example: the incomplete task
    of the tenth is in it, the completed one is not. *)
Example sample_overdue : getOverdueTasks tasks now = [milk; chore].
Proof. vm_compute. reflexivity. Qed.

Lemma overdue_migration_witness :
  In chore tasks /\ date chore = Some (DateValue (march 10)) /\
  (march 10 < Day now * msPerDay)%Z /\
  ~ In chore (cellTasks tasks now (march 10)) /\
  In chore (cellTasks tasks now (Day now * msPerDay)) /\
  In plants (cellTasks tasks now (march 10)).
Proof.
  assert (Hin : In chore tasks) by (simpl; tauto).
  assert (Hin' : In plants tasks) by (simpl; tauto).
  assert (Hpast : (march 10 < Day now * msPerDay)%Z) by (vm_compute; reflexivity).
  destruct (overdue_migration tasks now chore (march 10) Hin eq_refl Hpast) as [Hinc _].
  destruct (Hinc eq_refl) as (Hown & Hbucket & Htoday & _).
  destruct (overdue_migration tasks now plants (march 10) Hin' eq_refl Hpast) as [_ Hdone].
  destruct (Hdone eq_refl (march 10) eq_refl) as [Hkept _].
  split; [exact Hin |]. split; [reflexivity |]. split; [exact Hpast |].
  split; [apply Hown; reflexivity |].
  split; [rewrite Htoday; apply in_or_app; left; exact Hbucket |].
  exact Hkept.
Defined.

Lemma grid_completeness_witness :
  ~ (0 <= getFullYear now <= 99)%Z /\
  length (renderGrid tasks true now now) = 42 /\
  (exists c0, renderGrid tasks true now now !! 0 = Some c0 /\ getDay (cellDate c0) = 1%Z) /\
  (exists i c, i < 7 /\ renderGrid tasks true now now !! i = Some c /\
               cellDate c = firstDayOfMonth (getFullYear now) (getMonth now)) /\
  (getFullYear (firstDayOfMonth (getFullYear now) (getMonth now)) = getFullYear now /\
   getMonth (firstDayOfMonth (getFullYear now) (getMonth now)) = getMonth now /\
   getDate (firstDayOfMonth (getFullYear now) (getMonth now)) = 1%Z).
Proof.
  assert (Hyear : ~ (0 <= getFullYear now <= 99)%Z).
  { intros [_ Hle]. vm_compute in Hle. apply Hle. reflexivity. }
  destruct (grid_completeness tasks true now now)
    as (Hlen & (c0 & Hc0 & Hmon & _) & Hfirst & Hfields & _).
  split; [exact Hyear |]. split; [exact Hlen |].
  split; [exists c0; split; assumption |].
  split; [exact Hfirst | exact (Hfields Hyear)].
Defined.

Lemma deduplication_keeps_first_witness :
  In milkAgain [milk; chore; milkAgain] /\
  hasCalendarMarker milkAgain = true /\
  exists first before after,
    [milk; chore; milkAgain] = before ++ first :: after /\
    line first = line milkAgain /\
    List.filter
      (fun x => bool_decide (path (file x) = path (file milkAgain) /\ line x = line milkAgain))
      (aggregate [milk; chore; milkAgain]) = [first].
Proof.
  assert (Hin : In milkAgain [milk; chore; milkAgain]) by (simpl; tauto).
  split; [exact Hin |]. split; [reflexivity |].
  destruct (deduplication_keeps_first [milk; chore; milkAgain] milkAgain Hin eq_refl)
    as (first & before & after & Hraw & _ & Hline & _ & _ & _ & Hkept).
  exists first, before, after. split; [exact Hraw |]. split; [exact Hline | exact Hkept].
Defined.

(** The entry kept for the line of [milk] is [milk] itself, the first. *)
Example sample_dedup : aggregate [milk; unmarked; milkAgain; chore] = [milk; chore].
Proof. vm_compute. reflexivity. Qed.

Lemma stored_dates_are_midnights_witness :
  In milk (loadTasks None vault settings now) /\
  exists tv, date milk = Some (DateValue tv) /\
    HourFromTime tv = 0%Z /\ MinFromTime tv = 0%Z /\
    SecFromTime tv = 0%Z /\ msFromTime tv = 0%Z.
Proof.
  assert (Hin : In milk (loadTasks None vault settings now)).
  { rewrite sample_scan. simpl. tauto. }
  split; [exact Hin |].
  exact (stored_dates_are_midnights None vault settings now milk Hin).
Defined.

Lemma direct_toggle_rewrites_line_witness :
  vault_read vault (file plants) = Some noteText /\
  splitLines noteText !! line plants = Some plantsLine /\
  matchToggleLine plantsLine =
    Some (u16 "-", 88%N, u16 "Water plants " ++ calendarEmoji ++ u16 " 2025-03-10") /\
  trSuccess (toggleTaskCompletionDirect vault plants) = true /\
  isCompleted (trTask (toggleTaskCompletionDirect vault plants)) = false.
Proof.
  assert (Hread : vault_read vault (file plants) = Some noteText) by (vm_compute; reflexivity).
  assert (Hline : splitLines noteText !! line plants = Some plantsLine) by (vm_compute; reflexivity).
  assert (Hmatch : matchToggleLine plantsLine =
            Some (u16 "-", 88%N, u16 "Water plants " ++ calendarEmoji ++ u16 " 2025-03-10"))
    by (vm_compute; reflexivity).
  assert (Hwrite : path (file plants) ∉ vaultRefused vault) by apply not_elem_of_empty.
  destruct (direct_toggle_rewrites_line vault plants _ _ _ _ _ Hread Hline Hmatch Hwrite)
    as (Hok & _ & _ & _ & Hflag).
  repeat split; assumption.
Defined.

Lemma double_toggle_normalizes_witness :
  trSuccess (toggleTaskCompletionDirect vault milk) = true /\
  trSuccess (toggleTaskCompletionDirect
               (trVault (toggleTaskCompletionDirect vault milk))
               (trTask (toggleTaskCompletionDirect vault milk))) = true /\
  exists content ln indent m txt,
    vault_read vault (file milk) = Some content /\
    splitLines content !! line milk = Some ln /\
    matchToggleLine ln = Some (indent, m, txt) /\
    isCompleted (trTask (toggleTaskCompletionDirect
                           (trVault (toggleTaskCompletionDirect vault milk))
                           (trTask (toggleTaskCompletionDirect vault milk)))) = markerCompleted m.
Proof.
  assert (H1 : trSuccess (toggleTaskCompletionDirect vault milk) = true) by (vm_compute; reflexivity).
  assert (H2 : trSuccess (toggleTaskCompletionDirect
               (trVault (toggleTaskCompletionDirect vault milk))
               (trTask (toggleTaskCompletionDirect vault milk))) = true) by (vm_compute; reflexivity).
  split; [exact H1 |]. split; [exact H2 |].
  destruct (double_toggle_normalizes vault milk H1 H2)
    as (content & ln & indent & m & txt & Hr & Hl & Hm & Hflag & _).
  exists content, ln, indent, m, txt. repeat split; assumption.
Defined.

Lemma failed_toggle_changes_nothing_witness :
  serviceAtomic (Some bareService) workspace /\
  trSuccess (toggleTaskCompletion (Some bareService) workspace lockedVault milk) = false /\
  trVault (toggleTaskCompletion (Some bareService) workspace lockedVault milk) = lockedVault /\
  coChecked (onCheckboxChange (toggleTaskCompletion (Some bareService) workspace)
               lockedVault milk (browserClick false)) = false.
Proof.
  assert (Hatomic : serviceAtomic (Some bareService) workspace).
  { split.
    - intros c v v' Hthrew. simpl in Hthrew. now injection Hthrew as <-.
    - intros t []. }
  assert (Hfail : trSuccess (toggleTaskCompletion (Some bareService) workspace lockedVault milk) = false)
    by (vm_compute; reflexivity).
  destruct (failed_toggle_changes_nothing (Some bareService) workspace lockedVault milk Hatomic Hfail)
    as (Hv & _ & _ & Hbox).
  split; [exact Hatomic |]. split; [exact Hfail |]. split; [exact Hv |].
  now destruct (Hbox false).
Defined.

(** C2 as stated fails on a capital X: two successful direct toggles leave
    the marker x on the line, not the X it had. *)
Lemma double_toggle_changes_capital_X :
  let r1 := toggleTaskCompletionDirect vault plants in
  let r2 := toggleTaskCompletionDirect (trVault r1) (trTask r1) in
  trSuccess r1 = true /\ trSuccess r2 = true /\
  markerOnLine vault plants = Some 88%N /\
  markerOnLine (trVault r2) (trTask r2) = Some 120%N /\
  markerOnLine (trVault r2) (trTask r2) <> markerOnLine vault plants.
Proof. vm_compute. repeat split; discriminate. Qed.

(** C7 as stated fails: a line with a bare date, a recognizable token, still
    gets the due token appended; and with a supplied date and no date found
    in the final line the target is the supplied date, not today. *)
Lemma date_token_appended_despite_bare_date :
  hasRecognizableDateToken bareDateLine = true /\
  finalTaskLineOf (Some (march 5)) bareDateLine = bareDateLine ++ u16 " due::2025-03-05" /\
  extractDateFromText (finalTaskLineOf (Some (march 5)) vagueDueLine) = None /\
  targetDateOf (Some (march 5)) now (finalTaskLineOf (Some (march 5)) vagueDueLine)
    = DateValue (march 5) /\
  DateValue (march 5) <> DateValue now /\ DateValue (march 5) <> todayOf now.
Proof. vm_compute. repeat split; discriminate. Qed.

(** C8 as stated fails: a cell with a single task shows the count badge. *)
Lemma badge_shown_with_one_task :
  let cell := renderCell tasks true now 2 (march 10) in
  cellSortedTasks cell = [plants] /\
  cellCountBadge cell = Some 1 /\
  ~ (is_Some (cellCountBadge cell) <-> 4 < length (cellSortedTasks cell)).
Proof.
  assert (Hs : cellSortedTasks (renderCell tasks true now 2 (march 10)) = [plants])
    by (vm_compute; reflexivity).
  assert (Hb : cellCountBadge (renderCell tasks true now 2 (march 10)) = Some 1)
    by (vm_compute; reflexivity).
  cbv zeta. rewrite Hs, Hb. repeat split.
  intros [Hiff _]. specialize (Hiff (ex_intro _ 1 eq_refl)). simpl in Hiff. lia.
Qed.

End Samples.

(* ================================================================== *)
(** * Further properties of the code *)
(* ================================================================== *)

(** ** Sorting with a comparator that ranks its arguments *)

Section SortFacts.
Context {A : Type} (cmp : A -> A -> Z) (rank : A -> nat).
Hypothesis Hcmp : forall a b, (cmp a b <=? 0)%Z = (rank a <=? rank b).

Lemma insertSorted_after (x : A) (a b : list A) :
  Forall (fun y => rank y < rank x) a ->
  insertSorted cmp x (a ++ b) = a ++ insertSorted cmp x b.
Proof using Hcmp.
  induction 1 as [| y a Hy _ IH]; simpl; [reflexivity |].
  rewrite Hcmp. destruct (Nat.leb_spec (rank x) (rank y)); [lia |]. now rewrite IH.
Qed.

Lemma insertSorted_front (x : A) (b : list A) :
  Forall (fun y => rank x <= rank y) b -> insertSorted cmp x b = x :: b.
Proof using Hcmp.
  destruct 1 as [| y b Hy _]; simpl; [reflexivity |].
  rewrite Hcmp. destruct (Nat.leb_spec (rank x) (rank y)); [reflexivity | lia].
Qed.

Lemma filter_rank_Forall (k : nat) (l : list A) :
  Forall (fun y => rank y = k) (List.filter (fun y => rank y =? k) l).
Proof.
  apply List.Forall_forall. intros y Hy. apply filter_In in Hy as [_ Hy].
  now apply Nat.eqb_eq.
Qed.

(** A stable sort on three ranks lists rank 0, then rank 1, then rank 2,
    each in the order of the input. *)
Lemma stableSort_three_ranks (l : list A) :
  (forall a, rank a < 3) ->
  stableSort cmp l =
  List.filter (fun y => rank y =? 0) l ++ List.filter (fun y => rank y =? 1) l
  ++ List.filter (fun y => rank y =? 2) l.
Proof using Hcmp.
  intros Hr. induction l as [| x l IH]; simpl; [reflexivity |].
  rewrite IH.
  pose proof (filter_rank_Forall 0 l) as H0.
  pose proof (filter_rank_Forall 1 l) as H1.
  pose proof (filter_rank_Forall 2 l) as H2.
  specialize (Hr x).
  destruct (rank x) as [| [| [| n]]] eqn:Hx; simpl; [| | | lia].
  - apply insertSorted_front. rewrite Hx. apply List.Forall_forall. intros; lia.
  - rewrite insertSorted_after.
    + f_equal. apply insertSorted_front. rewrite Hx.
      apply Forall_app. split; (eapply Forall_impl; [eassumption | simpl; intros; lia]).
    + rewrite Hx. eapply Forall_impl; [exact H0 | simpl; intros; lia].
  - rewrite app_assoc, insertSorted_after.
    + rewrite <- app_assoc. do 2 f_equal. apply insertSorted_front. rewrite Hx.
      eapply Forall_impl; [exact H2 | simpl; intros; lia].
    + rewrite Hx. apply Forall_app.
      split; (eapply Forall_impl; [eassumption | simpl; intros; lia]).
Qed.

End SortFacts.

Lemma compareCompletion_rank (a b : Task) :
  (compareCompletion a b <=? 0)%Z = (completionRank a <=? completionRank b).
Proof.
  unfold compareCompletion, completionRank.
  destruct (isCompleted a), (isCompleted b); reflexivity.
Qed.

Lemma filter_filter_none {A} (f g : A -> bool) (l : list A) :
  (forall x, f x = true -> g x = false) ->
  List.filter g (List.filter f l) = [].
Proof.
  intros Hfg. induction l as [| x l IH]; simpl; [reflexivity |].
  destruct (f x) eqn:Hf; simpl; [| exact IH]. now rewrite (Hfg x Hf).
Qed.

Lemma filter_filter_all {A} (f g : A -> bool) (l : list A) :
  (forall x, f x = true -> g x = true) ->
  List.filter g (List.filter f l) = List.filter f l.
Proof.
  intros Hfg. induction l as [| x l IH]; simpl; [reflexivity |].
  destruct (f x) eqn:Hf; simpl; [| exact IH]. now rewrite (Hfg x Hf), IH.
Qed.

Lemma stableSort_completion_eq (l : list Task) :
  stableSort compareCompletion l =
  List.filter (fun t => negb (isCompleted t)) l ++ List.filter (fun t => isCompleted t) l.
Proof.
  rewrite (stableSort_three_ranks compareCompletion completionRank compareCompletion_rank).
  - assert (H2 : List.filter (fun y => completionRank y =? 2) l = []).
    { induction l as [| x l IH]; simpl; [reflexivity |].
      unfold completionRank at 1. destruct (isCompleted x); simpl; exact IH. }
    rewrite H2, app_nil_r. f_equal; apply filter_ext; intros t;
      unfold completionRank; destruct (isCompleted t); reflexivity.
  - intros a. unfold completionRank. destruct (isCompleted a); lia.
Qed.

(** X1. A day cell lists its incomplete tasks in their incoming order,
    followed by its completed tasks in their incoming order, and shows the
    first four of that list: a completed task is shown only when fewer than
    four incomplete tasks are in the cell. *)
Theorem cell_shows_incomplete_first (tasks : list Task) (showCompleted : bool)
    (now month cd : Z) :
  let cell := renderCell tasks showCompleted now month cd in
  let visible := if showCompleted then cellDayTasks cell
                 else List.filter (fun t => negb (isCompleted t)) (cellDayTasks cell) in
  cellSortedTasks cell =
    List.filter (fun t => negb (isCompleted t)) visible
    ++ List.filter (fun t => isCompleted t) visible /\
  cellShown cell = take maxTasks (cellSortedTasks cell) /\
  (forall t, In t (cellShown cell) -> isCompleted t = true ->
     length (List.filter (fun t => negb (isCompleted t)) (cellDayTasks cell)) < maxTasks).
Proof.
  cbv zeta. unfold renderCell. cbv zeta. cbn [cellSortedTasks cellShown cellDayTasks].
  set (day := cellTasks tasks now cd).
  assert (Hv : (if negb showCompleted
                then List.filter (fun task => negb (isCompleted task)) day else day)
               = (if showCompleted then day
                  else List.filter (fun t => negb (isCompleted t)) day))
    by (destruct showCompleted; reflexivity).
  rewrite Hv. set (visible := if showCompleted then day else _).
  rewrite stableSort_completion_eq.
  split; [reflexivity |]. split; [reflexivity |].
  intros t Hin Hc.
  assert (Hinc : List.filter (fun t => negb (isCompleted t)) visible
                 = List.filter (fun t => negb (isCompleted t)) day).
  { subst visible. destruct showCompleted; [reflexivity |].
    apply filter_filter_all. auto. }
  rewrite Hinc in Hin.
  destruct (Nat.lt_ge_cases
              (length (List.filter (fun t => negb (isCompleted t)) day)) maxTasks)
    as [Hlt | Hge]; [exact Hlt | exfalso].
  rewrite take_app_le in Hin by exact Hge.
  apply list_elem_of_In, elem_of_take in Hin as (j & Hj & _).
  apply list_elem_of_lookup_2, list_elem_of_In, filter_In in Hj as [_ Hj].
  rewrite Hc in Hj. discriminate.
Qed.

(** ** The day popup *)

Section PopupFacts.
Local Open Scope Z_scope.





Lemma popupSections_eq (d : JSDate) (l : list Task) :
  popupSections d l =
  mkPopupSections
    (List.filter (isOverdueAt (setHours0 d)) l)
    (List.filter (fun t => negb (isOverdueAt (setHours0 d) t) && negb (isCompleted t)) l)
    (List.filter (fun t => negb (isOverdueAt (setHours0 d) t) && isCompleted t) l).
Proof.
  unfold popupSections. cbv zeta.
  set (ov := isOverdueAt (setHours0 d)).
  assert (Hcur : forall p : Task -> bool,
    List.filter p (List.filter (fun t => negb (bool_decide (t ∈ List.filter ov l))) l)
    = List.filter (fun t => negb (ov t) && p t) l).
  { intros p.
    assert (Hgen : forall l', (forall t, In t l' -> In t l) ->
      List.filter p (List.filter (fun t => negb (bool_decide (t ∈ List.filter ov l))) l')
      = List.filter (fun t => negb (ov t) && p t) l').
    { induction l' as [| x l' IH]; intros Hsub; simpl; [reflexivity |].
      assert (Hx : bool_decide (x ∈ List.filter ov l) = ov x).
      { destruct (ov x) eqn:Hov.
        - apply bool_decide_eq_true. apply list_elem_of_In, filter_In.
          split; [apply Hsub; now left | exact Hov].
        - apply bool_decide_eq_false. intros Hin.
          apply list_elem_of_In, filter_In in Hin as [_ Hin]. congruence. }
      rewrite Hx. destruct (ov x); simpl.
      - apply IH. intros t Ht. apply Hsub. now right.
      - rewrite IH by (intros t Ht; apply Hsub; now right). reflexivity. }
    apply Hgen. auto. }
  now rewrite !Hcur.
Qed.

End PopupFacts.


(** ** Which cell a task is listed in *)

Section PlacementFacts.
Local Open Scope Z_scope.

Lemma toDateString_day (td : JSDate) (d : Z) :
  toDateString td = toDateString (DateValue d) <->
  exists t, td = DateValue t /\ Day t = Day d.
Proof.
  split.
  - destruct td as [t |]; [| discriminate].
    intros Heq. exists t. split; [reflexivity | now apply toDateString_inj_day].
  - intros [t [-> Hd]]. now apply toDateString_same_day.
Qed.

Lemma getTasksForDate_In (tasks : list Task) (now d : Z) (task : Task) :
  In task (getTasksForDate tasks now (DateValue d)) <->
  In task tasks /\
  exists td, date task = Some (DateValue td) /\ Day td = Day d /\
             (Day now <= Day d \/ isCompleted task = true).
Proof.
  unfold getTasksForDate. cbv zeta. rewrite filter_In, todayOf_eq. simpl.
  apply and_iff_compat_l.
  unfold msPerDay.
  destruct (date task) as [td |]; [| split; [discriminate | intros [td [Hd _]]; discriminate]].
  case_bool_decide as Hs; simpl.
  - apply toDateString_day in Hs as [t [-> Hday]].
    destruct (Z.ltb_spec (Day d * 86400000) (Day now * 86400000)) as [Hlt | Hge]; simpl.
    + destruct (isCompleted task); simpl.
      * split; [| reflexivity]. intros _. exists t. auto.
      * split; [discriminate |]. intros [t' [_ [_ [Hc | Hc]]]]; [lia | discriminate].
    + split; [| reflexivity]. intros _. exists t. repeat split; auto. left. lia.
  - split; [discriminate |]. intros [t [[= ->] [Hday _]]].
    exfalso. apply Hs. now apply toDateString_same_day.
Qed.

Lemma getOverdueTasks_In (tasks : list Task) (now : Z) (task : Task) :
  In task (getOverdueTasks tasks now) <->
  In task tasks /\ isCompleted task = false /\
  exists td, date task = Some td /\ timeGe td (todayOf now) = false.
Proof.
  unfold getOverdueTasks. cbv zeta. rewrite filter_In. apply and_iff_compat_l.
  destruct (date task) as [td |].
  - destruct (timeGe td (todayOf now)) eqn:Hge.
    + split; [discriminate |]. intros [_ [td' [[= <-] Hf]]]. congruence.
    + rewrite negb_true_iff. split.
      * intros Hc. split; [exact Hc |]. now exists td.
      * now intros [Hc _].
  - split; [discriminate |]. intros [_ [td [Hd _]]]. discriminate.
Qed.

Lemma timeGe_today (td now : Z) :
  timeGe (DateValue td) (todayOf now) = false <-> Day td < Day now.
Proof.
  rewrite todayOf_eq. simpl. rewrite Z.leb_gt. unfold Day, msPerDay.
  split; intros Hlt; Z.div_mod_to_equations; lia.
Qed.

Lemma timeEq_today (k now : Z) :
  timeEq (DateValue (k * msPerDay)) (todayOf now) = true <-> k = Day now.
Proof.
  rewrite todayOf_eq. simpl. rewrite Z.eqb_eq. unfold msPerDay. lia.
Qed.

Lemma cellTasks_NoDup (tasks : list Task) (now cd : Z) :
  List.NoDup tasks -> List.NoDup (cellTasks tasks now cd).
Proof.
  intros Hnd. unfold cellTasks. cbv zeta.
  destruct (timeEq (DateValue cd) (todayOf now)) eqn:Heq;
    [| apply List.NoDup_filter, Hnd].
  apply NoDup_ListNoDup, NoDup_app. repeat split.
  - apply NoDup_ListNoDup, List.NoDup_filter, Hnd.
  - intros t Hov Hday. apply list_elem_of_In in Hov, Hday.
    apply getOverdueTasks_In in Hov as [_ [_ [td [Hd Hge]]]].
    apply getTasksForDate_In in Hday as [_ [td' [Hd' [Hday _]]]].
    rewrite Hd in Hd'. injection Hd' as ->.
    apply timeGe_today in Hge.
    rewrite todayOf_eq in Heq. simpl in Heq. apply Z.eqb_eq in Heq. subst cd.
    rewrite Day_of_midnight in Hday. lia.
  - apply NoDup_ListNoDup. unfold getTasksForDate. apply List.NoDup_filter, Hnd.
Qed.

End PlacementFacts.

(** X3. On the cell (or popup) of a day the view lists exactly the loaded
    tasks whose stored date falls on that calendar day, and on a day before
    today only those of them that are completed. *)
Theorem tasks_of_a_date (tasks : list Task) (now d : Z) (task : Task) :
  In task (getTasksForDate tasks now (DateValue d)) <->
  In task tasks /\
  exists td, date task = Some (DateValue td) /\ Day td = Day d /\
             (Day now <= Day d \/ isCompleted task = true)%Z.
Proof. apply getTasksForDate_In. Qed.

(** X4. Every loaded task with a valid date is listed on exactly one day of
    the calendar: a completed task on its own day, an incomplete task on its
    own day or, once that day is past, on today.  Days are the midnights
    [k * msPerDay] the grid is made of. *)
Theorem task_listed_on_one_day (tasks : list Task) (now td k : Z) (task : Task) :
  In task tasks -> date task = Some (DateValue td) ->
  (In task (cellTasks tasks now (k * msPerDay)) <->
   k = if isCompleted task then Day td else Z.max (Day td) (Day now)).
Proof.
  intros Hin Hd. unfold cellTasks. cbv zeta.
  assert (Hday : In task (getTasksForDate tasks now (DateValue (k * msPerDay))) <->
                 Day td = k /\ (Day now <= k \/ isCompleted task = true)%Z).
  { rewrite getTasksForDate_In, Day_of_midnight. split.
    - intros [_ [td' [Hd' H]]]. rewrite Hd in Hd'. injection Hd' as <-. exact H.
    - intros H. split; [exact Hin |]. now exists td. }
  assert (Hov : In task (getOverdueTasks tasks now) <->
                isCompleted task = false /\ (Day td < Day now)%Z).
  { rewrite getOverdueTasks_In. split.
    - intros [_ [Hc [td' [Hd' Hge]]]]. rewrite Hd in Hd'. injection Hd' as <-.
      split; [exact Hc | now apply timeGe_today].
    - intros [Hc Hlt]. repeat split; [exact Hin | exact Hc |].
      exists (DateValue td). split; [exact Hd | now apply timeGe_today]. }
  destruct (Z.lt_ge_cases (Day td) (Day now)) as [Hlt | Hge];
  destruct (timeEq (DateValue (k * msPerDay)) (todayOf now)) eqn:Heq.
  all: try (apply timeEq_today in Heq).
  all: try (assert (Hne : k <> Day now)
              by (intros Hk; apply timeEq_today in Hk; congruence); clear Heq).
  all: rewrite ?in_app_iff, ?Hday, ?Hov.
  all: destruct (isCompleted task); intuition (try discriminate; try lia).
Qed.

(** ** The aggregated list has one task per line *)

Section UniquenessFacts.

Lemma dedupe_fold_keys (l : list Task) (m : TaskMap) :
  Forall (fun e => fst e = taskKey (snd e)) m -> NoDup (List.map fst m) ->
  Forall (fun e => fst e = taskKey (snd e)) (fold_left dedupeStep l m) /\
  NoDup (List.map fst (fold_left dedupeStep l m)).
Proof.
  revert m. induction l as [| x l IH]; intros m Hk Hnd; simpl; [now split |].
  apply IH; unfold dedupeStep; destruct (mapHas m (taskKey x)) eqn:Hh; simpl; auto.
  - rewrite mapSet_fresh by exact Hh. apply Forall_app. split; [exact Hk |].
    now constructor.
  - rewrite mapSet_fresh by exact Hh. rewrite List.map_app. simpl.
    apply NoDup_app. repeat split; [exact Hnd | | apply NoDup_singleton].
    intros k Hin Hin'. apply list_elem_of_singleton in Hin'. subst k.
    apply list_elem_of_In, mapHas_spec in Hin. congruence.
Qed.

Lemma aggregate_keys_NoDup (raw : list Task) : NoDup (List.map taskKey (aggregate raw)).
Proof.
  unfold aggregate. cbv zeta.
  destruct (dedupe_fold_keys (List.filter hasCalendarMarker raw) [])
    as [Hk Hnd]; [constructor | constructor |].
  set (m := fold_left dedupeStep (List.filter hasCalendarMarker raw) []) in *.
  replace (List.map taskKey (mapValues m)) with (List.map fst m); [exact Hnd |].
  unfold mapValues. rewrite List.map_map. apply map_ext_Forall.
  eapply Forall_impl; [exact Hk |]. auto.
Qed.

Lemma aggregate_NoDup (raw : list Task) : NoDup (aggregate raw).
Proof. eapply (NoDup_fmap_1 taskKey). apply aggregate_keys_NoDup. Qed.

Lemma filter_sublist {A} (f : A -> bool) (l : list A) : sublist (List.filter f l) l.
Proof.
  induction l as [| x l IH]; simpl; [constructor |].
  destruct (f x); now constructor.
Qed.

Lemma dedupe_fold_sublist (l : list Task) (m : TaskMap) :
  exists l', sublist l' l /\
             mapValues (fold_left dedupeStep l m) = mapValues m ++ l'.
Proof.
  revert m. induction l as [| x l IH]; intros m; simpl.
  - exists []. split; [constructor | now rewrite app_nil_r].
  - destruct (IH (dedupeStep m x)) as [l' [Hsub Heq]]. rewrite Heq.
    unfold dedupeStep. destruct (mapHas m (taskKey x)) eqn:Hh; simpl.
    + exists l'. split; [now constructor | reflexivity].
    + exists (x :: l'). split; [now constructor |].
      rewrite mapSet_fresh by exact Hh. unfold mapValues.
      rewrite List.map_app. simpl. now rewrite <- app_assoc.
Qed.

Lemma dedupe_fold_fresh (l : list Task) (m : TaskMap) :
  NoDup (List.map fst m ++ List.map taskKey l) ->
  mapValues (fold_left dedupeStep l m) = mapValues m ++ l.
Proof.
  revert m. induction l as [| x l IH]; intros m Hnd; simpl.
  - now rewrite app_nil_r.
  - assert (Hh : mapHas m (taskKey x) = false).
    { apply not_true_is_false. intros Hh. apply mapHas_spec in Hh.
      apply NoDup_app in Hnd as [_ [Hdis _]].
      apply (Hdis (taskKey x)); [now apply list_elem_of_In | simpl; left]. }
    unfold dedupeStep. rewrite Hh. simpl. rewrite mapSet_fresh by exact Hh.
    rewrite IH.
    + unfold mapValues. rewrite List.map_app. simpl. now rewrite <- app_assoc.
    + rewrite List.map_app. simpl. rewrite <- app_assoc. exact Hnd.
Qed.

Lemma filter_all {A} (f : A -> bool) (l : list A) :
  (forall x, In x l -> f x = true) -> List.filter f l = l.
Proof.
  induction l as [| x l IH]; intros Hall; simpl; [reflexivity |].
  rewrite (Hall x) by now left. rewrite IH; [reflexivity |].
  intros y Hy. apply Hall. now right.
Qed.

Lemma stableSort_completion_NoDup (l : list Task) :
  NoDup l -> NoDup (stableSort compareCompletion l).
Proof.
  intros Hnd.
  rewrite (stableSort_three_ranks compareCompletion completionRank compareCompletion_rank)
    by (intros a; unfold completionRank; destruct (isCompleted a); lia).
  assert (Hf : forall k, NoDup (List.filter (fun y => completionRank y =? k) l)).
  { intros k. apply NoDup_ListNoDup, List.NoDup_filter, NoDup_ListNoDup, Hnd. }
  assert (Hdis : forall j k x, j <> k ->
            x ∈ List.filter (fun y => completionRank y =? j) l ->
            x ∈ List.filter (fun y => completionRank y =? k) l -> False).
  { intros j k x Hjk Hj Hk.
    apply list_elem_of_In, filter_In in Hj as [_ Hj].
    apply list_elem_of_In, filter_In in Hk as [_ Hk].
    apply Nat.eqb_eq in Hj, Hk. congruence. }
  apply NoDup_app. repeat split; [apply Hf | | apply NoDup_app; repeat split; try apply Hf].
  - intros x H0 H12. apply elem_of_app in H12 as [H1 | H2];
      [apply (Hdis 0 1 x) | apply (Hdis 0 2 x)]; auto.
  - intros x H1 H2. apply (Hdis 1 2 x); auto.
Qed.

End UniquenessFacts.

(** X5. The aggregated list holds at most one task for a line of a note:
    the pairs (file path, line number) of its tasks are pairwise different. *)
Theorem aggregated_lines_are_unique (raw : list Task) :
  NoDup (List.map (fun t => (path (file t), line t)) (aggregate raw)).
Proof.
  pose proof (aggregate_keys_NoDup raw) as Hnd.
  induction (aggregate raw) as [| x l IH]; simpl; [constructor |].
  simpl in Hnd. apply NoDup_cons in Hnd as [Hx Hl].
  apply NoDup_cons. split; [| now apply IH].
  intros Hin. apply Hx.
  apply list_elem_of_In, in_map_iff in Hin as [y [Hy Hin]].
  apply list_elem_of_In, in_map_iff. exists y. split; [| exact Hin].
  injection Hy as Hp Hline. apply taskKey_inj. now split.
Qed.

(** X6. Aggregating is a selection in order: the result is a subsequence of
    the raw list, and aggregating the result again changes nothing. *)
Theorem aggregate_selects_in_order (raw : list Task) :
  sublist (aggregate raw) raw /\ aggregate (aggregate raw) = aggregate raw.
Proof.
  split.
  - unfold aggregate. cbv zeta.
    destruct (dedupe_fold_sublist (List.filter hasCalendarMarker raw) [])
      as [l' [Hsub Heq]].
    rewrite Heq. simpl. etransitivity; [exact Hsub | apply filter_sublist].
  - unfold aggregate at 1. cbv zeta.
    rewrite filter_all by (intros x Hx; now apply aggregate_subset in Hx).
    rewrite dedupe_fold_fresh; [reflexivity |]. simpl. apply aggregate_keys_NoDup.
Qed.

(** X7. No cell of the calendar lists a task of the aggregated list twice:
    the overdue tasks put on today's cell are none of today's own, and the
    filter and the sort keep it so. *)
Theorem cell_lists_no_task_twice (raw : list Task) (showCompleted : bool)
    (now month cd : Z) :
  let cell := renderCell (aggregate raw) showCompleted now month cd in
  NoDup (cellDayTasks cell) /\ NoDup (cellSortedTasks cell) /\ NoDup (cellShown cell).
Proof.
  cbv zeta. unfold renderCell. cbv zeta. simpl.
  assert (Hc : NoDup (cellTasks (aggregate raw) now cd)).
  { apply NoDup_ListNoDup, cellTasks_NoDup, NoDup_ListNoDup, aggregate_NoDup. }
  assert (Hs : NoDup (stableSort compareCompletion
     (if negb showCompleted
      then List.filter (fun task => negb (isCompleted task)) (cellTasks (aggregate raw) now cd)
      else cellTasks (aggregate raw) now cd))).
  { apply stableSort_completion_NoDup. destruct showCompleted; simpl; [exact Hc |].
    apply NoDup_ListNoDup, List.NoDup_filter, NoDup_ListNoDup, Hc. }
  repeat split; [exact Hc | exact Hs |].
  eapply sublist_NoDup; [exact Hs | apply sublist_take].
Qed.

(** ** Days of a month *)

Section MonthFacts.
Local Open Scope Z_scope.

Lemma leapDay_range (y : Z) : 0 <= (if isLeapYear y then 1 else 0) <= 1.
Proof. destruct (isLeapYear y); lia. Qed.

Lemma time_of_day_parts (t : Z) : t = Day t * msPerDay + TimeWithinDay t.
Proof. unfold Day, TimeWithinDay, msPerDay. pose proof (Z.div_mod t 86400000). lia. Qed.

Lemma TimeWithinDay_range (t : Z) : 0 <= TimeWithinDay t < msPerDay.
Proof. unfold TimeWithinDay, msPerDay. apply Z.mod_pos_bound. lia. Qed.

Lemma Day_of_parts (d tw : Z) : 0 <= tw < msPerDay -> Day (d * msPerDay + tw) = d.
Proof. unfold Day, msPerDay. intros Htw. Z.div_mod_to_equations. lia. Qed.

Lemma TimeWithinDay_of_parts (d tw : Z) :
  0 <= tw < msPerDay -> TimeWithinDay (d * msPerDay + tw) = tw.
Proof. unfold TimeWithinDay, msPerDay. intros Htw. Z.div_mod_to_equations. lia. Qed.

(** The length of month [m] (0..11) of a year. *)
Lemma month_length (y m : Z) :
  0 <= m <= 11 -> 28 <= MakeDay y (m + 1) 1 - MakeDay y m 1 <= 31.
Proof.
  intros Hm. unfold MakeDay. cbv zeta.
  rewrite (Z.div_small m 12), (Z.mod_small m 12), Z.add_0_r by lia.
  pose proof (leapDay_range y) as Hl.
  destruct (Z.eq_dec m 11) as [-> | Hne].
  - change ((11 + 1) / 12) with 1. change ((11 + 1) mod 12) with 0.
    rewrite DayFromYear_succ. unfold DaysInYear. simpl monthStart.
    destruct (isLeapYear y), (isLeapYear (y + 1)); lia.
  - rewrite (Z.div_small (m + 1) 12), (Z.mod_small (m + 1) 12), Z.add_0_r by lia.
    assert (Hcases : m = 0 \/ m = 1 \/ m = 2 \/ m = 3 \/ m = 4 \/ m = 5 \/ m = 6
                     \/ m = 7 \/ m = 8 \/ m = 9 \/ m = 10) by lia.
    repeat (destruct Hcases as [-> | Hcases]; [simpl; lia |]); subst; simpl; lia.
Qed.

(** The fields of a day of month [m] of year [y], at any time of the day. *)
Lemma fields_of_month_day (y m d tw : Z) :
  0 <= m <= 11 -> 1 <= d -> MakeDay y m d < MakeDay y (m + 1) 1 ->
  0 <= tw < msPerDay ->
  let t := MakeDay y m d * msPerDay + tw in
  YearFromTime t = y /\ MonthFromTime t = m /\ DateFromTime t = d.
Proof.
  intros Hm Hd Hlen Htw t.
  pose proof (leapDay_range y) as Hl.
  set (leap := if isLeapYear y then 1 else 0) in *.
  assert (Hday : Day t = DayFromYear y + monthStart m leap + d - 1).
  { subst t. rewrite Day_of_parts by exact Htw. unfold MakeDay.
    rewrite (Z.div_small m 12), (Z.mod_small m 12) by lia.
    rewrite Z.add_0_r. reflexivity. }
  assert (Hnext : monthStart m leap + d - 1 <
                  (if m =? 11 then 365 + leap else monthStart (m + 1) leap)).
  { revert Hlen. unfold MakeDay. cbv zeta.
    rewrite (Z.div_small m 12), (Z.mod_small m 12), Z.add_0_r by lia.
    fold leap. destruct (Z.eqb_spec m 11) as [-> | Hne].
    - change ((11 + 1) / 12) with 1. change ((11 + 1) mod 12) with 0.
      rewrite DayFromYear_succ. unfold DaysInYear. fold leap.
      simpl monthStart. subst leap. destruct (isLeapYear y), (isLeapYear (y + 1)); lia.
    - rewrite (Z.div_small (m + 1) 12), (Z.mod_small (m + 1) 12), Z.add_0_r by lia.
      fold leap. lia. }
  pose proof (monthStart_range m leap Hm Hl) as Hms.
  assert (Hin : 0 <= monthStart m leap + d - 1 < 365 + leap).
  { split; [lia |]. destruct (Z.eqb_spec m 11) as [-> | Hne]; [exact Hnext |].
    pose proof (monthStart_range (m + 1) leap ltac:(lia) Hl). lia. }
  assert (Hyear : YearFromTime t = y).
  { unfold YearFromTime. apply YearFromDay_unique.
    rewrite Hday, DayFromYear_succ. unfold DaysInYear.
    subst leap. destruct (isLeapYear y); lia. }
  assert (Hdwy : DayWithinYear t = monthStart m leap + d - 1).
  { unfold DayWithinYear. rewrite Hyear, Hday. lia. }
  assert (Hmonth : MonthFromTime t = m).
  { unfold MonthFromTime, InLeapYear. rewrite Hdwy, Hyear. fold leap.
    assert (Hcases : m = 0 \/ m = 1 \/ m = 2 \/ m = 3 \/ m = 4 \/ m = 5 \/ m = 6
                     \/ m = 7 \/ m = 8 \/ m = 9 \/ m = 10 \/ m = 11) by lia.
    unfold monthOfDayWithinYear.
    repeat (destruct Hcases as [-> | Hcases];
      [simpl in Hnext |- *;
       repeat match goal with
              | |- context [ ?a <? ?b ] => destruct (Z.ltb_spec a b)
              end; lia |]).
    subst m. simpl in Hnext |- *.
    repeat match goal with
           | |- context [ ?a <? ?b ] => destruct (Z.ltb_spec a b)
           end; lia. }
  repeat split; [exact Hyear | exact Hmonth |].
  unfold DateFromTime, InLeapYear. rewrite Hmonth, Hdwy, Hyear. fold leap. lia.
Qed.

(** Months outside 0..11 carry into the year. *)
Lemma MakeDay_carry (y m d : Z) : MakeDay y m d = MakeDay (y + m / 12) (m mod 12) d.
Proof.
  unfold MakeDay. cbv zeta.
  pose proof (Z.mod_pos_bound m 12 ltac:(lia)) as Hr.
  rewrite (Z.div_small (m mod 12) 12), (Z.mod_small (m mod 12) 12), Z.add_0_r by lia.
  reflexivity.
Qed.

Lemma MakeDay_date (y m d k : Z) : MakeDay y m (d + k) = MakeDay y m d + k.
Proof. unfold MakeDay. lia. Qed.

Lemma MakeDay_next_month (y m : Z) :
  MakeDay (y + (m + 1) / 12) ((m + 1) mod 12) 1 = MakeDay (y + m / 12) ((m mod 12) + 1) 1.
Proof.
  rewrite <- (MakeDay_carry y (m + 1) 1).
  rewrite (MakeDay_carry (y + m / 12) (m mod 12 + 1) 1).
  rewrite (MakeDay_carry y (m + 1) 1).
  pose proof (Z.mod_pos_bound m 12 ltac:(lia)) as Hr.
  f_equal; Z.div_mod_to_equations; lia.
Qed.

(** The day of the month is a day of that month. *)
Lemma getDate_range (t : Z) :
  1 <= getDate t /\
  MakeDay (YearFromTime t) (MonthFromTime t) (getDate t)
  < MakeDay (YearFromTime t) (MonthFromTime t + 1) 1.
Proof.
  unfold getDate.
  pose proof (getMonth_range t) as Hm. unfold getMonth in Hm.
  pose proof (YearFromDay_spec (Day t)) as Hy. fold (YearFromTime t) in Hy.
  rewrite DayFromYear_succ in Hy. unfold DaysInYear in Hy.
  pose proof (leapDay_range (YearFromTime t)) as Hl.
  assert (Hdwy : 0 <= DayWithinYear t < 365 + InLeapYear t).
  { unfold DayWithinYear, InLeapYear. destruct (isLeapYear (YearFromTime t)); lia. }
  assert (Hbox : monthStart (MonthFromTime t) (InLeapYear t) <= DayWithinYear t
                 /\ DayWithinYear t <
                    (if MonthFromTime t =? 11 then 365 + InLeapYear t
                     else monthStart (MonthFromTime t + 1) (InLeapYear t))).
  { unfold MonthFromTime. unfold InLeapYear in *.
    set (leap := if isLeapYear (YearFromTime t) then 1 else 0) in *.
    set (d := DayWithinYear t) in *.
    unfold monthOfDayWithinYear.
    repeat match goal with
           | |- context [ ?a <? ?b ] => destruct (Z.ltb_spec a b)
           end; simpl; lia. }
  destruct Hbox as [Hlo Hhi].
  split; [unfold DateFromTime; lia |].
  rewrite MakeDay_of_fields.
  replace (DateFromTime t - DateFromTime t) with 0 by lia. rewrite Z.add_0_r.
  unfold MakeDay. cbv zeta.
  destruct (Z.eqb_spec (MonthFromTime t) 11) as [H11 | Hne].
  - rewrite H11. change ((11 + 1) / 12) with 1. change ((11 + 1) mod 12) with 0.
    rewrite DayFromYear_succ. unfold DaysInYear, DayWithinYear, InLeapYear in *.
    simpl monthStart. destruct (isLeapYear (YearFromTime t)), (isLeapYear (YearFromTime t + 1)); lia.
  - rewrite (Z.div_small (MonthFromTime t + 1) 12),
      (Z.mod_small (MonthFromTime t + 1) 12), Z.add_0_r by lia.
    unfold DayWithinYear, InLeapYear in *. lia.
Qed.

Lemma changeMonth_fields (t direction : Z) :
  getDate t <= 28 ->
  let t' := changeMonth t direction in
  getFullYear t' = getFullYear t + (getMonth t + direction) / 12 /\
  getMonth t' = (getMonth t + direction) mod 12 /\
  getDate t' = getDate t /\ TimeWithinDay t' = TimeWithinDay t.
Proof.
  intros Hd. cbv zeta. unfold changeMonth, setMonth, getFullYear, getMonth, getDate in *.
  set (m := MonthFromTime t + direction).
  pose proof (Z.mod_pos_bound m 12 ltac:(lia)) as Hr.
  pose proof (TimeWithinDay_range t) as Htw.
  pose proof (getDate_range t) as [Hd1 _]. unfold getDate in Hd1.
  rewrite MakeDay_carry.
  assert (Hr' : 0 <= m mod 12 <= 11) by lia.
  pose proof (month_length (YearFromTime t + m / 12) (m mod 12) Hr') as Hlen.
  assert (Hin : MakeDay (YearFromTime t + m / 12) (m mod 12) (DateFromTime t)
                < MakeDay (YearFromTime t + m / 12) (m mod 12 + 1) 1).
  { replace (DateFromTime t) with (1 + (DateFromTime t - 1)) at 1 by lia.
    rewrite MakeDay_date. lia. }
  destruct (fields_of_month_day _ _ _ _ Hr' Hd1 Hin Htw) as [Hy [Hmo Hda]].
  repeat split; [exact Hy | exact Hmo | exact Hda |].
  now apply TimeWithinDay_of_parts.
Qed.

Lemma same_fields_same_time (a b : Z) :
  getFullYear a = getFullYear b -> getMonth a = getMonth b -> getDate a = getDate b ->
  TimeWithinDay a = TimeWithinDay b -> a = b.
Proof.
  unfold getFullYear, getMonth, getDate. intros Hy Hm Hd Htw.
  rewrite (time_of_day_parts a), (time_of_day_parts b), Htw. f_equal. f_equal.
  pose proof (MakeDay_of_fields a (DateFromTime a)) as Ha.
  pose proof (MakeDay_of_fields b (DateFromTime b)) as Hb.
  rewrite Hy, Hm, Hd in Ha. lia.
Qed.

End MonthFacts.

(** X8. Going [direction] months from a date whose day of the month is at
    most 28 lands in the month that many months away, the year carried, on
    the same day of the month at the same time of day; going back by as
    many months returns the date started from. *)
Theorem month_navigation (t direction : Z) :
  (getDate t <= 28)%Z ->
  let t' := changeMonth t direction in
  (getFullYear t' * 12 + getMonth t' = getFullYear t * 12 + getMonth t + direction)%Z /\
  getDate t' = getDate t /\ TimeWithinDay t' = TimeWithinDay t /\
  changeMonth t' (- direction) = t.
Proof.
  intros Hd. cbv zeta.
  destruct (changeMonth_fields t direction Hd) as [Hy [Hm [Hda Htw]]].
  assert (Hcount : (getFullYear (changeMonth t direction) * 12
                    + getMonth (changeMonth t direction)
                    = getFullYear t * 12 + getMonth t + direction)%Z).
  { rewrite Hy, Hm. pose proof (Z.div_mod (getMonth t + direction) 12). lia. }
  repeat split; [exact Hcount | exact Hda | exact Htw |].
  set (t' := changeMonth t direction) in *.
  assert (Hd' : (getDate t' <= 28)%Z) by lia.
  destruct (changeMonth_fields t' (- direction) Hd') as [Hy2 [Hm2 [Hda2 Htw2]]].
  pose proof (getMonth_range t) as Hr.
  pose proof (getMonth_range (changeMonth t' (- direction))) as Hr2.
  pose proof (Z.div_mod (getMonth t' + - direction) 12 ltac:(lia)) as Hdm.
  apply same_fields_same_time; try congruence;
    rewrite <- ?Hy2, <- ?Hm2 in Hdm; lia.
Qed.

(** ** The cells of the displayed month *)

Section MonthCells.
Local Open Scope Z_scope.

Lemma MakeDay_prev_month (y m : Z) :
  MakeDay (y + (m - 1) / 12) ((m - 1) mod 12 + 1) 1 = MakeDay y m 1.
Proof.
  rewrite <- MakeDay_next_month. replace (m - 1 + 1) with m by lia.
  symmetry. apply MakeDay_carry.
Qed.

Lemma fields_of_month_offset (y m j : Z) :
  0 <= m <= 11 -> 0 <= j < MakeDay y (m + 1) 1 - MakeDay y m 1 ->
  let t := (MakeDay y m 1 + j) * msPerDay in
  YearFromTime t = y /\ MonthFromTime t = m /\ DateFromTime t = j + 1.
Proof.
  intros Hm Hj.
  assert (Heq : MakeDay y m (j + 1) = MakeDay y m 1 + j)
    by (rewrite <- MakeDay_date; f_equal; lia).
  assert (Htw : 0 <= 0 < msPerDay) by (unfold msPerDay; lia).
  pose proof (fields_of_month_day y m (j + 1) 0 Hm ltac:(lia) ltac:(lia) Htw) as Hf.
  cbv zeta in Hf. rewrite Z.add_0_r, Heq in Hf. exact Hf.
Qed.

(** The month of the days around month [m]: the [k]-th day after its first
    is in month [m] exactly for [k] from 0 to the month's length. *)
Lemma grid_day_month (y m k : Z) :
  0 <= m <= 11 -> -6 <= k <= 41 ->
  let t := (MakeDay y m 1 + k) * msPerDay in
  (MonthFromTime t = m <-> 0 <= k < MakeDay y (m + 1) 1 - MakeDay y m 1) /\
  (0 <= k < MakeDay y (m + 1) 1 - MakeDay y m 1 ->
   YearFromTime t = y /\ DateFromTime t = k + 1).
Proof.
  intros Hm Hk t.
  pose proof (month_length y m Hm) as Hlen.
  assert (Hin : 0 <= k < MakeDay y (m + 1) 1 - MakeDay y m 1 ->
                YearFromTime t = y /\ MonthFromTime t = m /\ DateFromTime t = k + 1).
  { intros Hr. now apply fields_of_month_offset. }
  split; [| intros Hr; destruct (Hin Hr) as [Hy [_ Hd]]; now split].
  split; [| intros Hr; now destruct (Hin Hr) as [_ [Hmo _]]].
  intros Hmo.
  destruct (Z.lt_ge_cases k 0) as [Hneg | Hpos].
  - exfalso.
    set (y' := y + (m - 1) / 12). set (m' := (m - 1) mod 12).
    assert (Hm' : 0 <= m' <= 11)
      by (subst m'; pose proof (Z.mod_pos_bound (m - 1) 12 ltac:(lia)); lia).
    pose proof (month_length y' m' Hm') as Hlen'.
    pose proof (MakeDay_prev_month y m) as Hprev. fold y' m' in Hprev.
    rewrite Hprev in Hlen'.
    pose proof (fields_of_month_offset y' m' (MakeDay y m 1 - MakeDay y' m' 1 + k) Hm') as Hf.
    rewrite Hprev in Hf. specialize (Hf ltac:(lia)). cbv zeta in Hf.
    replace (MakeDay y' m' 1 + (MakeDay y m 1 - MakeDay y' m' 1 + k))
      with (MakeDay y m 1 + k) in Hf by lia.
    destruct Hf as [_ [Hmo' _]]. fold t in Hmo'. rewrite Hmo in Hmo'.
    subst m'. Z.div_mod_to_equations. lia.
  - destruct (Z.lt_ge_cases k (MakeDay y (m + 1) 1 - MakeDay y m 1)) as [Hlt | Hge];
      [lia | exfalso].
    set (y' := y + (m + 1) / 12). set (m' := (m + 1) mod 12).
    assert (Hm' : 0 <= m' <= 11)
      by (subst m'; pose proof (Z.mod_pos_bound (m + 1) 12 ltac:(lia)); lia).
    pose proof (month_length y' m' Hm') as Hlen'.
    pose proof (MakeDay_carry y (m + 1) 1) as Hnext. fold y' m' in Hnext.
    pose proof (fields_of_month_offset y' m' (k - (MakeDay y (m + 1) 1 - MakeDay y m 1))
                  Hm' ltac:(lia)) as Hf.
    cbv zeta in Hf.
    replace (MakeDay y' m' 1 + (k - (MakeDay y (m + 1) 1 - MakeDay y m 1)))
      with (MakeDay y m 1 + k) in Hf by lia.
    destruct Hf as [_ [Hmo' _]]. fold t in Hmo'. rewrite Hmo in Hmo'.
    subst m'. Z.div_mod_to_equations. lia.
Qed.

Lemma grid_cell_date (year month : Z) (i : nat) :
  ~ (0 <= year <= 99) ->
  cellDateAt (gridStartDate year month) i =
  (MakeDay year month 1
   + (Z.of_nat i - daysToSubtract (firstDayOfMonth year month))) * msPerDay.
Proof.
  intros Hy. rewrite cellDateAt_shift, gridStartDate_shift.
  unfold firstDayOfMonth at 1, ymdTime.
  assert (Hq : (0 <=? year) && (year <=? 99) = false).
  { apply andb_false_iff.
    destruct (Z.leb_spec 0 year); [right; apply Z.leb_gt; lia | now left]. }
  rewrite Hq. lia.
Qed.

End MonthCells.

(** X9. In the grid of a month the cells not marked as other-month are
    exactly the days of the displayed month: they begin at the index the
    first day is put at, are as many as the month has days, and the cell at
    offset [k] from that index is day [k + 1] of the displayed month and
    year.  (Years the Date constructor reads as they stand, outside 0..99.) *)
Theorem grid_marks_displayed_month (tasks : list Task) (showCompleted : bool)
    (now currentDate : Z) (i : nat) (cell : DayCell) :
  let year := getFullYear currentDate in
  let month := getMonth currentDate in
  let monthLength := (MakeDay year (month + 1) 1 - MakeDay year month 1)%Z in
  let k := (Z.of_nat i - daysToSubtract (firstDayOfMonth year month))%Z in
  ~ (0 <= year <= 99)%Z ->
  renderGrid tasks showCompleted now currentDate !! i = Some cell ->
  (28 <= monthLength <= 31)%Z /\
  (cellOtherMonth cell = false <-> (0 <= k < monthLength)%Z) /\
  ((0 <= k < monthLength)%Z ->
   getFullYear (cellDate cell) = year /\ getMonth (cellDate cell) = month /\
   getDate (cellDate cell) = (k + 1)%Z).
Proof.
  intros year month monthLength k Hy Hc.
  pose proof (getMonth_range currentDate) as Hm. fold month in Hm.
  pose proof (daysToSubtract_range (firstDayOfMonth year month)) as Hd.
  assert (Hi : i < 42).
  { apply lookup_lt_Some in Hc. now rewrite renderGrid_length in Hc. }
  rewrite renderGrid_lookup in Hc by exact Hi. injection Hc as <-.
  unfold renderCell. cbv zeta. cbn [cellOtherMonth cellDate].
  fold year month. rewrite grid_cell_date by exact Hy. fold k.
  destruct (grid_day_month year month k Hm ltac:(lia)) as [Hiff Hin].
  fold monthLength in Hiff, Hin.
  split; [apply month_length, Hm |]. split.
  - rewrite negb_false_iff, Z.eqb_eq. exact Hiff.
  - intros Hk. destruct (Hin Hk) as [Hyr Hda].
    repeat split; [exact Hyr | now apply Hiff | exact Hda].
Qed.

(** X10. While the calendar shows the month today is in, exactly one cell is
    marked as today: the cell of today's day of the month. *)
Theorem one_cell_is_today (tasks : list Task) (showCompleted : bool)
    (now currentDate : Z) :
  let year := getFullYear currentDate in
  let month := getMonth currentDate in
  let cells := renderGrid tasks showCompleted now currentDate in
  let i0 := Z.to_nat (daysToSubtract (firstDayOfMonth year month) + getDate now - 1) in
  ~ (0 <= year <= 99)%Z -> getFullYear now = year -> getMonth now = month ->
  (exists cell, cells !! i0 = Some cell /\ cellDate cell = (Day now * msPerDay)%Z) /\
  (forall i cell, cells !! i = Some cell -> (cellToday cell = true <-> i = i0)).
Proof.
  intros year month cells i0 Hy Hyn Hmn.
  pose proof (getMonth_range currentDate) as Hm. fold month in Hm.
  pose proof (daysToSubtract_range (firstDayOfMonth year month)) as Hd.
  pose proof (getDate_range now) as [Hd1 Hd2].
  unfold getFullYear, getMonth in Hyn, Hmn. rewrite Hyn, Hmn in Hd2.
  pose proof (month_length year month Hm) as Hlen.
  assert (Hday : (Day now = MakeDay year month 1 + (getDate now - 1))%Z).
  { pose proof (MakeDay_of_fields now 1) as H1. rewrite Hyn, Hmn in H1.
    unfold getDate. lia. }
  assert (Hlast : (getDate now <= 31)%Z).
  { replace (getDate now) with (1 + (getDate now - 1))%Z in Hd2 at 1 by lia.
    rewrite MakeDay_date in Hd2. lia. }
  assert (Hcell : forall i, i < 42 ->
    cellDateAt (gridStartDate year month) i = (Day now * msPerDay)%Z <-> i = i0).
  { intros i Hi. rewrite grid_cell_date by exact Hy. rewrite Hday.
    subst i0. unfold msPerDay. lia. }
  split.
  - eexists. subst cells. rewrite renderGrid_lookup by (subst i0; lia).
    split; [reflexivity |]. unfold renderCell. cbv zeta. cbn [cellDate].
    fold year month. apply Hcell; [subst i0; lia | reflexivity].
  - intros i cell Hc.
    assert (Hi : i < 42).
    { apply lookup_lt_Some in Hc. subst cells. now rewrite renderGrid_length in Hc. }
    subst cells. rewrite renderGrid_lookup in Hc by exact Hi. injection Hc as <-.
    unfold renderCell. cbv zeta. cbn [cellToday].
    fold year month. rewrite todayOf_eq. cbn [timeEq]. rewrite Z.eqb_eq. now apply Hcell.
Qed.

(** ** The popup after a swipe or a toggle *)

Section PopupReload.
Local Open Scope Z_scope.

Lemma day_tasks_not_overdue (tasks : list Task) (now d : Z) (t : Task) :
  In t (getTasksForDate tasks now (DateValue d)) ->
  isOverdueAt (setHours0 (DateValue d)) t = false.
Proof.
  intros Hin. apply getTasksForDate_In in Hin as [_ [td [Hd [Hday _]]]].
  unfold isOverdueAt. rewrite Hd. simpl. rewrite Hday.
  rewrite Z.ltb_irrefl. reflexivity.
Qed.

Lemma filter_none {A} (f : A -> bool) (l : list A) :
  (forall x, In x l -> f x = false) -> List.filter f l = [].
Proof.
  induction l as [| x l IH]; intros Hall; simpl; [reflexivity |].
  rewrite (Hall x) by now left. apply IH. intros y Hy. apply Hall. now right.
Qed.

Lemma filter_ext_in_list {A} (f g : A -> bool) (l : list A) :
  (forall x, In x l -> f x = g x) -> List.filter f l = List.filter g l.
Proof.
  induction l as [| x l IH]; intros Hall; simpl; [reflexivity |].
  rewrite (Hall x) by now left. rewrite IH; [reflexivity |].
  intros y Hy. apply Hall. now right.
Qed.

End PopupReload.

(** X11. After a swipe, and after a toggle made in the popup, the popup
    lists the tasks of its day only, incomplete ones first: it has no
    overdue section, whatever it was opened with. *)
Theorem popup_reload_drops_overdue (tasks : list Task) (now d : Z) :
  let dayTasks := getTasksForDate tasks now (DateValue d) in
  let shown := popupReloadedTasks tasks now d in
  let sections := popupSections (DateValue d) shown in
  secOverdue sections = [] /\
  secCurrent sections = List.filter (fun t => negb (isCompleted t)) dayTasks /\
  secCompleted sections = List.filter (fun t => isCompleted t) dayTasks /\
  shown = secCurrent sections ++ secCompleted sections.
Proof.
  cbv zeta. rewrite popupSections_eq. cbn [secOverdue secCurrent secCompleted].
  unfold popupReloadedTasks. rewrite stableSort_completion_eq.
  set (day := getTasksForDate tasks now (DateValue d)).
  set (sorted := List.filter (fun t => negb (isCompleted t)) day
                 ++ List.filter (fun t => isCompleted t) day).
  assert (Hno : forall t, In t sorted -> isOverdueAt (setHours0 (DateValue d)) t = false).
  { intros t Hin. subst sorted. apply in_app_or in Hin.
    apply (day_tasks_not_overdue tasks now).
    destruct Hin as [Hin | Hin]; now apply filter_In in Hin. }
  assert (Hov : List.filter (isOverdueAt (setHours0 (DateValue d))) sorted = [])
    by now apply filter_none.
  assert (Hcur : List.filter
            (fun t => negb (isOverdueAt (setHours0 (DateValue d)) t) && negb (isCompleted t))
            sorted = List.filter (fun t => negb (isCompleted t)) day).
  { rewrite (filter_ext_in_list _ (fun t => negb (isCompleted t)))
      by (intros t Ht; now rewrite (Hno t Ht)).
    subst sorted. rewrite List.filter_app.
    rewrite (filter_filter_all (fun t => negb (isCompleted t))) by auto.
    rewrite filter_filter_none, app_nil_r; [reflexivity |].
    intros x Hx. now rewrite Hx. }
  assert (Hcom : List.filter
            (fun t => negb (isOverdueAt (setHours0 (DateValue d)) t) && isCompleted t)
            sorted = List.filter (fun t => isCompleted t) day).
  { rewrite (filter_ext_in_list _ (fun t => isCompleted t))
      by (intros t Ht; now rewrite (Hno t Ht)).
    subst sorted. rewrite List.filter_app.
    rewrite (filter_filter_all (fun t => isCompleted t)) by auto.
    rewrite filter_filter_none; [reflexivity |].
    intros x Hx. apply negb_true_iff in Hx. exact Hx. }
  rewrite Hov, Hcur, Hcom. auto.
Qed.

(** X12. A swipe moves the popup by exactly one day in its direction, the
    time of day kept, and a swipe back returns to the day left; the popup
    then lists the loaded tasks stored on the day reached, those of a past
    day only when completed. *)
Theorem popup_swipe_moves_one_day (tasks : list Task) (now d direction : Z) :
  let d' := popupSwipeDate d direction in
  (Day d' = Day d + direction)%Z /\ TimeWithinDay d' = TimeWithinDay d /\
  popupSwipeDate d' (- direction) = d /\
  (forall task, In task (popupReloadedTasks tasks now d') <->
     In task tasks /\
     exists td, date task = Some (DateValue td) /\ (Day td = Day d + direction)%Z /\
                (Day now <= Day d + direction \/ isCompleted task = true)%Z).
Proof.
  cbv zeta. unfold popupSwipeDate. rewrite !setDate_getDate.
  assert (Hday : (Day (d + direction * msPerDay) = Day d + direction)%Z)
    by apply Day_shift.
  repeat match goal with |- _ /\ _ => split end.
  - exact Hday.
  - unfold TimeWithinDay, msPerDay. apply Z.mod_add. lia.
  - lia.
  - intros task. unfold popupReloadedTasks.
    rewrite <- Hday, <- getTasksForDate_In. split; intros Hin.
    + apply stableSort_In in Hin. exact Hin.
    + apply stableSort_In. exact Hin.
Qed.

(** ** The raw scan and the direct toggle *)

Section ScanFacts.
Context `{HostEnv}.

Lemma scanLines_In (s : CreateTaskButtonSettings) (now : Z) (f : TFile)
    (k : nat) (lines : list jsstring) (t : Task) :
  In t (scanLines s now f k lines) <->
  exists i ln, lines !! i = Some ln /\
               scanLine s now f (k + i) ln (drop (S i) lines) = Some t.
Proof.
  revert k. induction lines as [| ln rest IH]; intros k; simpl.
  - split; [intros [] | intros (i & l & Hl & _); discriminate].
  - assert (Hrest : In t (scanLines s now f (S k) rest) <->
                    exists i l, (ln :: rest) !! S i = Some l /\
                      scanLine s now f (k + S i) l (drop (S (S i)) (ln :: rest)) = Some t).
    { rewrite IH. split; intros (i & l & Hl & Hs); exists i, l; simpl in *;
        (split; [exact Hl |]); now replace (k + S i) with (S k + i) in * by lia. }
    split.
    + intros Hin.
      assert (Hcases : scanLine s now f k ln rest = Some t \/
                       In t (scanLines s now f (S k) rest)).
      { destruct (scanLine s now f k ln rest) as [t' |].
        - destruct Hin as [-> | Hin]; [now left | now right].
        - now right. }
      destruct Hcases as [Hhere | Hlater].
      * exists 0, ln. split; [reflexivity |]. simpl. rewrite drop_0.
        now rewrite Nat.add_0_r.
      * apply Hrest in Hlater as (i & l & Hl & Hs). now exists (S i), l.
    + intros ([| i] & l & Hl & Hs).
      * simpl in Hl. injection Hl as <-. simpl in Hs. rewrite drop_0, Nat.add_0_r in Hs.
        rewrite Hs. now left.
      * assert (Hlater : In t (scanLines s now f (S k) rest))
          by (apply Hrest; now exists i, l).
        destruct (scanLine s now f k ln rest); [now right | exact Hlater].
Qed.

Lemma loadTasksManually_In (v : Vault) (s : CreateTaskButtonSettings) (now : Z) (t : Task) :
  In t (loadTasksManually v s now) <->
  exists f content i ln,
    In f (vaultFiles v) /\ inScanScope (normalizedFolderPathOf s) f = true /\
    vault_read v f = Some content /\ splitLines content !! i = Some ln /\
    scanLine s now f i ln (drop (S i) (splitLines content)) = Some t.
Proof.
  unfold loadTasksManually. cbv zeta. rewrite in_flat_map. split.
  - intros (f & Hf & Hin).
    destruct (inScanScope (normalizedFolderPathOf s) f) eqn:Hscope; [| destruct Hin].
    destruct (vault_read v f) as [content |] eqn:Hread; [| destruct Hin].
    apply scanLines_In in Hin as (i & ln & Hl & Hs).
    exists f, content, i, ln. auto.
  - intros (f & content & i & ln & Hf & Hscope & Hread & Hl & Hs).
    exists f. split; [exact Hf |]. rewrite Hscope, Hread.
    apply scanLines_In. now exists i, ln.
Qed.

(** The text a scanned task carries: the captured text and the nested lines. *)
Lemma scanLine_shape (s : CreateTaskButtonSettings) (now : Z) (f : TFile) (i : nat)
    (ln : jsstring) (following : list jsstring) (t : Task) :
  scanLine s now f i ln following = Some t ->
  exists indent m txt,
    matchTaskLine ln = Some (indent, m, txt) /\
    includes txt calendarEmoji = true /\
    file t = f /\ line t = i /\ isCompleted t = markerCompleted m /\
    text t = txt ++ match collectNested (length indent) following with
                    | [] => []
                    | _ => chNewline :: joinLines (collectNested (length indent) following)
                    end /\
    t = mkTask (text t) (date t) f i (markerCompleted m) /\
    forall i' ln' m',
      matchTaskLine ln' = Some (indent, m', txt) ->
      scanLine s now f i' ln' following
      = Some (mkTask (text t) (date t) f i' (markerCompleted m')).
Proof.
  unfold scanLine.
  destruct (matchTaskLine ln) as [[[indent m] txt] |] eqn:Hm; [| discriminate].
  destruct (includes txt calendarEmoji) eqn:Hinc; simpl; [| discriminate].
  intros [= <-]. exists indent, m, txt. cbn [text date file line isCompleted].
  repeat match goal with |- _ /\ _ => split end; try reflexivity; try assumption.
  intros i' ln' m' Hm'. rewrite Hm', Hinc. reflexivity.
Qed.

Lemma matchTaskLine_toggle (ln indent txt : jsstring) (m : jschar) :
  matchTaskLine ln = Some (indent, m, txt) ->
  exists b, matchToggleLine ln = Some (indent ++ [b], m, txt) /\
            Forall (fun c => isWhiteSpace c = true) indent /\ isBullet b = true /\
            isMarker m = true /\ tailShape txt.
Proof.
  unfold matchTaskLine, matchToggleLine.
  destruct (matchTaskHead ln) as [[[[w b] m0] r] |] eqn:Hh; [| discriminate].
  destruct (matchTail r) as [txt0 |] eqn:Ht; [| discriminate].
  intros [= <- <- <-]. exists b. split; [reflexivity |].
  apply matchTaskHead_sound in Hh as (sp & _ & Hw & Hb & _ & _ & Hmk).
  apply matchTail_sound in Ht as [Hshape _]. auto.
Qed.

Lemma matchTaskLine_checklistLine (w txt : jsstring) (b status : jschar) :
  Forall (fun c => isWhiteSpace c = true) w -> isBullet b = true ->
  isMarker status = true -> tailShape txt ->
  matchTaskLine (checklistLine (w ++ [b]) status txt) = Some (w, status, txt).
Proof.
  intros Hw Hb Hm Ht.
  pose proof (matchToggleLine_checklistLine w txt b status Hw Hb Hm Ht) as Htog.
  unfold matchToggleLine in Htog. unfold matchTaskLine.
  destruct (matchTaskHead _) as [[[[w' b'] m'] r'] |]; [| discriminate].
  destruct (matchTail r') as [txt' |]; [| discriminate].
  injection Htog as Hwb <- <-. apply app_inj_tail in Hwb as [-> _]. reflexivity.
Qed.

Lemma scanned_task_toggle (v : Vault) (s : CreateTaskButtonSettings) (now : Z) (t : Task) :
  In t (loadTasksManually v s now) ->
  exists content ln indent b m txt,
    In (file t) (vaultFiles v) /\ inScanScope (normalizedFolderPathOf s) (file t) = true /\
    vault_read v (file t) = Some content /\
    splitLines content !! line t = Some ln /\
    matchTaskLine ln = Some (indent, m, txt) /\
    matchToggleLine ln = Some (indent ++ [b], m, txt) /\
    Forall (fun c => isWhiteSpace c = true) indent /\ isBullet b = true /\
    isMarker m = true /\ tailShape txt /\
    scanLine s now (file t) (line t) ln (drop (S (line t)) (splitLines content)) = Some t.
Proof.
  intros Hin. apply loadTasksManually_In in Hin
    as (f & content & i & ln & Hf & Hscope & Hread & Hl & Hs).
  destruct (scanLine_shape _ _ _ _ _ _ _ Hs)
    as (indent & m & txt & Hm & _ & Hfile & Hline & _).
  destruct (matchTaskLine_toggle _ _ _ _ Hm) as (b & Htog & Hw & Hb & Hmk & Hshape).
  subst f i. exists content, ln, indent, b, m, txt.
  repeat match goal with |- _ /\ _ => split end; assumption.
Qed.

End ScanFacts.

(** X13. Every task the raw scan finds points at a checklist line of a note
    of the vault within the scan scope: the line at its index matches the
    task pattern, the captured text carries the calendar emoji, the task is
    completed exactly when the marker is not a space, and its text is the
    captured text followed by the nested lines. *)
Theorem scanned_task_points_at_its_line `{HostEnv} (v : Vault)
    (s : CreateTaskButtonSettings) (now : Z) (t : Task) :
  In t (loadTasksManually v s now) ->
  In (file t) (vaultFiles v) /\
  inScanScope (normalizedFolderPathOf s) (file t) = true /\
  exists content ln indent m txt,
    vault_read v (file t) = Some content /\
    splitLines content !! line t = Some ln /\
    matchTaskLine ln = Some (indent, m, txt) /\
    includes txt calendarEmoji = true /\
    isCompleted t = markerCompleted m /\
    let nested := collectNested (length indent) (drop (S (line t)) (splitLines content)) in
    text t = txt ++ match nested with
                    | [] => []
                    | _ => chNewline :: joinLines nested
                    end.
Proof.
  intros Hin. apply loadTasksManually_In in Hin
    as (f & content & i & ln & Hf & Hscope & Hread & Hl & Hs).
  destruct (scanLine_shape _ _ _ _ _ _ _ Hs)
    as (indent & m & txt & Hm & Hinc & Hfile & Hline & Hc & Htext & _).
  subst f i. split; [exact Hf |]. split; [exact Hscope |].
  exists content, ln, indent, m, txt.
  repeat match goal with |- _ /\ _ => split end; assumption.
Qed.

(** X14. The direct toggle of a task the raw scan has just found fails only
    when the host refuses the write of its note; when it succeeds it flips
    the completion flag of the task. *)
Theorem scanned_task_toggles `{HostEnv} (v : Vault)
    (s : CreateTaskButtonSettings) (now : Z) (t : Task) :
  In t (loadTasksManually v s now) ->
  let r := toggleTaskCompletionDirect v t in
  (trSuccess r = true <-> path (file t) ∉ vaultRefused v) /\
  (trSuccess r = true -> isCompleted (trTask r) = negb (isCompleted t)).
Proof.
  intros Hin. cbv zeta.
  destruct (scanned_task_toggle v s now t Hin)
    as (content & ln & indent & b & m & txt & _ & _ & Hread & Hl & Hm & Htog & _ & _ & _ & _ & Hs).
  destruct (scanLine_shape _ _ _ _ _ _ _ Hs) as (i0 & m0 & t0 & Hm0 & _ & _ & _ & Hc & _).
  rewrite Hm in Hm0. injection Hm0 as <- <- <-.
  split.
  - split.
    + intros Hok. apply direct_success in Hok
        as (c' & l' & i' & m' & t' & _ & _ & _ & Hmod).
      now apply vault_modify_spec in Hmod.
    + intros Hfree.
      destruct (vault_modify_accepts v (file t) content
                  (joinLines (<[line t := checklistLine (indent ++ [b]) (newStatusOf m) txt]>
                                (splitLines content))) Hread Hfree) as [v' Hmod].
      destruct (direct_step v v' t content ln _ txt m Hread Hl Htog Hmod) as [Hr _].
      now rewrite Hr.
  - intros Hok. apply direct_success_step in Hok
      as (c' & l' & i' & m' & t' & v' & Hread' & Hl' & Htog' & Hr & _).
    rewrite Hread in Hread'. injection Hread' as <-.
    rewrite Hl in Hl'. injection Hl' as <-.
    rewrite Htog in Htog'. injection Htog' as <- <- <-.
    rewrite Hr. simpl. rewrite Hc. unfold newStatusOf.
    destruct (markerCompleted m); reflexivity.
Qed.

(** X15. After a successful direct toggle of a task the raw scan has found,
    the next scan finds the task as the toggle left it: the same text, date,
    note and line, with the completion flag the toggle has set. *)
Theorem toggled_task_is_found_again `{HostEnv} (v : Vault)
    (s : CreateTaskButtonSettings) (now : Z) (t : Task) :
  In t (loadTasksManually v s now) ->
  let r := toggleTaskCompletionDirect v t in
  trSuccess r = true ->
  In (trTask r) (loadTasksManually (trVault r) s now).
Proof.
  intros Hin r Hok. subst r.
  destruct (scanned_task_toggle v s now t Hin)
    as (content & ln & indent & b & m & txt & Hf & Hscope & Hread & Hl & Hm & Htog
        & Hw & Hb & Hmk & Hshape & Hs).
  destruct (direct_success v t Hok)
    as (c' & l' & i' & m' & t' & Hread' & Hl' & Htog' & Hmod).
  rewrite Hread in Hread'. injection Hread' as <-.
  rewrite Hl in Hl'. injection Hl' as <-.
  rewrite Htog in Htog'. injection Htog' as <- <- <-.
  destruct (direct_step v _ t content ln _ txt m Hread Hl Htog Hmod)
    as (Hr & Hread1 & Hsplit & Hline1 & _).
  apply vault_modify_spec in Hmod as (_ & Hfiles & _).
  rewrite Hr in *. cbn [trVault trTask trSuccess] in *.
  set (v1 := trVault (toggleTaskCompletionDirect v t)) in *.
  apply loadTasksManually_In.
  exists (file t), (joinLines (<[line t := checklistLine (indent ++ [b]) (newStatusOf m) txt]>
                                 (splitLines content))), (line t),
         (checklistLine (indent ++ [b]) (newStatusOf m) txt).
  rewrite Hfiles, Hsplit.
  repeat match goal with |- _ /\ _ => split end; try assumption.
  destruct (scanLine_shape _ _ _ _ _ _ _ Hs)
    as (i0 & m0 & t0 & Hm0 & _ & _ & _ & _ & _ & Ht & Hother).
  rewrite Hm in Hm0. injection Hm0 as <- <- <-.
  rewrite drop_insert_lt by lia.
  assert (HnewMarker : isMarker (newStatusOf m) = true).
  { unfold newStatusOf. destruct (markerCompleted m); reflexivity. }
  etransitivity;
    [apply Hother, (matchTaskLine_checklistLine indent txt b _ Hw Hb HnewMarker Hshape) |].
  rewrite Ht at 3. reflexivity.
Qed.

(** ** What a toggle leaves alone *)

Section FrameFacts.

Lemma sameTask_setCompleted (task : Task) (b : bool) : sameTask (setCompleted task b) task.
Proof. unfold sameTask. simpl. auto. Qed.

Lemma sameTask_refl (task : Task) : sameTask task task.
Proof. unfold sameTask. auto. Qed.

Lemma direct_task (v : Vault) (task : Task) :
  let r := toggleTaskCompletionDirect v task in
  sameTask (trTask r) task /\ (trSuccess r = false -> trTask r = task).
Proof.
  cbv zeta. destruct (trSuccess (toggleTaskCompletionDirect v task)) eqn:Hs.
  - apply direct_success_step in Hs as (c & l & i & m & t & v' & _ & _ & _ & Hr & _).
    rewrite Hr. simpl. split; [apply sameTask_setCompleted | discriminate].
  - apply direct_failure in Hs. rewrite Hs. simpl. split; [apply sameTask_refl | auto].
Qed.

(** A strategy that ends the call hands back the task it was given, the
    flag apart, and the very task when it reports a failure. *)
Lemma tryEffect_task (e : ExtEffect) (v : Vault) (task : Task) (r : ToggleResult) :
  tryEffect e v task = Finished r -> sameTask (trTask r) task /\ trSuccess r = true.
Proof.
  unfold tryEffect. destruct (e v); [| discriminate].
  intros [= <-]. simpl. split; [apply sameTask_setCompleted | reflexivity].
Qed.

Lemma tryOptionalEffect_task (e : option ExtEffect) (v : Vault) (task : Task)
    (r : ToggleResult) :
  tryOptionalEffect e v task = Finished r -> sameTask (trTask r) task /\ trSuccess r = true.
Proof. destruct e; simpl; [apply tryEffect_task | discriminate]. Qed.

Lemma runCommands_task (ws : Workspace) (cmds : list jsstring) (v : Vault) (task : Task)
    (r : ToggleResult) :
  runCommands ws cmds v task = Finished r -> sameTask (trTask r) task /\ trSuccess r = true.
Proof.
  revert v. induction cmds as [| c cmds IH]; intros v; simpl; [discriminate |].
  destruct (tryEffect (wsExecuteCommandById ws c) v task) as [r' | v'] eqn:He.
  - intros [= <-]. eapply tryEffect_task. exact He.
  - apply IH.
Qed.

Lemma toggleTaskViaCommand_task (ws : Workspace) (v : Vault) (task : Task) :
  let r := toggleTaskViaCommand ws v task in
  sameTask (trTask r) task /\ (trSuccess r = false -> trTask r = task).
Proof.
  cbv zeta. unfold toggleTaskViaCommand.
  destruct (wsOpenFile ws (file task)); [| apply direct_task].
  destruct (wsIsMarkdownView ws); [| apply direct_task].
  destruct (runCommands ws (targetCommandsOf task) v task) as [r | v'] eqn:Hr;
    [| apply direct_task].
  apply runCommands_task in Hr as [Hsame Hok]. split; [exact Hsame | congruence].
Qed.

Lemma toggleViaExecuteCommand_task (tasksApi : TasksApi) (v : Vault) (task : Task)
    (r : ToggleResult) :
  toggleViaExecuteCommand tasksApi v task = Finished r ->
  sameTask (trTask r) task /\ (trSuccess r = false -> trTask r = task).
Proof.
  unfold toggleViaExecuteCommand.
  destruct (apiExecuteToggleTaskDoneCommand tasksApi) as [exec |]; [| discriminate].
  destruct (vault_read v (file task)) as [content |]; [| discriminate].
  case_bool_decide.
  - intros [= <-]. apply direct_task.
  - destruct (splitLines content !! line task) as [taskLine |]; [| discriminate].
    destruct (exec taskLine (path (file task))) as [newTaskLine |]; [| discriminate].
    destruct (vault_modify _ _ _); [| discriminate].
    intros [= <-]. simpl. split; [apply sameTask_setCompleted | discriminate].
Qed.

Lemma toggleViaToggleTask_task (tasksApi : TasksApi) (v : Vault) (task : Task)
    (r : ToggleResult) :
  toggleViaToggleTask tasksApi v task = Finished r ->
  sameTask (trTask r) task /\ trSuccess r = true.
Proof.
  unfold toggleViaToggleTask.
  destruct (apiToggleTask tasksApi) as [toggleTask |]; [| discriminate].
  destruct (findApiTask _ task); [apply tryEffect_task | discriminate].
Qed.

End FrameFacts.

(** X16. The direct toggle rewrites one line of one note and nothing else:
    the list of notes, the other notes and every other line of the task's
    note are as before, and the note keeps its number of lines. *)
Theorem direct_toggle_touches_one_line (v : Vault) (task : Task) :
  let r := toggleTaskCompletionDirect v task in
  vaultFiles (trVault r) = vaultFiles v /\
  vaultRefused (trVault r) = vaultRefused v /\
  (forall f, path f <> path (file task) -> vault_read (trVault r) f = vault_read v f) /\
  (forall content, vault_read v (file task) = Some content ->
     exists content', vault_read (trVault r) (file task) = Some content' /\
       length (splitLines content') = length (splitLines content) /\
       forall j, j <> line task -> splitLines content' !! j = splitLines content !! j).
Proof.
  cbv zeta. destruct (trSuccess (toggleTaskCompletionDirect v task)) eqn:Hs.
  - destruct (direct_success v task Hs)
      as (content & ln & indent & m & txt & Hread & Hline & Hmatch & Hmod).
    destruct (direct_step v _ task content ln indent txt m Hread Hline Hmatch Hmod)
      as (_ & Hread' & Hsplit & _).
    apply vault_modify_spec in Hmod as (Htext & Hfiles & Hrefused & _).
    repeat match goal with |- _ /\ _ => split end; try assumption.
    + intros f Hne. unfold vault_read. rewrite Htext.
      apply lookup_insert_ne. congruence.
    + intros content0 Hread0. rewrite Hread in Hread0. injection Hread0 as <-.
      eexists. split; [exact Hread' |]. rewrite Hsplit. split.
      * apply length_insert.
      * intros j Hj. apply list_lookup_insert_ne. congruence.
  - apply direct_failure in Hs. rewrite Hs. simpl.
    repeat match goal with |- _ /\ _ => split end; try reflexivity.
    intros content Hread. exists content. auto.
Qed.

(** X17. Whichever strategy of the toggle protocol ends the call, the task
    object keeps its text, date, note and line; and when the call reports a
    failure the task object is as it was, its flag included. *)
Theorem toggle_keeps_the_task (service : option TasksApi) (ws : Workspace)
    (v : Vault) (task : Task) :
  let r := toggleTaskCompletion service ws v task in
  sameTask (trTask r) task /\ (trSuccess r = false -> trTask r = task).
Proof.
  cbv zeta. unfold toggleTaskCompletion.
  destruct service as [tasksApi |]; [| apply direct_task].
  destruct (toggleViaExecuteCommand tasksApi v task) as [r1 | v1] eqn:H1; simpl.
  { eapply toggleViaExecuteCommand_task. exact H1. }
  destruct (toggleViaToggleTask tasksApi v1 task) as [r2 | v2] eqn:H2; simpl.
  { apply toggleViaToggleTask_task in H2 as [Hsame Hok]. split; [exact Hsame | congruence]. }
  destruct (apiListing tasksApi) as [allTasks |]; [| apply toggleTaskViaCommand_task].
  destruct (findApiTask allTasks task) as [apiTask |]; [| apply toggleTaskViaCommand_task].
  destruct (tryOptionalEffect (apiToggle apiTask) v2 task) as [r4 | v4] eqn:H4; simpl.
  { apply tryOptionalEffect_task in H4 as [Hsame Hok]. split; [exact Hsame | congruence]. }
  destruct (tryOptionalEffect (apiToggleDone apiTask) v4 task) as [r5 | v5] eqn:H5; simpl.
  { apply tryOptionalEffect_task in H5 as [Hsame Hok]. split; [exact Hsame | congruence]. }
  destruct (tryOptionalEffect _ v5 task) as [r6 | v6] eqn:H6; simpl.
  { apply tryOptionalEffect_task in H6 as [Hsame Hok]. split; [exact Hsame | congruence]. }
  apply toggleTaskViaCommand_task.
Qed.

(** X18. With a service that offers [executeToggleTaskDoneCommand], a task
    whose line index lies beyond the last line of its note is not toggled:
    the call returns false at once, the notes and the task untouched, and
    neither the service nor a host command is run. *)
Theorem stale_line_is_not_toggled (tasksApi : TasksApi) (ws : Workspace)
    (v : Vault) (task : Task) (content : jsstring) :
  is_Some (apiExecuteToggleTaskDoneCommand tasksApi) ->
  vault_read v (file task) = Some content ->
  length (splitLines content) <= line task ->
  toggleTaskCompletion (Some tasksApi) ws v task = mkToggleResult v task false.
Proof.
  intros [exec Hexec] Hread Hlen.
  unfold toggleTaskCompletion, toggleViaExecuteCommand.
  rewrite Hexec, Hread. rewrite bool_decide_eq_true_2 by exact Hlen. simpl.
  unfold toggleTaskCompletionDirect. rewrite Hread.
  rewrite bool_decide_eq_true_2 by exact Hlen. reflexivity.
Qed.

(** ** Settings migration and the folder of new notes *)

Section FolderFacts.

Lemma migrateSettings_cases (s : CreateTaskButtonSettings) :
  (migrateSettings s = s) \/
  (tasksFolderPath s <> [] /\ createTaskFolderPath s = [] /\ calendarFolderPath s = [] /\
   migrateSettings s = mkSettings (tasksFolderPath s) (tasksFolderPath s) (tasksFolderPath s)
                                  (filenameFormat s) (showCompletedTasks s)).
Proof.
  unfold migrateSettings.
  destruct (tasksFolderPath s) as [| a ta] eqn:Ht; simpl; [now left |].
  destruct (createTaskFolderPath s) as [| b tb] eqn:Hc; simpl; [| now left].
  destruct (calendarFolderPath s) as [| c tc] eqn:Hk; simpl; [| now left].
  right. repeat split; discriminate.
Qed.

End FolderFacts.

(** X19. The migration of legacy settings keeps the folders in use: new
    notes go to the same path and the calendar scans the same scope as
    before it; when both newer folder settings are empty they take the
    legacy folder; and a second run changes nothing. *)
Theorem migration_keeps_folders (s : CreateTaskButtonSettings) (dateHeader : jsstring) :
  let s' := migrateSettings s in
  monthlyNotePath s' dateHeader = monthlyNotePath s dateHeader /\
  normalizedFolderPathOf s' = normalizedFolderPathOf s /\
  (createTaskFolderPath s = [] -> calendarFolderPath s = [] ->
   createTaskFolderPath s' = tasksFolderPath s /\ calendarFolderPath s' = tasksFolderPath s) /\
  tasksFolderPath s' = tasksFolderPath s /\
  filenameFormat s' = filenameFormat s /\
  showCompletedTasks s' = showCompletedTasks s /\
  migrateSettings s' = s'.
Proof.
  cbv zeta.
  destruct (migrateSettings_cases s) as [Heq | (Ht & Hc & Hk & Heq)].
  - rewrite Heq. repeat match goal with |- _ /\ _ => split end; try reflexivity; try exact Heq.
    intros Hc Hk. unfold migrateSettings in Heq. rewrite Hc, Hk in *.
    destruct (tasksFolderPath s) as [| a ta] eqn:Hts; [now split |].
    simpl in Heq.
    split; [apply (f_equal createTaskFolderPath) in Heq
           | apply (f_equal calendarFolderPath) in Heq]; simpl in Heq; congruence.
  - rewrite Heq. unfold monthlyNotePath, normalizedFolderPathOf. simpl.
    rewrite Hc, Hk.
    destruct (tasksFolderPath s) as [| a ta] eqn:Hts; [contradiction |].
    repeat match goal with |- _ /\ _ => split end; try reflexivity; try discriminate.
    intros _ _. split; reflexivity.
Qed.

Section ScopeFacts.

Lemma span_head_false (f : jschar -> bool) (s : jsstring) :
  match s with c :: _ => f c = false | [] => True end -> span f s = ([], s).
Proof. destruct s as [| c s]; simpl; [reflexivity |]. now intros ->. Qed.

Lemma stripSlashes_fixed (s : jsstring) :
  match s with c :: _ => isSlash c = false | [] => True end ->
  match rev s with c :: _ => isSlash c = false | [] => True end ->
  stripSlashes s = s.
Proof.
  intros Hhead Hlast. unfold stripSlashes.
  rewrite (span_head_false isSlash s Hhead). simpl.
  rewrite (span_head_false isSlash (rev s) Hlast). simpl. apply rev_involutive.
Qed.

(** What is left of a path without its leading and trailing slashes neither
    starts nor ends with a slash. *)
Lemma stripSlashes_ends (s : jsstring) :
  match stripSlashes s with c :: _ => isSlash c = false | [] => True end /\
  match rev (stripSlashes s) with c :: _ => isSlash c = false | [] => True end.
Proof.
  unfold stripSlashes.
  destruct (span isSlash s) as [a b] eqn:Hs. simpl.
  apply span_spec in Hs as (_ & _ & Hb).
  destruct (span isSlash (rev b)) as [a' b'] eqn:Hr. simpl.
  apply span_spec in Hr as (Hrev & Ha' & Hb').
  rewrite rev_involutive. split; [| exact Hb'].
  assert (Hbeq : b = rev b' ++ rev a').
  { rewrite <- (rev_involutive b), Hrev, rev_app_distr. reflexivity. }
  destruct (rev b') as [| c r] eqn:Hrb; [exact I |].
  rewrite Hbeq in Hb. simpl in Hb. exact Hb.
Qed.

Lemma monthlyNotePath_strip (folder dateHeader : jsstring) :
  folder <> [] ->
  match folder with c :: _ => isSlash c = false | [] => True end ->
  stripSlashes (folder ++ chSlash :: dateHeader ++ u16 ".md")
  = folder ++ chSlash :: dateHeader ++ u16 ".md".
Proof.
  intros Hne Hhead. apply stripSlashes_fixed.
  - destruct folder as [| c r]; [contradiction | exact Hhead].
  - rewrite rev_app_distr. simpl. rewrite rev_app_distr. simpl. reflexivity.
Qed.

End ScopeFacts.

(** X20. When the folder for new notes and the folder of the calendar are
    set alike (as the migration of legacy settings leaves them), the
    monthly note a task is written to lies within the scope the calendar
    scans. *)
Theorem created_note_is_in_scope (s : CreateTaskButtonSettings) (dateHeader : jsstring)
    (f : TFile) :
  orElse (createTaskFolderPath s) (orElse (tasksFolderPath s) [])
    = orElse (calendarFolderPath s) (orElse (tasksFolderPath s) []) ->
  path f = monthlyNotePath s dateHeader ->
  inScanScope (normalizedFolderPathOf s) f = true.
Proof.
  intros Hsame Hpath. unfold inScanScope, normalizedFolderPathOf. cbv zeta.
  unfold monthlyNotePath in Hpath. cbv zeta in Hpath. rewrite Hsame in Hpath.
  set (setting := orElse (calendarFolderPath s) (orElse (tasksFolderPath s) [])) in *.
  destruct (trim setting) as [| c r] eqn:Htrim; [reflexivity |].
  destruct (stripSlashes (c :: r)) as [| c' r'] eqn:Hstrip; [reflexivity |].
  rewrite Hpath.
  pose proof (stripSlashes_ends (c :: r)) as [Hhead _]. rewrite Hstrip in Hhead.
  change (c' :: r' ++ chSlash :: dateHeader ++ u16 ".md")
    with ((c' :: r') ++ chSlash :: dateHeader ++ u16 ".md").
  rewrite monthlyNotePath_strip by (try discriminate; exact Hhead).
  unfold startsWith. apply startsWithBy_self.
Qed.

(** ** The note after a task is added *)

Section AppendFacts.

Lemma splitLines_app (a b : jsstring) :
  splitLines (a ++ chNewline :: b) = splitLines a ++ splitLines b.
Proof.
  induction a as [| c a IH]; simpl; [reflexivity |].
  destruct (c =? chNewline)%N; [now rewrite IH |].
  rewrite IH. pose proof (splitLines_nonempty a) as Hne.
  destruct (splitLines a) as [| l ls]; [contradiction | reflexivity].
Qed.

(** [trimEnd] drops a run of white space at the end and nothing else. *)
Lemma trimEnd_spec (s : jsstring) :
  exists w, s = trimEnd s ++ w /\ Forall (fun c => isWhiteSpace c = true) w /\
            match rev (trimEnd s) with c :: _ => isWhiteSpace c = false | [] => True end.
Proof.
  unfold trimEnd, trimStart.
  destruct (span isWhiteSpace (rev s)) as [a b] eqn:Hs. simpl.
  apply span_spec in Hs as (Hrev & Ha & Hb).
  exists (rev a). repeat split.
  - rewrite <- rev_app_distr, <- Hrev. symmetry. apply rev_involutive.
  - apply List.Forall_forall. intros c Hc. apply in_rev in Hc.
    rewrite List.Forall_forall in Ha. now apply Ha.
  - rewrite rev_involutive. exact Hb.
Qed.

Lemma trimStart_spec (s : jsstring) :
  exists w, s = w ++ trimStart s /\ Forall (fun c => isWhiteSpace c = true) w.
Proof.
  unfold trimStart. destruct (span isWhiteSpace s) as [a b] eqn:Hs. simpl.
  apply span_spec in Hs as (-> & Ha & _). now exists a.
Qed.

Lemma trim_spec (s : jsstring) : exists w1 w2, s = w1 ++ trim s ++ w2.
Proof.
  unfold trim. destruct (trimStart_spec s) as (w1 & Hs & _).
  destruct (trimEnd_spec (trimStart s)) as (w2 & Ht & _).
  exists w1, w2. now rewrite <- Ht.
Qed.

Lemma endsWith_noNewline (l : jsstring) : noNewline l -> endsWith l [chNewline] = false.
Proof.
  intros Hl. unfold endsWith, startsWith. change (rev [chNewline]) with [chNewline].
  destruct (rev l) as [| c r] eqn:Hr; [reflexivity |].
  unfold startsWithBy, eqChar.
  destruct (N.eqb_spec chNewline c) as [<- | Hne]; [| reflexivity].
  exfalso. apply Hl. apply (proj2 (in_rev l chNewline)). rewrite Hr. now left.
Qed.

(** The lines of the note written by [insertTask]. *)
Lemma appendTaskLine_lines (content finalTaskLine : jsstring) :
  noNewline finalTaskLine ->
  appendTaskLine content finalTaskLine
    = trimEnd content
      ++ (if bool_decide (0 < length (trimEnd content)) then [chNewline] else [])
      ++ finalTaskLine ++ [chNewline] /\
  splitLines (appendTaskLine content finalTaskLine)
    = (if bool_decide (0 < length (trimEnd content)) then splitLines (trimEnd content) else [])
      ++ [finalTaskLine; []].
Proof.
  intros Hl. unfold appendTaskLine. cbv zeta.
  rewrite (endsWith_noNewline _ Hl). split; [reflexivity |].
  assert (Hlast : splitLines (finalTaskLine ++ [chNewline]) = [finalTaskLine; []]).
  { etransitivity; [exact (splitLines_app finalTaskLine []) |].
    now rewrite (splitLines_single _ Hl). }
  case_bool_decide as Hlen.
  - change ([chNewline] ++ finalTaskLine ++ [chNewline])
      with (chNewline :: finalTaskLine ++ [chNewline]).
    etransitivity; [apply splitLines_app |]. f_equal. exact Hlast.
  - destruct (trimEnd content); [| simpl in Hlen; lia]. simpl app at 1. exact Hlast.
Qed.

End AppendFacts.

(** X21. Adding a task line (one without a newline) to a note keeps the
    note up to its trailing white space and puts the line after it: the new
    text is the old one with the white space at its end replaced by a
    newline (none for a blank note), the task line and a newline, so the new
    line is the last but one line and the last line is empty. *)
Theorem added_line_ends_the_note (content finalTaskLine : jsstring) :
  noNewline finalTaskLine ->
  let newContent := appendTaskLine content finalTaskLine in
  let kept := trimEnd content in
  (exists w, content = kept ++ w /\ Forall (fun c => isWhiteSpace c = true) w) /\
  match rev kept with c :: _ => isWhiteSpace c = false | [] => True end /\
  newContent = kept ++ (if bool_decide (0 < length kept) then [chNewline] else [])
                    ++ finalTaskLine ++ [chNewline] /\
  splitLines newContent
    = (if bool_decide (0 < length kept) then splitLines kept else [])
      ++ [finalTaskLine; []].
Proof.
  intros Hl. cbv zeta.
  destruct (trimEnd_spec content) as (w & Hw & Hws & Hend).
  destruct (appendTaskLine_lines content finalTaskLine Hl) as [Heq Hlines].
  repeat match goal with |- _ /\ _ => split end; try assumption.
  now exists w.
Qed.


(** ** A new task and the scan *)

Section CreateScanFacts.
Context `{HostEnv}.

Lemma occursBy_after (ci : bool) (p a s : jsstring) :
  occursBy ci p s = true -> occursBy ci p (a ++ s) = true.
Proof.
  intros Hs. induction a as [| c a IH]; [exact Hs |].
  simpl. rewrite IH. apply orb_true_r.
Qed.

Lemma occursBy_within (ci : bool) (p a s b : jsstring) :
  occursBy ci p s = true -> occursBy ci p (a ++ s ++ b) = true.
Proof. intros Hs. apply occursBy_after. now apply occursBy_app. Qed.

(** The surrogates of the emoji are no letters: the [i] flag does not
    change where it is found. *)
Lemma eqChar_high (a b : jschar) : (122 < a)%N -> eqChar true a b = eqChar false a b.
Proof.
  intros Ha. unfold eqChar, canonicalize, inRange.
  destruct (N.leb_spec 97 a), (N.leb_spec a 122); simpl; try lia;
    destruct (N.leb_spec 97 b), (N.leb_spec b 122); simpl; try reflexivity.
  destruct (N.eqb_spec a (b - 32)), (N.eqb_spec a b); try reflexivity; lia.
Qed.

Lemma emoji_case_blind (s : jsstring) :
  occursBy true calendarEmoji s = occursBy false calendarEmoji s.
Proof.
  induction s as [| c s IH]; [reflexivity |].
  cbn [occursBy]. rewrite IH. f_equal.
  unfold calendarEmoji. cbn [startsWithBy].
  rewrite (eqChar_high _ c) by lia.
  destruct s as [| d s]; [reflexivity |].
  now rewrite (eqChar_high _ d) by lia.
Qed.

Lemma occurs_two_In (a b : jschar) (s : jsstring) :
  occursBy false [a; b] s = true -> In b s.
Proof.
  induction s as [| c s IH]; [discriminate |].
  cbn [occursBy startsWithBy]. intros Ho. apply orb_true_iff in Ho as [Hs | Ho].
  - destruct s as [| d s]; [now rewrite andb_false_r in Hs |].
    apply andb_true_iff in Hs as [_ Hs]. apply andb_true_iff in Hs as [Hs _].
    unfold eqChar in Hs. apply N.eqb_eq in Hs. subst d. right. now left.
  - right. now apply IH.
Qed.

Lemma occurs_two_app (a b : jschar) (x y : jsstring) :
  occursBy false [a; b] (x ++ y) = true -> ~ In b y -> occursBy false [a; b] x = true.
Proof.
  intros Ho Hy. induction x as [| c x IH].
  - exfalso. apply Hy. now apply (occurs_two_In a b).
  - change ((c :: x) ++ y) with (c :: (x ++ y)) in Ho.
    cbn [occursBy] in Ho. apply orb_true_iff in Ho as [Hs | Ho].
    + cbn [occursBy]. apply orb_true_iff. left.
      cbn [startsWithBy] in Hs |- *.
      destruct x as [| d x].
      * destruct y as [| d y]; [now rewrite andb_false_r in Hs |].
        simpl app in Hs.
        apply andb_true_iff in Hs as [_ Hs]. apply andb_true_iff in Hs as [Hs _].
        unfold eqChar in Hs. apply N.eqb_eq in Hs. subst d.
        exfalso. apply Hy. now left.
      * exact Hs.
    + cbn [occursBy]. rewrite (IH Ho). apply orb_true_r.
Qed.

(** The date token of [insertTask] is made of ASCII characters. *)
Lemma natToString_ascii (n : nat) : Forall (fun c => (c < 128)%N) (natToString n).
Proof.
  unfold natToString. eapply Forall_impl; [apply uintUnits_digits |].
  intros c Hc. unfold isDigit, inRange in Hc.
  apply andb_true_iff in Hc as [_ Hc]. apply N.leb_le in Hc. lia.
Qed.

Lemma intToString_ascii (z : Z) : Forall (fun c => (c < 128)%N) (intToString z).
Proof.
  unfold intToString. destruct (z <? 0)%Z; [constructor; [reflexivity |] |];
    apply natToString_ascii.
Qed.

Lemma padStart2_ascii (s : jsstring) :
  Forall (fun c => (c < 128)%N) s -> Forall (fun c => (c < 128)%N) (padStart2 s).
Proof.
  intros Hs. destruct s as [| a [| b s]]; simpl; [| | exact Hs].
  - repeat constructor.
  - constructor; [reflexivity | exact Hs].
Qed.

Lemma dueToken_ascii (t : Z) :
  Forall (fun c => (c < 128)%N) (u16 " due::" ++ formatDateStr t).
Proof.
  unfold formatDateStr. apply Forall_app. split; [repeat constructor |].
  apply Forall_app. split; [apply intToString_ascii |].
  constructor; [reflexivity |].
  apply Forall_app. split; [apply padStart2_ascii, intToString_ascii |].
  constructor; [reflexivity |]. apply padStart2_ascii, intToString_ascii.
Qed.

(** A line that gets the date token carries no calendar emoji afterwards. *)
Lemma finalTaskLine_no_emoji (dt : Z) (taskLine : jsstring) :
  hasDate taskLine = false ->
  includes (finalTaskLineOf (Some dt) taskLine) calendarEmoji = false.
Proof.
  intros Hno. unfold finalTaskLineOf. rewrite Hno. simpl negb. cbv iota.
  assert (Hline : occursBy false calendarEmoji taskLine = false).
  { rewrite <- emoji_case_blind. unfold hasDate, hasDateMarkers in Hno.
    cbn [existsb] in Hno. do 6 (apply orb_false_iff in Hno as [_ Hno]).
    now apply orb_false_iff in Hno as [Hno _]. }
  apply not_true_is_false. intros Hinc. unfold includes in Hinc.
  apply occurs_two_app in Hinc.
  - destruct (trim_spec taskLine) as (w1 & w2 & Hs).
    apply (occursBy_within false calendarEmoji w1 _ w2) in Hinc.
    rewrite <- Hs in Hinc. congruence.
  - intros Hin. pose proof (dueToken_ascii dt) as Hall.
    rewrite List.Forall_forall in Hall. specialize (Hall _ Hin). lia.
Qed.

Lemma matchTaskLine_suffix (ln indent txt : jsstring) (m : jschar) :
  matchTaskLine ln = Some (indent, m, txt) -> exists pre, ln = pre ++ txt.
Proof.
  intros Hm. apply matchTaskLine_toggle in Hm as (b & Htog & _).
  apply matchToggleLine_sound in Htog as (w & b' & sp1 & sp2 & _ & Hln & _).
  exists ((indent ++ [b]) ++ sp1 ++ chLBracket :: m :: chRBracket :: sp2).
  rewrite Hln. rewrite <- ?app_assoc. simpl. rewrite <- ?app_assoc. reflexivity.
Qed.

Lemma scanLine_needs_emoji (s : CreateTaskButtonSettings) (now : Z) (f : TFile) (i : nat)
    (ln : jsstring) (following : list jsstring) :
  includes ln calendarEmoji = false -> scanLine s now f i ln following = None.
Proof.
  intros Hno. unfold scanLine.
  destruct (matchTaskLine ln) as [[[indent m] txt] |] eqn:Hm; [| reflexivity].
  destruct (includes txt calendarEmoji) eqn:Hinc; [| reflexivity].
  exfalso. apply matchTaskLine_suffix in Hm as [pre ->].
  unfold includes in *. apply (occursBy_after false calendarEmoji pre) in Hinc. congruence.
Qed.

Lemma noNewline_ascii_token (dt : Z) : noNewline (u16 " due::" ++ formatDateStr dt).
Proof.
  unfold noNewline, formatDateStr. intros Hin.
  apply in_app_or in Hin as [Hin | Hin].
  { simpl in Hin. repeat (destruct Hin as [Hin | Hin]; [discriminate |]). exact Hin. }
  assert (Hd : forall z, ~ In chNewline (intToString z)).
  { intros z Hz. unfold intToString in Hz.
    assert (Hn : forall n, ~ In chNewline (natToString n)).
    { intros n Hn. pose proof (uintUnits_digits (Nat.to_uint n)) as Hall.
      rewrite List.Forall_forall in Hall. specialize (Hall _ Hn). discriminate. }
    destruct (z <? 0)%Z; [destruct Hz as [Hz | Hz]; [discriminate |] |];
      now apply Hn in Hz. }
  assert (Hp : forall x, ~ In chNewline x -> ~ In chNewline (padStart2 x)).
  { intros x Hx Hin'. destruct x as [| a [| b x]]; simpl in Hin'.
    - repeat (destruct Hin' as [Hin' | Hin']; [discriminate |]). exact Hin'.
    - destruct Hin' as [Hin' | Hin']; [discriminate |]. now apply Hx.
    - now apply Hx. }
  apply in_app_or in Hin as [Hin | Hin]; [now apply Hd in Hin |].
  destruct Hin as [Hin | Hin]; [discriminate |].
  apply in_app_or in Hin as [Hin | Hin]; [now apply (Hp _ (Hd _)) in Hin |].
  destruct Hin as [Hin | Hin]; [discriminate |]. now apply (Hp _ (Hd _)) in Hin.
Qed.

Lemma insertIntoNote_spec (v v' : Vault) (f : TFile) (content finalTaskLine : jsstring) :
  vault_read v f = Some content ->
  insertIntoNote v f finalTaskLine = Some v' ->
  vaultFiles v' = vaultFiles v /\
  (forall g, path g = path f ->
     vault_read v' g = Some (appendTaskLine content finalTaskLine)) /\
  (forall g, path g <> path f -> vault_read v' g = vault_read v g).
Proof.
  intros Hread Hins. unfold insertIntoNote in Hins. rewrite Hread in Hins.
  apply vault_modify_spec in Hins as (Htext & Hfiles & _ & _ & Hnew).
  split; [exact Hfiles |]. split.
  - intros g Hg. unfold vault_read in *. now rewrite Hg.
  - intros g Hg. unfold vault_read. rewrite Htext. apply lookup_insert_ne. congruence.
Qed.

Lemma new_line_index (kept : jsstring) (finalTaskLine : jsstring) :
  let n := if bool_decide (0 < length kept) then length (splitLines kept) else 0 in
  let lines := (if bool_decide (0 < length kept) then splitLines kept else [])
               ++ [finalTaskLine; []] in
  lines !! n = Some finalTaskLine /\ drop (S n) lines = [[]].
Proof.
  cbv zeta. case_bool_decide; simpl.
  - split.
    + rewrite lookup_app_r by lia. now rewrite Nat.sub_diag.
    + change (S (length (splitLines kept))) with (1 + length (splitLines kept)).
      rewrite Nat.add_comm, <- drop_drop, drop_app_length. reflexivity.
  - split; reflexivity.
Qed.

End CreateScanFacts.

(** X22. A checklist line with the calendar emoji, once added to a note the
    calendar scans, is found by the next scan on the line it was written
    to, completed or not as its marker says; its text ends with a newline,
    the empty last line of the note counting as its nested line. *)
Theorem added_task_is_scanned `{HostEnv} (v : Vault) (s : CreateTaskButtonSettings)
    (now : Z) (f : TFile) (content finalTaskLine indent txt : jsstring) (m : jschar) :
  In f (vaultFiles v) -> inScanScope (normalizedFolderPathOf s) f = true ->
  vault_read v f = Some content -> path f ∉ vaultRefused v ->
  noNewline finalTaskLine ->
  matchTaskLine finalTaskLine = Some (indent, m, txt) ->
  includes txt calendarEmoji = true ->
  exists v' t,
    insertIntoNote v f finalTaskLine = Some v' /\
    In t (loadTasksManually v' s now) /\
    file t = f /\
    line t = (if bool_decide (0 < length (trimEnd content))
              then length (splitLines (trimEnd content)) else 0) /\
    isCompleted t = markerCompleted m /\
    text t = txt ++ [chNewline].
Proof.
  intros Hf Hscope Hread Hfree Hnl Hm Hinc.
  destruct (vault_modify_accepts v f content (appendTaskLine content finalTaskLine)
              Hread Hfree) as [v' Hmod].
  assert (Hins : insertIntoNote v f finalTaskLine = Some v')
    by (unfold insertIntoNote; now rewrite Hread).
  destruct (insertIntoNote_spec v v' f content finalTaskLine Hread Hins)
    as (Hfiles & Hnew & _).
  destruct (appendTaskLine_lines content finalTaskLine Hnl) as [_ Hlines].
  destruct (new_line_index (trimEnd content) finalTaskLine) as [Hlook Hdrop].
  cbv zeta in Hlook, Hdrop. rewrite <- Hlines in Hlook, Hdrop.
  set (n := if bool_decide (0 < length (trimEnd content))
            then length (splitLines (trimEnd content)) else 0) in *.
  assert (Hscan : exists t, scanLine s now f n finalTaskLine [[]] = Some t /\
                    file t = f /\ line t = n /\ isCompleted t = markerCompleted m /\
                    text t = txt ++ [chNewline]).
  { unfold scanLine. rewrite Hm, Hinc. simpl negb. cbv iota.
    eexists. split; [reflexivity |]. cbn [file line isCompleted text].
    repeat split. }
  destruct Hscan as (t & Hscan & Hfile & Hline & Hc & Htext).
  exists v', t. repeat match goal with |- _ /\ _ => split end; try assumption.
  apply loadTasksManually_In.
  exists f, (appendTaskLine content finalTaskLine), n, finalTaskLine.
  rewrite Hfiles, Hdrop.
  repeat match goal with |- _ /\ _ => split end; try assumption.
  now apply Hnew.
Qed.

(** X23. When [insertTask] appends its date token to a line (one that
    carries none of the date markers), the line written has no calendar
    emoji, and the raw scan of the note lists no task on it. *)
Theorem appended_due_line_is_not_scanned `{HostEnv} (v v' : Vault)
    (s : CreateTaskButtonSettings) (now dt : Z) (f : TFile)
    (content taskLine : jsstring) :
  hasDate taskLine = false -> noNewline taskLine ->
  vault_read v f = Some content ->
  insertIntoNote v f (finalTaskLineOf (Some dt) taskLine) = Some v' ->
  let n := if bool_decide (0 < length (trimEnd content))
           then length (splitLines (trimEnd content)) else 0 in
  includes (finalTaskLineOf (Some dt) taskLine) calendarEmoji = false /\
  (exists content', vault_read v' f = Some content' /\
     splitLines content' !! n = Some (finalTaskLineOf (Some dt) taskLine)) /\
  forall t, In t (loadTasksManually v' s now) ->
            ~ (path (file t) = path f /\ line t = n).
Proof.
  intros Hno Hnl Hread Hins n.
  pose proof (finalTaskLine_no_emoji dt taskLine Hno) as Hemoji.
  assert (Hfinal : noNewline (finalTaskLineOf (Some dt) taskLine)).
  { unfold finalTaskLineOf. rewrite Hno. simpl negb. cbv iota.
    apply In_noNewline_app. split; [| apply noNewline_ascii_token].
    destruct (trim_spec taskLine) as (w1 & w2 & Hs). rewrite Hs in Hnl.
    apply In_noNewline_app in Hnl as [_ Hnl]. now apply In_noNewline_app in Hnl as [Hnl _]. }
  destruct (insertIntoNote_spec v v' f content _ Hread Hins) as (Hfiles & Hnew & _).
  destruct (appendTaskLine_lines content _ Hfinal) as [_ Hlines].
  destruct (new_line_index (trimEnd content) (finalTaskLineOf (Some dt) taskLine))
    as [Hlook _].
  cbv zeta in Hlook. rewrite <- Hlines in Hlook. fold n in Hlook.
  split; [exact Hemoji |]. split.
  - eexists. split; [apply Hnew; reflexivity | exact Hlook].
  - intros t Hin [Hpath Hline].
    apply loadTasksManually_In in Hin as (g & c' & i & ln & _ & _ & Hread' & Hl & Hs).
    destruct (scanLine_shape _ _ _ _ _ _ _ Hs) as (_ & _ & _ & _ & _ & Hg & Hi & _).
    subst g i. rewrite (Hnew (file t) Hpath) in Hread'. injection Hread' as <-.
    rewrite Hline in Hl.
    assert (Heq : Some ln = Some (finalTaskLineOf (Some dt) taskLine))
      by (etransitivity; [symmetry; exact Hl | exact Hlook]).
    injection Heq as ->.
    rewrite scanLine_needs_emoji in Hs by exact Hemoji. discriminate.
Qed.

(** ** The look of a task *)

Section StyleFacts.
Local Open Scope Z_scope.

Lemma parseInt16_hexByte (upper : bool) (n : Z) :
  0 <= n <= 255 -> parseInt16 (hexByte upper n) = Some n.
Proof.
  intros Hn.
  assert (Hall : forallb (fun k => bool_decide
            (parseInt16 (hexByte upper (Z.of_nat k)) = Some (Z.of_nat k))) (seq 0 256) = true)
    by (destruct upper; vm_compute; reflexivity).
  rewrite forallb_forall in Hall.
  assert (Hin : In (Z.to_nat n) (seq 0 256)) by (apply in_seq; lia).
  specialize (Hall _ Hin). rewrite Z2Nat.id in Hall by lia.
  now apply bool_decide_eq_true in Hall.
Qed.

End StyleFacts.

(** X24. In the grid the overdue style marks exactly the tasks carried over
    to today's cell: a task with a valid date listed in a day cell has the
    overdue class if and only if it is one of the overdue tasks, and then
    the cell is today's. *)
Theorem overdue_style_only_today (tasks : list Task) (now k td : Z) (task : Task) :
  In task (cellTasks tasks now (k * msPerDay)) ->
  date task = Some (DateValue td) ->
  (taskOverdueClass now task = true <-> In task (getOverdueTasks tasks now)) /\
  (taskOverdueClass now task = true -> k = Day now).
Proof.
  intros Hin Hd.
  assert (Hstyle : taskOverdueClass now task = true <->
                   isCompleted task = false /\ (Day td < Day now)%Z).
  { unfold taskOverdueClass. rewrite Hd, todayOf_eq. simpl.
    rewrite andb_true_iff, negb_true_iff, Z.ltb_lt. unfold msPerDay.
    split; intros [Hc Hlt]; (split; [exact Hc | lia]). }
  assert (Htasks : In task tasks).
  { unfold cellTasks in Hin. cbv zeta in Hin.
    destruct (timeEq _ _); [apply in_app_or in Hin as [Hin | Hin] |];
      unfold getOverdueTasks, getTasksForDate in Hin; cbv zeta in Hin;
      now apply filter_In in Hin. }
  assert (Hov : In task (getOverdueTasks tasks now) <->
                isCompleted task = false /\ (Day td < Day now)%Z).
  { rewrite getOverdueTasks_In. split.
    - intros [_ [Hc [td' [Hd' Hge]]]]. rewrite Hd in Hd'. injection Hd' as <-.
      split; [exact Hc | now apply timeGe_today].
    - intros [Hc Hlt]. repeat split; [exact Htasks | exact Hc |].
      exists (DateValue td). split; [exact Hd | now apply timeGe_today]. }
  split; [now rewrite Hstyle, Hov |].
  intros Hs. apply Hstyle in Hs as [Hc Hlt].
  unfold cellTasks in Hin. cbv zeta in Hin.
  destruct (timeEq (DateValue (k * msPerDay)) (todayOf now)) eqn:Heq;
    [now apply timeEq_today in Heq |].
  apply getTasksForDate_In in Hin as [_ [td' [Hd' [Hday Hor]]]].
  rewrite Hd in Hd'. injection Hd' as <-. rewrite Day_of_midnight in Hday, Hor.
  destruct Hor as [Hor | Hor]; [lia | congruence].
Qed.

(** X25. The text colour on a background [#rrggbb] is black when the
    brightness [299 r + 587 g + 114 b] reaches 128000 and white below,
    whatever the case of the digits; a colour that does not start with [#]
    gets the theme's colour; and no other colour is ever returned. *)
Theorem contrast_colour (upper : bool) (r g b : Z) (other : jsstring) :
  (0 <= r <= 255)%Z -> (0 <= g <= 255)%Z -> (0 <= b <= 255)%Z ->
  getContrastYIQ (35%N :: hexByte upper r ++ hexByte upper g ++ hexByte upper b)
    = (if (128000 <=? 299 * r + 587 * g + 114 * b)%Z then u16 "#000000" else u16 "#ffffff") /\
  (startsWith other (u16 "#") = false -> getContrastYIQ other = u16 "var(--text-on-accent)") /\
  (getContrastYIQ other = u16 "#000000" \/ getContrastYIQ other = u16 "#ffffff" \/
   getContrastYIQ other = u16 "var(--text-on-accent)").
Proof.
  intros Hr Hg Hb. split; [| split].
  - unfold getContrastYIQ. cbn [N.eqb Pos.eqb negb].
    change (take 2 (hexByte upper r ++ hexByte upper g ++ hexByte upper b))
      with (hexByte upper r).
    change (take 2 (drop 2 (hexByte upper r ++ hexByte upper g ++ hexByte upper b)))
      with (hexByte upper g).
    change (take 2 (drop 4 (hexByte upper r ++ hexByte upper g ++ hexByte upper b)))
      with (hexByte upper b).
    rewrite !parseInt16_hexByte by assumption.
    replace (r * 299 + g * 587 + b * 114)%Z with (299 * r + 587 * g + 114 * b)%Z by lia.
    reflexivity.
  - unfold startsWith, getContrastYIQ. destruct other as [| c rest]; [reflexivity |].
    cbn [u16 List.map list_ascii_of_string startsWithBy eqChar]. 
    change (N_of_ascii "#") with 35%N. rewrite andb_true_r.
    rewrite N.eqb_sym. now intros ->.
  - unfold getContrastYIQ. destruct other as [| c rest]; [now right; right |].
    destruct (negb (c =? 35)%N); [now right; right |].
    destruct (parseInt16 _) as [r' |]; [| now right; left].
    destruct (parseInt16 _) as [g' |]; [| now right; left].
    destruct (parseInt16 _) as [b' |]; [| now right; left].
    destruct (128000 <=? _)%Z; [now left | now right; left].
Qed.

(** ** The date token of a new task, read back *)

Section ReadBackFacts.
Context `{HostEnv}.

Lemma searchFirst_here {A} (f : jsstring -> option A) (s : jsstring) (r : A) :
  f s = Some r -> searchFirst f s = Some r.
Proof. intros Hf. destruct s; simpl; now rewrite Hf. Qed.

Lemma searchFirst_skip {A} (f : jsstring -> option A) (a b : jsstring) :
  (forall a1 a2, a = a1 ++ a2 -> a2 <> [] -> f (a2 ++ b) = None) ->
  searchFirst f (a ++ b) = searchFirst f b.
Proof.
  induction a as [| c a IH]; intros Hnone; [reflexivity |].
  change ((c :: a) ++ b) with (c :: (a ++ b)). cbn [searchFirst].
  pose proof (Hnone [] (c :: a) eq_refl ltac:(discriminate)) as Hhead.
  change ((c :: a) ++ b) with (c :: (a ++ b)) in Hhead. rewrite Hhead.
  apply IH. intros a1 a2 -> Hne. apply (Hnone (c :: a1) a2); [reflexivity | exact Hne].
Qed.

Lemma firstSome_none {A B} (f : A -> option B) (l : list A) :
  (forall x, In x l -> f x = None) -> firstSome f l = None.
Proof.
  induction l as [| x l IH]; intros Hall; [reflexivity |].
  cbn [firstSome]. rewrite (Hall x) by now left.
  apply IH. intros y Hy. apply Hall. now right.
Qed.

(** A literal found at the head of [a ++ " " ++ b] lies within [a], or
    holds a character that matches the space. *)
Lemma startsWithBy_before_space (ci : bool) (kw a b : jsstring) :
  startsWithBy ci kw (a ++ chSpace :: b) = true ->
  startsWithBy ci kw a = true \/ existsb (fun c => eqChar ci c chSpace) kw = true.
Proof.
  revert a. induction kw as [| k kw IH]; intros a; [now left |].
  destruct a as [| x a]; cbn [app startsWithBy existsb].
  - intros Hs. apply andb_true_iff in Hs as [Hk _]. right. now rewrite Hk.
  - intros Hs. apply andb_true_iff in Hs as [Hk Hs].
    destruct (IH a Hs) as [Hl | Hr]; [left; now rewrite Hk, Hl | right].
    rewrite Hr. apply orb_true_r.
Qed.

Lemma startsWithBy_occurs (ci : bool) (p s : jsstring) :
  startsWithBy ci p s = true -> occursBy ci p s = true.
Proof. intros Hs. destruct s; simpl in *; now rewrite Hs. Qed.

Lemma hasDate_false_keywords (taskLine : jsstring) :
  hasDate taskLine = false ->
  Forall (fun kw => occursBy true kw taskLine = false) dateKeywords.
Proof.
  unfold hasDate, hasDateMarkers. cbn [existsb]. intros Hno.
  repeat (apply orb_false_iff in Hno as [? Hno]).
  unfold dateKeywords. repeat constructor; assumption.
Qed.

(** No keyword of the date pattern starts within a line free of them that
    is followed by a space. *)
Lemma no_keyword_before (taskLine a1 a2 b : jsstring) :
  hasDate taskLine = false ->
  trim taskLine ++ [chSpace] = a1 ++ a2 -> a2 <> [] ->
  matchKeywordDateAt (a2 ++ b) = None.
Proof.
  intros Hno Hsplit Hne.
  assert (Hsuffix : exists a3, a2 = a3 ++ [chSpace] /\ trim taskLine = a1 ++ a3).
  { destruct (rev a2) as [| c r] eqn:Hr.
    - exfalso. apply Hne. rewrite <- (rev_involutive a2), Hr. reflexivity.
    - assert (Ha2 : a2 = rev r ++ [c])
        by (rewrite <- (rev_involutive a2), Hr; reflexivity).
      rewrite Ha2, app_assoc in Hsplit. apply app_inj_tail in Hsplit as [Ht <-].
      now exists (rev r). }
  destruct Hsuffix as (a3 & -> & Htrim).
  assert (Hkw : Forall (fun kw => startsWithBy true kw ((a3 ++ [chSpace]) ++ b) = false)
                       dateKeywords).
  { pose proof (hasDate_false_keywords taskLine Hno) as Hall.
    assert (Hsp : Forall (fun kw => existsb (fun c => eqChar true c chSpace) kw = false)
                         dateKeywords) by (repeat constructor).
    rewrite List.Forall_forall in *. intros kw Hin.
    apply not_true_is_false. intros Hs.
    rewrite <- app_assoc in Hs. simpl in Hs.
    apply startsWithBy_before_space in Hs as [Hs | Hs];
      [| rewrite (Hsp kw Hin) in Hs; discriminate].
    apply startsWithBy_occurs, (occursBy_after true kw a1) in Hs.
    rewrite <- Htrim in Hs.
    destruct (trim_spec taskLine) as (w1 & w2 & Hline).
    apply (occursBy_within true kw w1 _ w2) in Hs. rewrite <- Hline in Hs.
    rewrite (Hall kw Hin) in Hs. discriminate. }
  unfold matchKeywordDateAt. apply firstSome_none.
  rewrite List.Forall_forall in Hkw. intros kw Hin.
  pose proof (Hkw kw Hin) as Hk. cbv beta in Hk |- *.
  match goal with
  | |- (if ?c then _ else _) = _ => assert (Hc : c = false) by exact Hk; now rewrite Hc
  end.
Qed.

(** The printed date of a four-digit year: ten code units of the shape
    YYYY-MM-DD. *)
Lemma four_digits (y : Z) :
  (1000 <= y <= 9999)%Z ->
  exists a b c d, intToString y = [a; b; c; d] /\
    isDigit a = true /\ isDigit b = true /\ isDigit c = true /\ isDigit d = true.
Proof.
  intros Hy.
  assert (Hall : forallb (fun k =>
            match natToString k with
            | [a; b; c; d] => isDigit a && isDigit b && isDigit c && isDigit d
            | _ => false
            end) (seq 1000 (90 * 100)) = true) by (vm_compute; reflexivity).
  rewrite forallb_forall in Hall.
  assert (Hin : In (Z.to_nat y) (seq 1000 (90 * 100))) by (apply in_seq; lia).
  specialize (Hall _ Hin).
  unfold intToString. destruct (Z.ltb_spec y 0) as [Hneg | _]; [lia |].
  destruct (natToString (Z.to_nat y)) as [| a [| b [| c [| d [| e r]]]]]; try discriminate.
  apply andb_true_iff in Hall as [Hall Hd]. apply andb_true_iff in Hall as [Hall Hc].
  apply andb_true_iff in Hall as [Ha Hb]. now exists a, b, c, d.
Qed.

Lemma two_digits (n : Z) :
  (1 <= n <= 31)%Z ->
  exists a b, padStart2 (intToString n) = [a; b] /\ isDigit a = true /\ isDigit b = true.
Proof.
  intros Hn.
  assert (Hall : forallb (fun k =>
            match padStart2 (natToString k) with
            | [a; b] => isDigit a && isDigit b
            | _ => false
            end) (seq 1 31) = true) by (vm_compute; reflexivity).
  rewrite forallb_forall in Hall.
  assert (Hin : In (Z.to_nat n) (seq 1 31)) by (apply in_seq; lia).
  specialize (Hall _ Hin).
  unfold intToString. destruct (Z.ltb_spec n 0) as [Hneg | _]; [lia |].
  destruct (padStart2 (natToString (Z.to_nat n))) as [| a [| b [| c r]]]; try discriminate.
  apply andb_true_iff in Hall as [Ha Hb]. now exists a, b.
Qed.

Lemma getDate_le_31 (t : Z) : (1 <= getDate t <= 31)%Z.
Proof.
  pose proof (getDate_range t) as [Hd1 Hd2].
  pose proof (getMonth_range t) as Hm. unfold getMonth in Hm.
  pose proof (month_length (YearFromTime t) (MonthFromTime t) Hm) as Hlen.
  replace (getDate t) with (1 + (getDate t - 1))%Z in Hd2 at 1 by lia.
  rewrite MakeDay_date in Hd2. lia.
Qed.

Lemma formatDateStr_shape (t : Z) :
  (1000 <= getFullYear t <= 9999)%Z ->
  exists y1 y2 y3 y4 m1 m2 d1 d2,
    formatDateStr t = [y1; y2; y3; y4; chDash; m1; m2; chDash; d1; d2] /\
    Forall (fun c => isDigit c = true) [y1; y2; y3; y4; m1; m2; d1; d2].
Proof.
  intros Hy. unfold formatDateStr.
  destruct (four_digits _ Hy) as (y1 & y2 & y3 & y4 & -> & H1 & H2 & H3 & H4).
  pose proof (getMonth_range t) as Hm.
  destruct (two_digits (getMonth t + 1) ltac:(lia)) as (m1 & m2 & -> & Hm1 & Hm2).
  destruct (two_digits (getDate t) (getDate_le_31 t)) as (d1 & d2 & -> & Hd1 & Hd2).
  exists y1, y2, y3, y4, m1, m2, d1, d2. split; [reflexivity |].
  repeat constructor; assumption.
Qed.

Lemma isDigit_not_space (c : jschar) : isDigit c = true -> isWhiteSpace c = false.
Proof.
  unfold isDigit, isWhiteSpace, inRange. intros Hd.
  apply andb_true_iff in Hd as [Hlo Hhi]. apply N.leb_le in Hlo, Hhi.
  assert (Hcases : (c = 48 \/ c = 49 \/ c = 50 \/ c = 51 \/ c = 52 \/ c = 53 \/ c = 54
                    \/ c = 55 \/ c = 56 \/ c = 57)%N) by lia.
  repeat (destruct Hcases as [-> | Hcases]; [reflexivity |]). subst c. reflexivity.
Qed.

Lemma matchKeywordDateAt_due (t : Z) :
  (1000 <= getFullYear t <= 9999)%Z ->
  matchKeywordDateAt (u16 "due::" ++ formatDateStr t) = Some (formatDateStr t).
Proof.
  intros Hy.
  destruct (formatDateStr_shape t Hy)
    as (y1 & y2 & y3 & y4 & m1 & m2 & d1 & d2 & -> & Hall).
  inversion Hall as [| ? ? H1 Hall1]; subst. inversion Hall1 as [| ? ? H2 Hall2]; subst.
  inversion Hall2 as [| ? ? H3 Hall3]; subst. inversion Hall3 as [| ? ? H4 Hall4]; subst.
  inversion Hall4 as [| ? ? H5 Hall5]; subst. inversion Hall5 as [| ? ? H6 Hall6]; subst.
  inversion Hall6 as [| ? ? H7 Hall7]; subst. inversion Hall7 as [| ? ? H8 _]; subst.
  unfold matchKeywordDateAt, dateKeywords. cbn [firstSome].
  assert (Hemoji : startsWithBy true calendarEmoji
            (u16 "due::" ++ [y1; y2; y3; y4; chDash; m1; m2; chDash; d1; d2]) = false)
    by reflexivity.
  rewrite Hemoji.
  assert (Hdue : startsWithBy true (u16 "due::")
            (u16 "due::" ++ [y1; y2; y3; y4; chDash; m1; m2; chDash; d1; d2]) = true)
    by reflexivity.
  rewrite Hdue.
  change (drop (length (u16 "due::"))
            (u16 "due::" ++ [y1; y2; y3; y4; chDash; m1; m2; chDash; d1; d2]))
    with [y1; y2; y3; y4; chDash; m1; m2; chDash; d1; d2].
  cbn [span]. rewrite (isDigit_not_space y1 H1). cbn [snd].
  unfold matchIsoDateAt, takeDigits, takeChar.
  repeat (progress (cbn -[isDigit]; rewrite ?H1, ?H2, ?H3, ?H4, ?H5, ?H6, ?H7, ?H8;
                    try rewrite bool_decide_eq_true_2 by reflexivity)).
  reflexivity.
Qed.

End ReadBackFacts.

(** X26. The date token that [insertTask] appends is the date read back
    from the line: for a date in a four-digit year and a line without date
    markers, the final line is the trimmed line followed by
    [ due::YYYY-MM-DD], and when the host's parser accepts that printed
    date, the target date of the note is the start of the day it parses
    to, whatever else the line holds. *)
Theorem appended_token_is_read_back `{HostEnv} (dt now : Z) (taskLine : jsstring) :
  hasDate taskLine = false -> (1000 <= getFullYear dt <= 9999)%Z ->
  let finalTaskLine := finalTaskLineOf (Some dt) taskLine in
  let parsed := Date_parse (formatDateStr dt) in
  finalTaskLine = trim taskLine ++ u16 " due::" ++ formatDateStr dt /\
  length (formatDateStr dt) = 10 /\
  (isInvalid parsed = false ->
   extractDateFromText finalTaskLine = Some (setHours0 parsed) /\
   targetDateOf (Some dt) now finalTaskLine = setHours0 parsed).
Proof.
  intros Hno Hy finalTaskLine parsed.
  assert (Hfinal : finalTaskLine = trim taskLine ++ u16 " due::" ++ formatDateStr dt).
  { subst finalTaskLine. unfold finalTaskLineOf. now rewrite Hno. }
  split; [exact Hfinal |]. split.
  { destruct (formatDateStr_shape dt Hy) as (? & ? & ? & ? & ? & ? & ? & ? & -> & _).
    reflexivity. }
  intros Hvalid.
  assert (Hsearch : searchFirst matchKeywordDateAt finalTaskLine = Some (formatDateStr dt)).
  { rewrite Hfinal.
    change (trim taskLine ++ u16 " due::" ++ formatDateStr dt)
      with (trim taskLine ++ [chSpace] ++ (u16 "due::" ++ formatDateStr dt)).
    rewrite app_assoc, searchFirst_skip.
    - apply searchFirst_here, matchKeywordDateAt_due, Hy.
    - intros a1 a2 Hsplit Hne. now apply (no_keyword_before taskLine a1 a2). }
  assert (Hextract : extractDateFromText finalTaskLine = Some (setHours0 parsed)).
  { unfold extractDateFromText, datePatterns. cbn [firstSome].
    rewrite Hsearch. fold parsed. now rewrite Hvalid. }
  split; [exact Hextract |].
  unfold targetDateOf. cbv zeta. now rewrite Hextract.
Qed.

(** ** The theorems with hypotheses, at the sample data *)

Section Scenarios.
Import Sample Scenario.
Local Open Scope Z_scope.

Lemma noNewline_forallb (l : jsstring) :
  forallb (fun c => negb (c =? chNewline)%N) l = true -> noNewline l.
Proof.
  intros Hall Hin. rewrite forallb_forall in Hall. specialize (Hall _ Hin).
  now rewrite N.eqb_refl in Hall.
Qed.

Lemma sample_raw_scan : loadTasksManually vault settings now = tasks.
Proof. vm_compute. reflexivity. Qed.

Lemma sample_year : ~ (0 <= getFullYear now <= 99).
Proof. intros [_ Hle]. vm_compute in Hle. apply Hle. reflexivity. Qed.

Lemma task_listed_on_one_day_witness :
  In chore tasks /\ date chore = Some (DateValue (march 10)) /\
  (In chore (cellTasks tasks now (Day now * msPerDay)) <->
   Day now = if isCompleted chore then Day (march 10) else Z.max (Day (march 10)) (Day now)).
Proof.
  assert (Hin : In chore tasks) by (simpl; tauto).
  split; [exact Hin |]. split; [reflexivity |].
  exact (task_listed_on_one_day tasks now (march 10) (Day now) chore Hin eq_refl).
Defined.

Lemma month_navigation_witness :
  getDate now <= 28 /\
  getFullYear (changeMonth now 1) * 12 + getMonth (changeMonth now 1)
    = getFullYear now * 12 + getMonth now + 1 /\
  getDate (changeMonth now 1) = getDate now /\
  TimeWithinDay (changeMonth now 1) = TimeWithinDay now /\
  changeMonth (changeMonth now 1) (- (1)) = now.
Proof.
  assert (Hd : getDate now <= 28) by (apply Z.leb_le; vm_compute; reflexivity).
  split; [exact Hd |]. exact (month_navigation now 1 Hd).
Defined.

Lemma grid_marks_displayed_month_witness :
  ~ (0 <= getFullYear now <= 99) /\
  exists cell,
    renderGrid tasks true now now !! 5%nat = Some cell /\
    cellOtherMonth cell = false /\ getDate (cellDate cell) = 1.
Proof.
  split; [exact sample_year |].
  eexists. split; [apply renderGrid_lookup; lia |].
  destruct (grid_marks_displayed_month tasks true now now 5 _ sample_year
              (renderGrid_lookup tasks true now now 5 ltac:(lia)))
    as (_ & Hiff & Hfields).
  assert (Hk : 0 <= Z.of_nat 5 - daysToSubtract (firstDayOfMonth (getFullYear now) (getMonth now))
               < MakeDay (getFullYear now) (getMonth now + 1) 1
                 - MakeDay (getFullYear now) (getMonth now) 1)
    by (split; [apply Z.leb_le | apply Z.ltb_lt]; vm_compute; reflexivity).
  split; [now apply Hiff |].
  destruct (Hfields Hk) as (_ & _ & Hdate). rewrite Hdate. vm_compute. reflexivity.
Defined.

Lemma one_cell_is_today_witness :
  ~ (0 <= getFullYear now <= 99) /\
  (exists cell,
     renderGrid tasks true now now
       !! Z.to_nat (daysToSubtract (firstDayOfMonth (getFullYear now) (getMonth now))
                    + getDate now - 1) = Some cell /\
     cellDate cell = Day now * msPerDay) /\
  (forall i cell, renderGrid tasks true now now !! i = Some cell ->
     (cellToday cell = true <->
      i = Z.to_nat (daysToSubtract (firstDayOfMonth (getFullYear now) (getMonth now))
                    + getDate now - 1))).
Proof.
  split; [exact sample_year |].
  exact (one_cell_is_today tasks true now now sample_year eq_refl eq_refl).
Defined.

Lemma scanned_task_points_at_its_line_witness :
  In plants (loadTasksManually vault settings now) /\
  In (file plants) (vaultFiles vault) /\
  exists content ln indent m txt,
    vault_read vault (file plants) = Some content /\
    splitLines content !! line plants = Some ln /\
    matchTaskLine ln = Some (indent, m, txt) /\
    isCompleted plants = markerCompleted m.
Proof.
  assert (Hin : In plants (loadTasksManually vault settings now))
    by (rewrite sample_raw_scan; simpl; tauto).
  split; [exact Hin |].
  destruct (scanned_task_points_at_its_line vault settings now plants Hin)
    as (Hf & _ & content & ln & indent & m & txt & Hread & Hl & Hm & _ & Hc & _).
  split; [exact Hf |]. exists content, ln, indent, m, txt. auto.
Defined.

Lemma scanned_task_toggles_witness :
  In milk (loadTasksManually vault settings now) /\
  trSuccess (toggleTaskCompletionDirect vault milk) = true /\
  isCompleted (trTask (toggleTaskCompletionDirect vault milk)) = true.
Proof.
  assert (Hin : In milk (loadTasksManually vault settings now))
    by (rewrite sample_raw_scan; simpl; tauto).
  destruct (scanned_task_toggles vault settings now milk Hin) as [Hiff Hflag].
  assert (Hok : trSuccess (toggleTaskCompletionDirect vault milk) = true).
  { apply Hiff. simpl. apply not_elem_of_empty. }
  split; [exact Hin |]. split; [exact Hok |]. exact (Hflag Hok).
Defined.

Lemma toggled_task_is_found_again_witness :
  In milk (loadTasksManually vault settings now) /\
  trSuccess (toggleTaskCompletionDirect vault milk) = true /\
  In (trTask (toggleTaskCompletionDirect vault milk))
     (loadTasksManually (trVault (toggleTaskCompletionDirect vault milk)) settings now).
Proof.
  assert (Hin : In milk (loadTasksManually vault settings now))
    by (rewrite sample_raw_scan; simpl; tauto).
  assert (Hok : trSuccess (toggleTaskCompletionDirect vault milk) = true)
    by (vm_compute; reflexivity).
  split; [exact Hin |]. split; [exact Hok |].
  exact (toggled_task_is_found_again vault settings now milk Hin Hok).
Defined.

Lemma stale_line_is_not_toggled_witness :
  is_Some (apiExecuteToggleTaskDoneCommand toggleService) /\
  vault_read vault (file staleTask) = Some noteText /\
  (length (splitLines noteText) <= line staleTask)%nat /\
  toggleTaskCompletion (Some toggleService) workspace vault staleTask
    = mkToggleResult vault staleTask false.
Proof.
  assert (Hs : is_Some (apiExecuteToggleTaskDoneCommand toggleService))
    by (eexists; reflexivity).
  assert (Hread : vault_read vault (file staleTask) = Some noteText)
    by (vm_compute; reflexivity).
  assert (Hlen : (length (splitLines noteText) <= line staleTask)%nat)
    by (apply Nat.leb_le; vm_compute; reflexivity).
  split; [exact Hs |]. split; [exact Hread |]. split; [exact Hlen |].
  exact (stale_line_is_not_toggled toggleService workspace vault staleTask noteText
           Hs Hread Hlen).
Defined.

Lemma created_note_is_in_scope_witness :
  orElse (createTaskFolderPath legacySettings) (orElse (tasksFolderPath legacySettings) [])
    = orElse (calendarFolderPath legacySettings) (orElse (tasksFolderPath legacySettings) []) /\
  path monthlyNote = u16 "Tasks/2025-03.md" /\
  inScanScope (normalizedFolderPathOf legacySettings) monthlyNote = true.
Proof.
  split; [reflexivity |]. split; [vm_compute; reflexivity |].
  exact (created_note_is_in_scope legacySettings (u16 "2025-03") monthlyNote eq_refl eq_refl).
Defined.

Lemma added_line_ends_the_note_witness :
  noNewline annLine /\
  splitLines (appendTaskLine noteText annLine)
    = (if bool_decide (0 < length (trimEnd noteText))%nat
       then splitLines (trimEnd noteText) else [])
      ++ [annLine; []].
Proof.
  assert (Hnl : noNewline annLine) by (apply noNewline_forallb; vm_compute; reflexivity).
  split; [exact Hnl |].
  destruct (added_line_ends_the_note noteText annLine Hnl) as (_ & _ & _ & Hlines).
  exact Hlines.
Defined.

Lemma added_task_is_scanned_witness :
  In note (vaultFiles vault) /\
  matchTaskLine annLine
    = Some ([], chSpace, u16 "Call Ann " ++ calendarEmoji ++ u16 " 2025-03-21") /\
  exists v' t,
    insertIntoNote vault note annLine = Some v' /\
    In t (loadTasksManually v' settings now) /\
    file t = note /\
    line t = (if bool_decide (0 < length (trimEnd noteText))%nat
              then length (splitLines (trimEnd noteText)) else 0%nat) /\
    isCompleted t = markerCompleted chSpace /\
    text t = (u16 "Call Ann " ++ calendarEmoji ++ u16 " 2025-03-21") ++ [chNewline].
Proof.
  assert (Hf : In note (vaultFiles vault)) by (simpl; tauto).
  assert (Hm : matchTaskLine annLine
               = Some ([], chSpace, u16 "Call Ann " ++ calendarEmoji ++ u16 " 2025-03-21"))
    by (vm_compute; reflexivity).
  split; [exact Hf |]. split; [exact Hm |].
  apply (added_task_is_scanned vault settings now note noteText annLine [] _ chSpace Hf).
  - vm_compute. reflexivity.
  - vm_compute. reflexivity.
  - simpl. apply not_elem_of_empty.
  - apply noNewline_forallb. vm_compute. reflexivity.
  - exact Hm.
  - vm_compute. reflexivity.
Defined.

Lemma appended_due_line_is_not_scanned_witness :
  hasDate plainTaskLine = false /\ noNewline plainTaskLine /\
  exists v',
    insertIntoNote vault note (finalTaskLineOf (Some (march 5)) plainTaskLine) = Some v' /\
    includes (finalTaskLineOf (Some (march 5)) plainTaskLine) calendarEmoji = false /\
    forall t, In t (loadTasksManually v' settings now) ->
      ~ (path (file t) = path note /\
         line t = (if bool_decide (0 < length (trimEnd noteText))%nat
                   then length (splitLines (trimEnd noteText)) else 0%nat)).
Proof.
  assert (Hno : hasDate plainTaskLine = false) by (vm_compute; reflexivity).
  assert (Hnl : noNewline plainTaskLine)
    by (apply noNewline_forallb; vm_compute; reflexivity).
  assert (Hread : vault_read vault note = Some noteText) by (vm_compute; reflexivity).
  split; [exact Hno |]. split; [exact Hnl |].
  destruct (insertIntoNote vault note (finalTaskLineOf (Some (march 5)) plainTaskLine))
    as [v' |] eqn:Hins; [| vm_compute in Hins; discriminate].
  exists v'. split; [reflexivity |].
  destruct (appended_due_line_is_not_scanned vault v' settings now (march 5) note
              noteText plainTaskLine Hno Hnl Hread Hins) as (Hemoji & _ & Hnone).
  split; [exact Hemoji | exact Hnone].
Defined.

Lemma overdue_style_only_today_witness :
  In chore (cellTasks tasks now (Day now * msPerDay)) /\
  date chore = Some (DateValue (march 10)) /\
  (taskOverdueClass now chore = true <-> In chore (getOverdueTasks tasks now)) /\
  (taskOverdueClass now chore = true -> Day now = Day now).
Proof.
  assert (Hin : In chore (cellTasks tasks now (Day now * msPerDay)))
    by (vm_compute; tauto).
  split; [exact Hin |]. split; [reflexivity |].
  exact (overdue_style_only_today tasks now (Day now) (march 10) chore Hin eq_refl).
Defined.

Lemma contrast_colour_witness :
  0 <= 238 <= 255 /\ 0 <= 220 <= 255 /\ 0 <= 167 <= 255 /\
  getContrastYIQ (u16 "#EEDCA7") = u16 "#000000" /\
  getContrastYIQ (u16 "red") = u16 "var(--text-on-accent)".
Proof.
  assert (Hr : 0 <= 238 <= 255) by lia.
  assert (Hg : 0 <= 220 <= 255) by lia.
  assert (Hb : 0 <= 167 <= 255) by lia.
  destruct (contrast_colour true 238 220 167 (u16 "red") Hr Hg Hb) as (Hc & Hother & _).
  split; [exact Hr |]. split; [exact Hg |]. split; [exact Hb |].
  split; [exact Hc | apply Hother; reflexivity].
Defined.

Lemma appended_token_is_read_back_witness :
  hasDate plainTaskLine = false /\ 1000 <= getFullYear (march 5) <= 9999 /\
  finalTaskLineOf (Some (march 5)) plainTaskLine = u16 "- [ ] call back due::2025-03-05" /\
  targetDateOf (Some (march 5)) now (finalTaskLineOf (Some (march 5)) plainTaskLine)
    = DateValue (march 5).
Proof.
  assert (Hno : hasDate plainTaskLine = false) by (vm_compute; reflexivity).
  assert (Hy : 1000 <= getFullYear (march 5) <= 9999)
    by (split; apply Z.leb_le; vm_compute; reflexivity).
  destruct (appended_token_is_read_back (march 5) now plainTaskLine Hno Hy)
    as (Hfinal & _ & Hback).
  split; [exact Hno |]. split; [exact Hy |].
  split; [rewrite Hfinal; vm_compute; reflexivity |].
  destruct (Hback ltac:(vm_compute; reflexivity)) as [_ Htarget].
  rewrite Htarget. vm_compute. reflexivity.
Defined.

End Scenarios.

(** ** The checkbox after a toggle, and the tasks of the month in the grid *)

(** X27. Without the service, a click on the checkbox of a task the raw
    scan has found, in a note the host lets be written, ends with the box
    in the state the click asked for: the toggle succeeds, the view is
    reloaded, and the box and the task's flag both show the opposite of the
    flag before the click. *)
Theorem checkbox_follows_the_click `{HostEnv} (v : Vault) (s : CreateTaskButtonSettings)
    (now : Z) (ws : Workspace) (task : Task) :
  In task (loadTasksManually v s now) -> path (file task) ∉ vaultRefused v ->
  let o := onCheckboxChange (toggleTaskCompletion None ws) v task
             (browserClick (isCompleted task)) in
  coReloaded o = true /\
  coChecked o = browserClick (isCompleted task) /\
  isCompleted (coTask o) = coChecked o /\
  sameTask (coTask o) task.
Proof.
  intros Hin Hfree. cbv zeta.
  destruct (scanned_task_toggle v s now task Hin)
    as (content & ln & indent & b & m & txt & _ & _ & Hread & Hl & Hm & Htog
        & _ & _ & _ & _ & Hs).
  destruct (scanLine_shape _ _ _ _ _ _ _ Hs) as (i0 & m0 & t0 & Hm0 & _ & _ & _ & Hc & _).
  rewrite Hm in Hm0. injection Hm0 as <- <- <-.
  destruct (vault_modify_accepts v (file task) content
              (joinLines (<[line task := checklistLine (indent ++ [b]) (newStatusOf m) txt]>
                            (splitLines content))) Hread Hfree) as [v' Hmod].
  destruct (direct_step v v' task content ln _ txt m Hread Hl Htog Hmod) as [Hr _].
  unfold onCheckboxChange, toggleTaskCompletion. cbv zeta. rewrite Hr.
  cbn [trSuccess trTask trVault coReloaded coChecked coTask setCompleted isCompleted].
  assert (Hflip : markerCompleted (newStatusOf m) = browserClick (isCompleted task)).
  { rewrite Hc. unfold newStatusOf, browserClick. destruct (markerCompleted m); reflexivity. }
  repeat match goal with |- _ /\ _ => split end;
    [reflexivity | exact Hflip | reflexivity | apply sameTask_setCompleted].
Qed.

(** X28. No task of the displayed month is lost from the grid: a loaded
    task dated in the month shown, completed or not yet overdue, is among
    the tasks of the cell of its day, the cell at the index of the first
    day plus its day of the month minus one; and it is in the list the
    cell counts and hands to the popup unless it is completed and completed
    tasks are hidden. *)
Theorem month_task_is_in_its_cell (tasks : list Task) (showCompleted : bool)
    (now currentDate td : Z) (task : Task) :
  let year := getFullYear currentDate in
  let month := getMonth currentDate in
  let i := Z.to_nat (daysToSubtract (firstDayOfMonth year month) + getDate td - 1) in
  ~ (0 <= year <= 99)%Z ->
  In task tasks -> date task = Some (DateValue td) ->
  getFullYear td = year -> getMonth td = month ->
  (isCompleted task = true \/ Day now <= Day td)%Z ->
  exists cell,
    renderGrid tasks showCompleted now currentDate !! i = Some cell /\
    cellDate cell = (Day td * msPerDay)%Z /\
    cellOtherMonth cell = false /\
    In task (cellDayTasks cell) /\
    (showCompleted = true \/ isCompleted task = false -> In task (cellSortedTasks cell)).
Proof.
  intros year month i Hy Hin Hd Hyear Hmonth Hvis.
  pose proof (getMonth_range currentDate) as Hm. fold month in Hm.
  pose proof (daysToSubtract_range (firstDayOfMonth year month)) as Hdts.
  pose proof (getDate_le_31 td) as Hdate.
  assert (Hi : i < 42) by (subst i; lia).
  assert (Hday : (Day td = MakeDay year month 1 + (getDate td - 1))%Z).
  { pose proof (MakeDay_of_fields td 1) as H1.
    unfold getFullYear, getMonth in Hyear, Hmonth. rewrite Hyear, Hmonth in H1.
    unfold getDate. lia. }
  assert (Hcd : cellDateAt (gridStartDate year month) i = (Day td * msPerDay)%Z).
  { rewrite grid_cell_date by exact Hy. rewrite Hday. subst i. unfold msPerDay. lia. }
  eexists. split; [apply renderGrid_lookup; exact Hi |].
  unfold renderCell. cbv zeta.
  cbn [cellDate cellOtherMonth cellDayTasks cellSortedTasks].
  fold year month. rewrite Hcd.
  assert (Hcell : In task (cellTasks tasks now (Day td * msPerDay))).
  { unfold cellTasks. cbv zeta.
    assert (Hown : In task (getTasksForDate tasks now (DateValue (Day td * msPerDay)))).
    { apply getTasksForDate_In. split; [exact Hin |]. exists td.
      rewrite Day_of_midnight. repeat split; [exact Hd |].
      destruct Hvis as [Hc | Hle]; [now right | now left]. }
    destruct (timeEq _ _); [apply in_or_app; now right | exact Hown]. }
  repeat match goal with |- _ /\ _ => split end.
  - reflexivity.
  - apply negb_false_iff, Z.eqb_eq.
    assert (Hsame : toDateString (DateValue (Day td * msPerDay)) = toDateString (DateValue td))
      by (apply toDateString_same_day, Day_of_midnight).
    unfold toDateString in Hsame. injection Hsame as _ Hmo _ _.
    unfold getMonth in *. congruence.
  - exact Hcell.
  - intros Hshown. apply stableSort_In.
    destruct showCompleted; simpl; [exact Hcell |].
    apply filter_In. split; [exact Hcell |].
    destruct Hshown as [Hs | Hc]; [discriminate | now rewrite Hc].
Qed.

Section MoreScenarios.
Import Sample Scenario.
Local Open Scope Z_scope.

Lemma checkbox_follows_the_click_witness :
  In milk (loadTasksManually vault settings now) /\
  (path (file milk) ∉ vaultRefused vault) /\
  coChecked (onCheckboxChange (toggleTaskCompletion None workspace) vault milk
               (browserClick (isCompleted milk))) = true.
Proof.
  assert (Hin : In milk (loadTasksManually vault settings now))
    by (rewrite sample_raw_scan; simpl; tauto).
  assert (Hfree : path (file milk) ∉ vaultRefused vault)
    by (simpl; apply not_elem_of_empty).
  split; [exact Hin |]. split; [exact Hfree |].
  destruct (checkbox_follows_the_click vault settings now workspace milk Hin Hfree)
    as (_ & Hbox & _).
  exact Hbox.
Defined.

Lemma month_task_is_in_its_cell_witness :
  ~ (0 <= getFullYear now <= 99) /\ In plants tasks /\
  exists cell,
    renderGrid tasks true now now
      !! Z.to_nat (daysToSubtract (firstDayOfMonth (getFullYear now) (getMonth now))
                   + getDate (march 10) - 1) = Some cell /\
    cellDate cell = Day (march 10) * msPerDay /\
    cellOtherMonth cell = false /\
    In plants (cellDayTasks cell) /\
    (true = true \/ isCompleted plants = false -> In plants (cellSortedTasks cell)).
Proof.
  assert (Hin : In plants tasks) by (simpl; tauto).
  split; [exact sample_year |]. split; [exact Hin |].
  apply (month_task_is_in_its_cell tasks true now now (march 10) plants sample_year Hin eq_refl).
  - vm_compute. reflexivity.
  - vm_compute. reflexivity.
  - left. reflexivity.
Defined.

End MoreScenarios.
